(** * A pseudo-shell command interpreter: model and properties

    The development follows [executor.py] (class [CommandExecutor]): the
    string helpers of the Python standard library that the interpreter calls,
    [posixpath], [shlex.split], an in-memory file system, the verb handlers
    and the [run] entry point with its two capture sessions. *)

From Stdlib Require Import Ascii String List Bool Arith ZArith Lia DecimalString.
From stdpp Require Import base option list strings gmap.

Local Open Scope string_scope.

(** ** Python [str] operations

    A [string] is read as a sequence of code points below 256. *)
Module PyStr.

(** [s.startswith(p)] *)
Fixpoint startswith (p s : string) : bool :=
  match p, s with
  | EmptyString, _ => true
  | String a p', String b s' => Ascii.eqb a b && startswith p' s'
  | String _ _, EmptyString => false
  end.

(** [s.endswith(p)] *)
Definition endswith (p s : string) : bool :=
  startswith (String.rev p) (String.rev s).

(** [p in s], for strings: literal substring test *)
Fixpoint contains (p s : string) : bool :=
  startswith p s ||
  match s with
  | EmptyString => false
  | String _ s' => contains p s'
  end.

(** [sep.join(l)] *)
Fixpoint join (sep : string) (l : list string) : string :=
  match l with
  | [] => ""
  | [x] => x
  | x :: rest => x ++ sep ++ join sep rest
  end.

(** [s.split(sep)] for a one-character separator *)
Fixpoint split (sep : ascii) (s : string) : list string :=
  match s with
  | EmptyString => [""]
  | String c s' =>
      if Ascii.eqb c sep then "" :: split sep s'
      else match split sep s' with
           | [] => [String c ""]
           | w :: ws => String c w :: ws
           end
  end.

(** [s.split(sep, maxsplit)] for a one-character separator *)
Fixpoint split_max (sep : ascii) (s : string) (maxsplit : nat) : list string :=
  match s with
  | EmptyString => [""]
  | String c s' =>
      match maxsplit with
      | O => [s]
      | S m =>
          if Ascii.eqb c sep then "" :: split_max sep s' m
          else match split_max sep s' maxsplit with
               | [] => [String c ""]
               | w :: ws => String c w :: ws
               end
      end
  end.

(** [c.isspace()] on code points below 256: TAB, LF, VT, FF, CR, the four
    separators FS, GS, RS, US, SPACE, NEL and NBSP. *)
Definition isspace (c : ascii) : bool :=
  let n := nat_of_ascii c in
  (((9 <=? n) && (n <=? 13)) || ((28 <=? n) && (n <=? 32))
   || (n =? 133) || (n =? 160))%nat.

(** [s.lstrip()] *)
Fixpoint lstrip (s : string) : string :=
  match s with
  | EmptyString => ""
  | String c s' => if isspace c then lstrip s' else s
  end.

(** [s.rstrip()] *)
Fixpoint rstrip (s : string) : string :=
  match s with
  | EmptyString => ""
  | String c s' =>
      match rstrip s' with
      | EmptyString => if isspace c then "" else String c ""
      | r => String c r
      end
  end.

(** [s.strip()] *)
Definition strip (s : string) : string := rstrip (lstrip s).

(** [str(n)] for a natural number *)
Definition str_of_nat (n : nat) : string :=
  NilEmpty.string_of_uint (Nat.to_uint n).

(** [sorted(l)] for a list of strings, by code point *)
Fixpoint insert_sorted (x : string) (l : list string) : list string :=
  match l with
  | [] => [x]
  | y :: rest => if String.leb x y then x :: l else y :: insert_sorted x rest
  end.
Definition sorted (l : list string) : list string :=
  fold_right insert_sorted [] l.

(** [x in l] for a list of strings *)
Definition mem (x : string) (l : list string) : bool :=
  existsb (String.eqb x) l.

(** [l.index(x)], [None] for the [ValueError] of an absent element *)
Fixpoint index (x : string) (l : list string) : option nat :=
  match l with
  | [] => None
  | y :: rest => if String.eqb y x then Some 0 else S <$> index x rest
  end.

End PyStr.

(** ** [posixpath] *)
Module PosixPath.
Import PyStr.

(** [os.path.isabs] *)
Definition isabs (s : string) : bool := startswith "/" s.

(** [os.path.join(a, b)] *)
Definition join2 (a b : string) : string :=
  if startswith "/" b then b
  else if String.eqb a "" || endswith "/" a then a ++ b
  else a ++ "/" ++ b.

(** The count [initial_slashes] of [normpath]: POSIX keeps exactly two
    leading slashes and folds three or more into one. *)
Definition initial_slashes (path : string) : nat :=
  if startswith "/" path then
    if startswith "//" path && negb (startswith "///" path) then 2 else 1
  else 0.

Definition last_is_dotdot (new_comps : list string) : bool :=
  match last new_comps with
  | Some c => String.eqb c ".."
  | None => false
  end.

(** The [for comp in comps] loop of [normpath] *)
Fixpoint normpath_loop (init : nat) (comps new_comps : list string)
  : list string :=
  match comps with
  | [] => new_comps
  | comp :: rest =>
      if String.eqb comp "" || String.eqb comp "." then
        normpath_loop init rest new_comps
      else if negb (String.eqb comp "..")
              || ((init =? 0)%nat && (length new_comps =? 0)%nat)
              || last_is_dotdot new_comps then
        normpath_loop init rest (new_comps ++ [comp])
      else if negb (length new_comps =? 0)%nat then
        normpath_loop init rest (removelast new_comps)
      else normpath_loop init rest new_comps
  end.

Fixpoint slashes (n : nat) : string :=
  match n with
  | O => ""
  | S n' => "/" ++ slashes n'
  end.

(** [os.path.normpath] *)
Definition normpath (path : string) : string :=
  if String.eqb path "" then "."
  else
    let init := initial_slashes path in
    let comps := normpath_loop init (split "/" path) [] in
    let path' := slashes init ++ join "/" comps in
    if String.eqb path' "" then "." else path'.

(** [s.rstrip("/")] *)
Fixpoint rstrip_slash (s : string) : string :=
  match s with
  | EmptyString => ""
  | String c s' =>
      match rstrip_slash s' with
      | EmptyString => if Ascii.eqb c "/" then "" else String c ""
      | r => String c r
      end
  end.

(** [os.path.basename]: what follows the last slash *)
Definition basename (p : string) : string := List.last (split "/" p) "".

(** [os.path.dirname]: what precedes the last slash, trailing slashes
    removed unless it is made of slashes only *)
Definition dirname (p : string) : string :=
  match removelast (split "/" p) with
  | [] => ""
  | comps =>
      let head := join "/" comps ++ "/" in
      if String.eqb (rstrip_slash head) "" then head else rstrip_slash head
  end.

End PosixPath.

(** [CommandExecutor._path_resolve] *)
Definition _path_resolve (path cwd : string) : string :=
  if PosixPath.isabs path then PosixPath.normpath path
  else PosixPath.normpath (PosixPath.join2 cwd path).

(** ** Exceptions and results *)

(** The exception classes the interpreter can meet.  [except OSError]
    catches the first six, [except Exception] and a bare [except] catch
    all of them. *)
Inductive exn_class :=
  | FileNotFoundError | IsADirectoryError | NotADirectoryError
  | FileExistsError | PermissionError | OSError
  | ValueError | IndexError | TypeError.

(** An exception value: its class and [str(e)]. *)
Record exn := Exn { exn_cls : exn_class; exn_str : string }.

Definition is_OSError (e : exn) : bool :=
  match exn_cls e with
  | FileNotFoundError | IsADirectoryError | NotADirectoryError
  | FileExistsError | PermissionError | OSError => true
  | _ => false
  end.

Definition is_FileExistsError (e : exn) : bool :=
  match exn_cls e with FileExistsError => true | _ => false end.

Definition is_ValueError (e : exn) : bool :=
  match exn_cls e with ValueError => true | _ => false end.

Definition is_PermissionError (e : exn) : bool :=
  match exn_cls e with PermissionError => true | _ => false end.

(** A computation that may raise. *)
Inductive except (A : Type) :=
  | Raise (e : exn)
  | Ok (a : A).
Arguments Raise {A} e.
Arguments Ok {A} a.

Definition except_map {A B} (f : A -> B) (x : except A) : except B :=
  match x with Raise e => Raise e | Ok a => Ok (f a) end.

Definition except_bind {A B} (x : except A) (f : A -> except B) : except B :=
  match x with Raise e => Raise e | Ok a => f a end.

(** [l[i]] on a Python list, negative indices included. *)
Definition getitem {A} (l : list A) (i : Z) : except A :=
  let n := Z.of_nat (length l) in
  let j := (if i <? 0 then i + n else i)%Z in
  if ((j <? 0) || (n <=? j))%Z then Raise (Exn IndexError "list index out of range")
  else match nth_error l (Z.to_nat j) with
       | Some x => Ok x
       | None => Raise (Exn IndexError "list index out of range")
       end.

(** [l[:i]] for [0 <= i] *)
Definition slice_to {A} (l : list A) (i : Z) : list A := firstn (Z.to_nat i) l.

(** [l.index(x)] as a Python integer *)
Definition list_index (x : string) (l : list string) : except Z :=
  match PyStr.index x l with
  | Some i => Ok (Z.of_nat i)
  | None => Raise (Exn ValueError (String.append x " is not in list"))
  end.

(** The four-tuple [(stdout, stderr, new_cwd, exit_code)] every invocation
    returns; [new_cwd = None] is the "working directory unchanged" value. *)
Record result := Result {
  stdout : string;
  stderr : string;
  new_cwd : option string;
  exit_code : Z
}.

(** ** The file store

    Files hold text; a directory is an entry of its own.  Entries are keyed
    by the list of path components from the root, the root itself being the
    empty list, which is always a directory.  There are no symbolic links,
    owners or permission bits: every failure of the store is structural
    (missing entry, directory where a file is needed, and the like). *)
Inductive node :=
  | File (content : string)
  | Dir.

Record world := World {
  files : gmap (list string) node;
  (** the working directory of the hosting process, against which the
      operating system resolves relative paths *)
  getcwd : list string
}.

Module FS.
Import PyStr.

(** Walk the components of a path from a starting directory. *)
Fixpoint walk_comps (comps : list string) (at_ : list string) : list string :=
  match comps with
  | [] => at_
  | c :: rest =>
      if String.eqb c "" || String.eqb c "." then walk_comps rest at_
      else if String.eqb c ".." then walk_comps rest (removelast at_)
      else walk_comps rest (at_ ++ [c])
  end.

(** The entry a path names.  Resolution is lexical: an absolute path starts
    at the root, a relative one at the working directory of the process;
    empty components and [.] are skipped, [..] steps up and stays at the
    root.  On a normalised path, as [_path_resolve] returns, this is the
    entry the operating system reaches; a path that steps through a missing
    directory or a file and back with [..] is resolved all the same, where
    the operating system fails. *)
Definition key (w : world) (path : string) : list string :=
  walk_comps (split "/" path) (if startswith "/" path then [] else getcwd w).

Definition lookup_key (w : world) (k : list string) : option node :=
  match k with
  | [] => Some Dir
  | _ => files w !! k
  end.

Definition lookup (w : world) (path : string) : option node :=
  if String.eqb path "" then None else lookup_key w (key w path).

(** [os.path.exists], [os.path.isdir], [os.path.isfile] *)
Definition exists_ (w : world) (path : string) : bool :=
  match lookup w path with Some _ => true | None => false end.

Definition isdir (w : world) (path : string) : bool :=
  match lookup w path with Some Dir => true | _ => false end.

Definition isfile (w : world) (path : string) : bool :=
  match lookup w path with Some (File _) => true | _ => false end.

(** The parent entry of a key *)
Definition parent (k : list string) : list string := removelast k.

(** [repr(path)] inside the message of an [OSError]; exact for paths made of
    printable characters other than quotes and backslashes. *)
Definition repr (path : string) : string := "'" ++ path ++ "'".

Definition ENOENT (path : string) : exn :=
  Exn FileNotFoundError ("[Errno 2] No such file or directory: " ++ repr path).
Definition ENOTDIR (path : string) : exn :=
  Exn NotADirectoryError ("[Errno 20] Not a directory: " ++ repr path).
Definition EISDIR (path : string) : exn :=
  Exn IsADirectoryError ("[Errno 21] Is a directory: " ++ repr path).
Definition EEXIST (path : string) : exn :=
  Exn FileExistsError ("[Errno 17] File exists: " ++ repr path).
Definition ENOTEMPTY (path : string) : exn :=
  Exn OSError ("[Errno 39] Directory not empty: " ++ repr path).
Definition EBUSY (path : string) : exn :=
  Exn OSError ("[Errno 16] Device or resource busy: " ++ repr path).

(** The error of naming an entry that is not there: a file on the way makes
    it [ENOTDIR]. *)
Definition missing (w : world) (path : string) : exn :=
  match lookup_key w (parent (key w path)) with
  | Some (File _) => ENOTDIR path
  | _ => ENOENT path
  end.

(** Universal newlines on reading in text mode: CR LF and a lone CR both
    read as LF. *)
Fixpoint universal_newlines (s : string) : string :=
  match s with
  | EmptyString => ""
  | String c s' =>
      if Ascii.eqb c "013" then
        match s' with
        | String d s'' =>
            if Ascii.eqb d "010" then String "010" (universal_newlines s'')
            else String "010" (universal_newlines s')
        | EmptyString => String "010" ""
        end
      else String c (universal_newlines s')
  end.

(** [open(path, "r", encoding="utf-8", errors="replace").read()] *)
Definition read_text (w : world) (path : string) : except string :=
  match lookup w path with
  | Some (File c) => Ok (universal_newlines c)
  | Some Dir => Raise (EISDIR path)
  | None => Raise (missing w path)
  end.

(** How [open(path, mode, encoding="utf-8")] opens a file, by the letter of
    the mode that is present: [r], [w], [x] or [a], and whether [+] is. *)
Inductive open_mode := ModeR (plus : bool) | ModeW | ModeX | ModeA.

Fixpoint count_char (c : ascii) (s : string) : nat :=
  match s with
  | EmptyString => 0
  | String d s' => (if Ascii.eqb c d then 1 else 0) + count_char c s'
  end.

Fixpoint all_chars (P : ascii -> bool) (s : string) : bool :=
  match s with
  | EmptyString => true
  | String c s' => P c && all_chars P s'
  end.

(** The checks [open] makes on its mode string: known letters, none twice,
    exactly one of [r w x a], and no binary mode next to an encoding. *)
Definition mode_of_string (m : string) : except open_mode :=
  let has c := (0 <? count_char c m)%nat in
  let bad msg := Raise (Exn ValueError msg) in
  if negb (all_chars (fun c => (0 <? count_char c "axrwb+t")%nat) m)
     || negb (all_chars (fun c => (count_char c m =? 1)%nat) m)
  then bad ("invalid mode: " ++ repr m)
  else if has "t"%char && has "b"%char
  then bad "can't have text and binary mode at once"
  else if (1 <? count_char "x" m + count_char "r" m
                + count_char "w" m + count_char "a" m)%nat
  then bad "must have exactly one of create/read/write/append mode"
  else if has "b"%char
  then bad "binary mode doesn't take an encoding argument"
  else if has "x"%char then Ok ModeX
  else if has "r"%char then Ok (ModeR (has "+"%char))
  else if has "w"%char then Ok ModeW
  else if has "a"%char then Ok ModeA
  else bad "Must have exactly one of create/read/write/append mode and at most one plus".

Definition set_file (w : world) (k : list string) (c : string) : world :=
  World (<[k := File c]> (files w)) (getcwd w).

(** [s[n:]] *)
Fixpoint drop_str (n : nat) (s : string) : string :=
  match n, s with
  | S n', String _ s' => drop_str n' s'
  | _, _ => s
  end.

(** [with open(path, mode, encoding="utf-8") as f: f.write(text)] *)
Definition write_text (w : world) (path : string) (m : open_mode)
    (text : string) : except unit * world :=
  if String.eqb path "" then (Raise (ENOENT path), w)
  else
    let k := key w path in
    match lookup_key w k with
    | Some Dir => (Raise (EISDIR path), w)
    | Some (File old) =>
        match m with
        | ModeW => (Ok tt, set_file w k text)
        | ModeA => (Ok tt, set_file w k (old ++ text))
        | ModeX => (Raise (EEXIST path), w)
        | ModeR true =>
            (Ok tt, set_file w k (text ++ drop_str (String.length text) old))
        | ModeR false => (Raise (Exn OSError "not writable"), w)
        end
    | None =>
        match m with
        | ModeR _ => (Raise (missing w path), w)
        | _ =>
            match lookup_key w (parent k) with
            | Some Dir => (Ok tt, set_file w k text)
            | Some (File _) => (Raise (ENOTDIR path), w)
            | None => (Raise (ENOENT path), w)
            end
        end
    end.

Definition has_children (w : world) (k : list string) : bool :=
  bool_decide (map_Exists (fun k' _ => k `prefix_of` k' /\ k' <> k) (files w)).

(** [os.remove] *)
Definition remove (w : world) (path : string) : except unit * world :=
  match lookup w path with
  | Some (File _) => (Ok tt, World (delete (key w path) (files w)) (getcwd w))
  | Some Dir => (Raise (EISDIR path), w)
  | None => (Raise (missing w path), w)
  end.

(** [shutil.rmtree]: the entry and everything below it go.  Asked to remove
    the root, it empties the store and then fails on the root itself. *)
Definition rmtree (w : world) (path : string) : except unit * world :=
  match lookup w path with
  | Some Dir =>
      let k := key w path in
      let w' := World (filter (fun kv => ~ (k `prefix_of` kv.1)) (files w)) (getcwd w) in
      match k with
      | [] => (Raise (EBUSY path), w')
      | _ => (Ok tt, w')
      end
  | Some (File _) => (Raise (ENOTDIR path), w)
  | None => (Raise (missing w path), w)
  end.

(** [os.rmdir] *)
Definition rmdir (w : world) (path : string) : except unit * world :=
  match lookup w path with
  | Some Dir =>
      let k := key w path in
      if has_children w k then (Raise (ENOTEMPTY path), w)
      else match k with
           | [] => (Raise (EBUSY path), w)
           | _ => (Ok tt, World (delete k (files w)) (getcwd w))
           end
  | Some (File _) => (Raise (ENOTDIR path), w)
  | None => (Raise (missing w path), w)
  end.

(** The directories [os.makedirs] creates on the way to a key: each missing
    ancestor in turn, stopping at a file. *)
Fixpoint make_ancestors (fs : gmap (list string) node) (done_ todo : list string)
  : option (gmap (list string) node) :=
  match todo with
  | [] => Some fs
  | c :: rest =>
      let k := (done_ ++ [c])%list in
      match fs !! k with
      | Some Dir => make_ancestors fs k rest
      | Some (File _) => None
      | None => make_ancestors (<[k := Dir]> fs) k rest
      end
  end.

(** The path in the error of [os.makedirs] when a regular file is on the
    way: [makedirs] climbs to the longest prefix that exists, the file, and
    the [mkdir] that fails is that of the next component below it. *)
Definition below_file (w : world) (path : string) : string :=
  let comps := split "/" path in
  let prefix i := join "/" (firstn i comps) in
  match List.find (fun i => isfile w (prefix i)) (seq 1 (length comps)) with
  | Some i =>
      match List.find (fun j => negb (String.eqb (nth j comps "") ""))
                      (seq i (length comps - i)) with
      | Some j => prefix (S j)
      | None => path
      end
  | None => path
  end.

(** [os.makedirs(path, exist_ok=...)] *)
Definition makedirs (w : world) (path : string) (exist_ok : bool)
  : except unit * world :=
  if String.eqb path "" then (Raise (ENOENT path), w)
  else
    let k := key w path in
    match make_ancestors (files w) [] (parent k) with
    | None => (Raise (ENOTDIR (below_file w path)), w)
    | Some fs =>
        let w' := World fs (getcwd w) in
        match lookup_key w' k with
        | None => (Ok tt, World (<[k := Dir]> fs) (getcwd w))
        | Some Dir => if exist_ok then (Ok tt, w') else (Raise (EEXIST path), w')
        | Some (File _) => (Raise (EEXIST path), w')
        end
    end.

(** [os.listdir]: the names directly below a directory, in the order of the
    store. *)
Definition listdir (w : world) (path : string) : except (list string) :=
  match lookup w path with
  | Some Dir =>
      let k := key w path in
      Ok (omap (fun kv : list string * node =>
                  if bool_decide (parent kv.1 = k) then last kv.1 else None)
               (map_to_list (files w)))
  | Some (File _) => Raise (ENOTDIR path)
  | None => Raise (missing w path)
  end.

End FS.

(** ** Computations on the world *)

(** A step of the interpreter: it may change the world and may raise. *)
Definition io (A : Type) : Type := world -> except A * world.

Definition ret {A} (a : A) : io A := fun w => (Ok a, w).
Definition raise {A} (e : exn) : io A := fun w => (Raise e, w).
Definition bind {A B} (m : io A) (f : A -> io B) : io B :=
  fun w => match m w with
           | (Raise e, w') => (Raise e, w')
           | (Ok a, w') => f a w'
           end.
(** [try: m  except <classes> as e: h e] *)
Definition catch {A} (m : io A) (caught : exn -> bool) (h : exn -> io A) : io A :=
  fun w => match m w with
           | (Raise e, w') => if caught e then h e w' else (Raise e, w')
           | r => r
           end.
(** A pure step that may raise *)
Definition lift {A} (x : except A) : io A := fun w => (x, w).
(** A read of the world *)
Definition ask {A} (f : world -> A) : io A := fun w => (Ok (f w), w).
(** A read of the world that may raise *)
Definition ask_ex {A} (f : world -> except A) : io A := fun w => (f w, w).

Declare Scope io_scope.
Delimit Scope io_scope with io.
Bind Scope io_scope with io.
Notation "'do' x <- m ; k" := (bind m (fun x => k))
  (at level 10, x name, m at level 100, k at level 200) : io_scope.

Definition any_exception (_ : exn) : bool := true.

(** ** Text helpers of the handlers *)
Module Fmt.
Import PyStr.

Definition nl : string := String "010" "".
(** The double quote, as a one-character string *)
Definition dq : string := String "034" "".
Definition tab : string := String "009" "".

(** [str(z)] for a Python integer *)
Definition str_of_Z (z : Z) : string := NilEmpty.string_of_int (Z.to_int z).

Fixpoint spaces (n : nat) : string :=
  match n with O => "" | S n' => String " " (spaces n') end.

(** [s.rjust(n)] and [s.ljust(n)] *)
Definition rjust (n : nat) (s : string) : string :=
  spaces (n - String.length s) ++ s.
Definition ljust (n : nat) (s : string) : string :=
  s ++ spaces (n - String.length s).

(** [f"{z:<width>d}"] *)
Definition fmt_d (width : nat) (z : Z) : string := rjust width (str_of_Z z).

(** [f"{z:02d}"] for [0 <= z] *)
Definition fmt_02d (z : Z) : string :=
  if (z <? 10)%Z then "0" ++ str_of_Z z else str_of_Z z.

(** [s[:n]] *)
Fixpoint take (n : nat) (s : string) : string :=
  match n, s with
  | S n', String c s' => String c (take n' s')
  | _, _ => ""
  end.

(** [s * n] *)
Fixpoint repeat_str (s : string) (n : nat) : string :=
  match n with O => "" | S n' => s ++ repeat_str s n' end.

(** The lines of a text, terminators kept: what iterating over a text file
    and [readlines()] yield. *)
Fixpoint lines_keepends (s : string) : list string :=
  match s with
  | EmptyString => []
  | String c s' =>
      if Ascii.eqb c "010" then String c "" :: lines_keepends s'
      else match lines_keepends s' with
           | [] => [String c ""]
           | l :: ls => String c l :: ls
           end
  end.

End Fmt.

(** ** [shlex.split]

    [shlex.split(s)] runs a [shlex] lexer in POSIX mode with
    [whitespace_split] set and no comment characters; the lexer state is a
    character, as in the library: [" "] between tokens, ["a"] inside a word,
    a quote character inside quotes, the backslash after an escape. *)
Module Shlex.
Import PyStr.

Definition whitespace (c : ascii) : bool :=
  Ascii.eqb c " " || Ascii.eqb c "009" || Ascii.eqb c "013" || Ascii.eqb c "010".
Definition escape (c : ascii) : bool := Ascii.eqb c "\".
Definition quotes (c : ascii) : bool := Ascii.eqb c "'" || Ascii.eqb c "034".
Definition escapedquotes (c : ascii) : bool := Ascii.eqb c "034".

(** The end of [read_token]: an empty unquoted token is the end of input. *)
Definition emit_eof (token : string) (quoted : bool) : list string :=
  if negb quoted && String.eqb token "" then [] else [token].

(** All tokens of the input, or the [ValueError] of the lexer.  One call of
    [read_token] runs from one emitted token to the next, [token], [quoted]
    and [escapedstate] starting afresh each time. *)
Fixpoint tokens (input : string) (state escapedstate : ascii)
    (token : string) (quoted : bool) : except (list string) :=
  match input with
  | EmptyString =>
      if Ascii.eqb state " " then Ok (emit_eof token quoted)
      else if quotes state then Raise (Exn ValueError "No closing quotation")
      else if escape state then Raise (Exn ValueError "No escaped character")
      else Ok (emit_eof token quoted)
  | String nextchar rest =>
      if Ascii.eqb state " " then
        if whitespace nextchar then
          if negb (String.eqb token "") || quoted
          then except_map (cons token) (tokens rest state " " "" false)
          else tokens rest state escapedstate token quoted
        else if escape nextchar then tokens rest nextchar "a" token quoted
        else if quotes nextchar then tokens rest nextchar escapedstate token quoted
        else tokens rest "a" escapedstate (String nextchar "") quoted
      else if quotes state then
        if Ascii.eqb nextchar state then tokens rest "a" escapedstate token true
        else if escape nextchar && escapedquotes state
        then tokens rest nextchar state token true
        else tokens rest state escapedstate (token ++ String nextchar "") true
      else if escape state then
        let token1 :=
          if quotes escapedstate && negb (Ascii.eqb nextchar state)
             && negb (Ascii.eqb nextchar escapedstate)
          then token ++ String state "" else token in
        tokens rest escapedstate escapedstate (token1 ++ String nextchar "") quoted
      else
        if whitespace nextchar then
          if negb (String.eqb token "") || quoted
          then except_map (cons token) (tokens rest " " " " "" false)
          else tokens rest " " escapedstate token quoted
        else if quotes nextchar then tokens rest nextchar escapedstate token quoted
        else if escape nextchar then tokens rest nextchar "a" token quoted
        else tokens rest state escapedstate (token ++ String nextchar "") quoted
  end.

Definition split (s : string) : except (list string) :=
  tokens s " " " " "" false.

End Shlex.

(** ** Integer literals: [int(s)] and [int(s, 8)] *)
Module PyInt.
Import PyStr.

Definition digit_val (base : Z) (c : ascii) : option Z :=
  let n := Z.of_nat (nat_of_ascii c) in
  if ((48 <=? n) && (n <? 48 + base))%Z then Some (n - 48)%Z else None.

(** Digits with single underscores between them; [prev_digit] tells whether
    the character before was a digit. *)
Fixpoint digits (base : Z) (s : string) (acc : Z) (prev_digit : bool) : option Z :=
  match s with
  | EmptyString => if prev_digit then Some acc else None
  | String c s' =>
      if Ascii.eqb c "_" then
        if prev_digit then digits base s' acc false else None
      else match digit_val base c with
           | Some d => digits base s' (acc * base + d)%Z true
           | None => None
           end
  end.

Definition unsigned (base : Z) (s : string) : option Z :=
  match s with
  | String "0" (String p s') =>
      if (base =? 8)%Z && (Ascii.eqb p "o" || Ascii.eqb p "O")
      then match s' with
           | String "_" s'' => digits base s'' 0 false
           | _ => digits base s' 0 false
           end
      else digits base s 0 false
  | _ => digits base s 0 false
  end.

(** The blanks [int] skips around a literal: ASCII whitespace and, below
    256, the Unicode spaces NEL and NBSP.  The separators FS, GS, RS and US,
    which [str.strip] removes, are not among them. *)
Definition int_space (c : ascii) : bool :=
  let n := nat_of_ascii c in
  (((9 <=? n) && (n <=? 13)) || (n =? 32) || (n =? 133) || (n =? 160))%nat.

Fixpoint skip_leading (s : string) : string :=
  match s with
  | EmptyString => ""
  | String c s' => if int_space c then skip_leading s' else s
  end.

Fixpoint skip_trailing (s : string) : string :=
  match s with
  | EmptyString => ""
  | String c s' =>
      match skip_trailing s' with
      | EmptyString => if int_space c then "" else String c ""
      | r => String c r
      end
  end.

(** [int(s, base)] for base 8 or 10 *)
Definition parse (base : Z) (s : string) : except Z :=
  let t := skip_trailing (skip_leading s) in
  let r := match t with
           | String "-" t' => Z.opp <$> unsigned base t'
           | String "+" t' => unsigned base t'
           | _ => unsigned base t
           end in
  match r with
  | Some z => Ok z
  | None => Raise (Exn ValueError
      ("invalid literal for int() with base "
       ++ Fmt.str_of_Z base ++ ": " ++ FS.repr s))
  end.

(** [oct(z)] for [0 <= z] *)
Fixpoint oct_digits (fuel : nat) (z : Z) (acc : string) : string :=
  match fuel with
  | O => acc
  | S f =>
      let acc' := String (ascii_of_nat (48 + Z.to_nat (z mod 8))) acc in
      if (z / 8 =? 0)%Z then acc' else oct_digits f (z / 8) acc'
  end.
Definition oct (z : Z) : string :=
  "0o" ++ oct_digits (S (Z.to_nat (Z.log2 z))) z "".

End PyInt.

(** ** The host

    What the interpreter asks of the machine beyond the file store: the
    metrics provider ([psutil]), clocks, the user and host names, digests,
    metadata and the tree operations of [os] and [shutil].  Each is taken as
    given; any of the calls that can fail in Python may raise here. *)

(** One entry of [psutil.process_iter]: a field the provider could not read
    is [None]; the two percentages come already rendered by [:5.1f]. *)
Record proc_info := ProcInfo {
  pi_pid : option Z;
  pi_name : option string;
  pi_cpu_percent : option string;
  pi_memory_percent : option string
}.

(** [os.stat_result], the times as clock readings *)
Record stat_result := StatResult {
  st_size : Z;
  st_mode : Z;
  st_atime : Z;
  st_mtime : Z;
  st_ctime : Z
}.

Record host := Host {
  (** [os.path.expanduser("~")] *)
  expanduser_home : string;
  (** [psutil.cpu_percent(interval=0.5, percpu=False)], as [str] prints it *)
  cpu_percent : except string;
  (** [psutil.virtual_memory()]: total, used, and percent as [str] prints it *)
  virtual_memory : except (Z * Z * string);
  (** [psutil.process_iter([...])] *)
  process_iter : except (list proc_info);
  (** [psutil.disk_usage('/')]: total, used, free, percent by [:3.0f] *)
  disk_usage : except (Z * Z * Z * string);
  (** [datetime.now() - datetime.fromtimestamp(psutil.boot_time())]:
      its [days] and [seconds] *)
  uptime_delta : except (Z * Z);
  (** [datetime.now().strftime(fmt)] *)
  now_strftime : string -> string;
  (** [datetime.fromtimestamp(t).strftime(fmt)] *)
  strftime : Z -> string -> string;
  (** [getpass.getuser()], [socket.gethostname()] *)
  getuser : except string;
  gethostname : except string;
  (** [os.path.getsize], [os.path.getmtime] *)
  getsize : world -> string -> except Z;
  getmtime : world -> string -> except Z;
  (** [os.stat], [os.chmod], [os.utime(p, None)] *)
  os_stat : world -> string -> except stat_result;
  os_chmod : world -> string -> Z -> except unit;
  os_utime : world -> string -> except unit;
  (** [os.path.islink] *)
  islink : world -> string -> bool;
  (** [os.walk(top)]: the triples [(root, dirs, files)] it yields *)
  os_walk : world -> string -> list (string * list string * list string);
  (** [shutil.move], [shutil.copytree], [shutil.copy2] *)
  shutil_move : world -> string -> string -> except unit * world;
  shutil_copytree : world -> string -> string -> except unit * world;
  shutil_copy2 : world -> string -> string -> except unit * world;
  (** the digest of a file read in binary: [hashlib.md5], [hashlib.sha256] *)
  md5_file : world -> string -> except string;
  sha256_file : world -> string -> except string
}.

(** ** The verb handlers *)
Section Handlers.
Variable h : host.
Import PyStr Fmt.
Local Open Scope io_scope.
Local Open Scope Z_scope.

(** The store operations as steps *)
Definition exists_ (p : string) : io bool := ask (fun w => FS.exists_ w p).
Definition isdir (p : string) : io bool := ask (fun w => FS.isdir w p).
Definition isfile (p : string) : io bool := ask (fun w => FS.isfile w p).
Definition read_text (p : string) : io string := ask_ex (fun w => FS.read_text w p).
Definition write_text (p : string) (m : FS.open_mode) (t : string) : io unit :=
  fun w => FS.write_text w p m t.
(** [with open(p, mode, encoding="utf-8") as f: f.write(t)], the mode a string *)
Definition open_write (p mode t : string) : io unit :=
  do m <- lift (FS.mode_of_string mode); write_text p m t.

(** A handler's [return (out, err, cwd, code)] *)
Definition done_ (out err cwd : string) (code : Z) : io result :=
  ret (Result out err (Some cwd) code).

(** The flag loop of [_ls]: target, long format, show all *)
Definition _ls_flags (cwd : string) (args : list string) : string * bool * bool :=
  fold_left (fun '(target, long_format, show_all) a =>
    if String.eqb a "-l" then (target, true, show_all)
    else if String.eqb a "-a" then (target, long_format, true)
    else if String.eqb a "-la" || String.eqb a "-al" then (target, true, true)
    else if negb (startswith "-" a) then (_path_resolve a cwd, long_format, show_all)
    else (target, long_format, show_all))
    args (cwd, false, false).

(** One line of the long listing; any failure gives the line of question
    marks. *)
Definition _ls_long_line (target e : string) : io string :=
  let p := PosixPath.join2 target e in
  catch
    (do size <- ask_ex (fun w => getsize h w p);
     do mt <- ask_ex (fun w => getmtime h w p);
     let mtime := strftime h mt "%Y-%m-%d %H:%M" in
     do d <- isdir p;
     let dtype := if d then "d" else "-" in
     ret (dtype ++ "  " ++ fmt_d 10 size ++ "  " ++ mtime ++ "  " ++ e)%string)
    any_exception
    (fun _ => ret ("?  " ++ rjust 10 "?" ++ "  " ++ rjust 16 "?" ++ "  " ++ e)%string).

Fixpoint _ls_long_lines (target : string) (entries : list string) : io (list string) :=
  match entries with
  | [] => ret []
  | e :: rest =>
      do l <- _ls_long_line target e;
      do ls <- _ls_long_lines target rest;
      ret (l :: ls)
  end.

Definition _ls (args : list string) (cwd : string) : io result :=
  let '(target, long_format, show_all) := _ls_flags cwd args in
  do ex <- exists_ target;
  if negb ex then
    done_ "" ("ls: cannot access '" ++ target ++ "': No such file or directory" ++ nl) cwd 2
  else
  do f <- isfile target;
  if f then done_ (PosixPath.basename target ++ nl) "" cwd 0
  else
  do entries <- ask_ex (fun w => FS.listdir w target);
  let entries := if negb show_all
                 then List.filter (fun e => negb (startswith "." e)) entries
                 else entries in
  let entries := sorted entries in
  if long_format then
    do lines <- _ls_long_lines target entries;
    done_ (join nl lines ++ (if (length lines =? 0)%nat then "" else nl)) "" cwd 0
  else
    done_ (join "  " entries ++ nl) "" cwd 0.

Definition _cd (args : list string) (cwd : string) : io result :=
  let new := match args with
             | [] => expanduser_home h
             | a :: _ => _path_resolve a cwd
             end in
  do ex <- exists_ new;
  if negb ex then
    do a0 <- lift (getitem args 0);
    done_ "" ("cd: " ++ a0 ++ ": No such file or directory" ++ nl) cwd 1
  else
  do d <- isdir new;
  if negb d then
    do a0 <- lift (getitem args 0);
    done_ "" ("cd: " ++ a0 ++ ": Not a directory" ++ nl) cwd 1
  else ret (Result "" "" (Some new) 0).

Fixpoint _mkdir_loop (args : list string) (cwd : string) : io result :=
  match args with
  | [] => done_ "" "" cwd 0
  | a :: rest =>
      let p := _path_resolve a cwd in
      do created <- catch (do _ <- (fun w => FS.makedirs w p false); ret true)
                          is_FileExistsError (fun _ => ret false);
      if created then _mkdir_loop rest cwd
      else done_ "" ("mkdir: cannot create directory '" ++ a ++ "': File exists" ++ nl) cwd 1
  end.

Definition _mkdir (args : list string) (cwd : string) : io result :=
  match args with
  | [] => done_ "" ("mkdir: missing operand" ++ nl) cwd 2
  | _ => _mkdir_loop args cwd
  end.

Definition _rm_is_flag (a : string) : bool :=
  String.eqb a "-r" || String.eqb a "-rf" || String.eqb a "-fr".

Fixpoint _rm_loop (recursive : bool) (paths : list string) (cwd : string) : io result :=
  match paths with
  | [] => done_ "" "" cwd 0
  | p :: rest =>
      let rp := _path_resolve p cwd in
      do ex <- exists_ rp;
      if negb ex then
        done_ "" ("rm: cannot remove '" ++ p ++ "': No such file or directory" ++ nl) cwd 1
      else
      do d <- isdir rp;
      if d && negb recursive then
        done_ "" ("rm: cannot remove '" ++ p ++ "': Is a directory" ++ nl) cwd 1
      else
      do d <- isdir rp;
      do _ <- (if d then (fun w => FS.rmtree w rp) else (fun w => FS.remove w rp));
      _rm_loop recursive rest cwd
  end.

Definition _rm (args : list string) (cwd : string) : io result :=
  match args with
  | [] => done_ "" ("rm: missing operand" ++ nl) cwd 2
  | _ =>
      let recursive := existsb _rm_is_flag args in
      let paths := List.filter (fun a => negb (_rm_is_flag a)) args in
      match paths with
      | [] => done_ "" ("rm: missing path" ++ nl) cwd 2
      | _ => _rm_loop recursive paths cwd
      end
  end.

Fixpoint _rmdir_loop (args : list string) (cwd : string) : io result :=
  match args with
  | [] => done_ "" "" cwd 0
  | a :: rest =>
      let path := _path_resolve a cwd in
      do ex <- exists_ path;
      if negb ex then
        done_ "" ("rmdir: failed to remove '" ++ a ++ "': No such file or directory" ++ nl) cwd 1
      else
      do d <- isdir path;
      if negb d then
        done_ "" ("rmdir: failed to remove '" ++ a ++ "': Not a directory" ++ nl) cwd 1
      else
      do removed <- catch (do _ <- (fun w => FS.rmdir w path); ret true)
                          is_OSError (fun _ => ret false);
      if removed then _rmdir_loop rest cwd
      else done_ "" ("rmdir: failed to remove '" ++ a ++ "': Directory not empty" ++ nl) cwd 1
  end.

Definition _rmdir (args : list string) (cwd : string) : io result :=
  match args with
  | [] => done_ "" ("rmdir: missing operand" ++ nl) cwd 2
  | _ => _rmdir_loop args cwd
  end.

(** One redirection branch of [_echo]: the operator and the mode it opens
    the file in. *)
Definition _echo_redirect (op mode : string) (args : list string) (cwd : string)
  : io result :=
  catch
    (do idx <- lift (list_index op args);
     let text := join " " (slice_to args idx) in
     do target <- lift (getitem args (idx + 1));
     let filepath := _path_resolve target cwd in
     do _ <- open_write filepath mode (text ++ nl);
     done_ "" "" cwd 0)
    any_exception
    (fun e => done_ "" ("echo: redirection error: " ++ exn_str e ++ nl) cwd 1).

Definition _echo (args : list string) (cwd : string) : io result :=
  if mem ">" args then _echo_redirect ">" "w" args cwd
  else if mem ">>" args then _echo_redirect ">>" "a" args cwd
  else done_ (join " " args ++ nl) "" cwd 0.

(** The heredoc form of [_cat]: [cat [>>|>] file << DELIM] *)
Definition _cat_heredoc (args : list string) (cwd : string) : io result :=
  catch
    (do heredoc_idx <- lift (list_index "<<" args);
     do rm <- (if mem ">>" args then
                 do i <- lift (list_index ">>" args); ret (i, "a"%string)
               else if mem ">" args then
                 do i <- lift (list_index ">" args); ret (i, "w"%string)
               else ret (-1, "a"%string));
     let '(redirect_idx, mode) := rm in
     if (redirect_idx =? -1) || (heredoc_idx <? redirect_idx) then
       done_ "" ("cat: invalid syntax, use: cat [>>|>] file << EOF" ++ nl) cwd 2
     else
     do target <- lift (getitem args (redirect_idx + 1));
     let filepath := _path_resolve target cwd in
     do delimiter <- (if heredoc_idx + 1 <? Z.of_nat (length args)
                      then lift (getitem args (heredoc_idx + 1))
                      else ret "EOF"%string);
     done_ ("HEREDOC_MODE:" ++ mode ++ ":" ++ filepath ++ ":" ++ delimiter) "" cwd 0)
    any_exception
    (fun e => done_ "" ("cat: heredoc error: " ++ exn_str e ++ nl) cwd 1).

(** The reading loop of [_cat]: the contents read so far, or the early
    return on a missing file or a directory. *)
Fixpoint _cat_read (files_to_read : list string) (cwd : string)
    (content_parts : list string) : io (result + list string) :=
  match files_to_read with
  | [] => ret (inr content_parts)
  | a :: rest =>
      let p := _path_resolve a cwd in
      do ex <- exists_ p;
      if negb ex then
        ret (inl (Result "" ("cat: " ++ a ++ ": No such file or directory" ++ nl) (Some cwd) 1))
      else
      do d <- isdir p;
      if d then
        ret (inl (Result "" ("cat: " ++ a ++ ": Is a directory" ++ nl) (Some cwd) 1))
      else
      do c <- read_text p;
      _cat_read rest cwd (content_parts ++ [c])
  end.

(** The forms [cat >> file] and [cat > file], with or without sources *)
Definition _cat_redirect (op mode label : string) (args : list string)
    (cwd : string) : io result :=
  catch
    (do idx <- lift (list_index op args);
     if idx =? 0 then
       do target <- lift (getitem args (idx + 1));
       let filepath := _path_resolve target cwd in
       done_ ("INPUT_MODE:" ++ mode ++ ":" ++ filepath) "" cwd 0
     else
       let files_to_read := slice_to args idx in
       do target <- lift (getitem args (idx + 1));
       let filepath := _path_resolve target cwd in
       do r <- _cat_read files_to_read cwd [];
       match r with
       | inl early => ret early
       | inr content_parts =>
           do _ <- open_write filepath mode (join nl content_parts);
           done_ "" "" cwd 0
       end)
    any_exception
    (fun e => done_ "" ("cat: " ++ label ++ " error: " ++ exn_str e ++ nl) cwd 1).

Definition _cat (args : list string) (cwd : string) : io result :=
  if mem "<<" args then _cat_heredoc args cwd
  else if mem ">>" args then _cat_redirect ">>" "a" "append" args cwd
  else if mem ">" args then _cat_redirect ">" "w" "write" args cwd
  else
    match args with
    | [] => done_ "" ("cat: missing file operand" ++ nl) cwd 2
    | _ =>
        do r <- _cat_read args cwd [];
        match r with
        | inl early => ret early
        | inr out_lines => done_ (join nl out_lines) "" cwd 0
        end
    end.

Fixpoint _touch_loop (args : list string) (cwd : string) : io result :=
  match args with
  | [] => done_ "" "" cwd 0
  | a :: rest =>
      let p := _path_resolve a cwd in
      let dirp := PosixPath.dirname p in
      do ex <- exists_ dirp;
      do _ <- (if negb (String.eqb dirp "") && negb ex
               then (fun w => FS.makedirs w dirp true) else ret tt);
      do _ <- write_text p FS.ModeA "";
      do _ <- ask_ex (fun w => os_utime h w p);
      _touch_loop rest cwd
  end.

Definition _touch (args : list string) (cwd : string) : io result :=
  match args with
  | [] => done_ "" ("touch: missing file operand" ++ nl) cwd 2
  | _ => _touch_loop args cwd
  end.

Fixpoint _mv_loop (srcs : list string) (dest cwd : string) : io result :=
  match srcs with
  | [] => done_ "" "" cwd 0
  | s :: rest =>
      do ex <- exists_ s;
      if negb ex then
        done_ "" ("mv: cannot stat '" ++ s ++ "': No such file or directory" ++ nl) cwd 1
      else
      do d <- isdir dest;
      do _ <- (if d
               then (fun w => shutil_move h w s (PosixPath.join2 dest (PosixPath.basename s)))
               else (fun w => shutil_move h w s dest));
      _mv_loop rest dest cwd
  end.

Definition _mv (args : list string) (cwd : string) : io result :=
  if (length args <? 2)%nat then done_ "" ("mv: missing file operands" ++ nl) cwd 2
  else
    let srcs := map (fun a => _path_resolve a cwd) (removelast args) in
    let dest := _path_resolve (List.last args "") cwd in
    do d <- isdir dest;
    if (1 <? length srcs)%nat && negb d then
      done_ "" ("mv: target is not a directory" ++ nl) cwd 1
    else
      catch (_mv_loop srcs dest cwd) any_exception
        (fun e => done_ "" ("mv error: " ++ exn_str e ++ nl) cwd 1).

Fixpoint _cp_loop (recursive : bool) (srcs : list string) (dest cwd : string)
  : io result :=
  match srcs with
  | [] => done_ "" "" cwd 0
  | s :: rest =>
      do ex <- exists_ s;
      if negb ex then
        done_ "" ("cp: cannot stat '" ++ s ++ "': No such file or directory" ++ nl) cwd 1
      else
      do sd <- isdir s;
      if sd then
        if negb recursive then
          done_ "" ("cp: -r not specified; omitting directory '" ++ s ++ "'" ++ nl) cwd 1
        else
          let target := dest in
          do _ <- (fun w => shutil_copytree h w s
                              (PosixPath.join2 target (PosixPath.basename s)));
          _cp_loop recursive rest dest cwd
      else
        do d <- isdir dest;
        do _ <- (if d
                 then (fun w => shutil_copy2 h w s
                                  (PosixPath.join2 dest (PosixPath.basename s)))
                 else (fun w => shutil_copy2 h w s dest));
        _cp_loop recursive rest dest cwd
  end.

Definition _cp (args : list string) (cwd : string) : io result :=
  if (length args <? 2)%nat then done_ "" ("cp: missing file operands" ++ nl) cwd 2
  else
    let recursive := existsb (String.eqb "-r") args in
    let files := List.filter (fun a => negb (String.eqb a "-r")) args in
    if (length files <? 2)%nat then
      done_ "" ("cp: missing destination file operand after source" ++ nl) cwd 2
    else
      let srcs := map (fun a => _path_resolve a cwd) (removelast files) in
      let dest := _path_resolve (List.last files "") cwd in
      do d <- isdir dest;
      if (1 <? length srcs)%nat && negb d then
        done_ "" ("cp: target is not a directory" ++ nl) cwd 1
      else
        catch (_cp_loop recursive srcs dest cwd) any_exception
          (fun e => done_ "" ("cp error: " ++ exn_str e ++ nl) cwd 1).

(** The metrics verbs: their working-directory slot is [None]. *)
Definition _cpu : io result :=
  do perc <- lift (cpu_percent h);
  ret (Result ("CPU: " ++ perc ++ "%" ++ nl) "" None 0).

Definition _mem : io result :=
  do m <- lift (virtual_memory h);
  let '(total, used, percent) := m in
  ret (Result ("Memory: " ++ str_of_Z used ++ "/" ++ str_of_Z total
               ++ " bytes (" ++ percent ++ "%)" ++ nl) "" None 0).

Definition type_error (msg : string) : exn := Exn TypeError msg.

(** One line of [_ps]; a field that is [None] makes the formatting raise. *)
Definition _ps_line (info : proc_info) : except string :=
  match pi_pid info with
  | None => Raise (type_error "unsupported format string passed to NoneType.__format__")
  | Some pid =>
      match pi_name info with
      | None => Raise (type_error "'NoneType' object is not subscriptable")
      | Some name =>
          match pi_cpu_percent info, pi_memory_percent info with
          | Some cpu, Some mem_ =>
              Ok (fmt_d 6 pid ++ " " ++ ljust 20 (take 20 name)
                  ++ " CPU%:" ++ cpu ++ " MEM%:" ++ mem_)%string
          | _, _ => Raise (type_error "unsupported format string passed to NoneType.__format__")
          end
      end
  end.

Fixpoint _ps_lines (infos : list proc_info) : except (list string) :=
  match infos with
  | [] => Ok []
  | info :: rest =>
      except_bind (_ps_line info) (fun l =>
      except_map (cons l) (_ps_lines rest))
  end.

Definition _ps (args : list string) : io result :=
  do infos <- lift (process_iter h);
  do procs <- lift (_ps_lines infos);
  let procs_sorted := firstn 200 (sorted procs) in
  ret (Result (join nl procs_sorted ++ nl) "" None 0).

(** The argument loop shared in shape by [_head] and [_tail]: [-n COUNT]
    sets the count, anything else is the file; a bad count returns early. *)
Fixpoint _count_args (verb : string) (args : list string) (cwd : string)
    (lines : Z) (filepath : option string) : result + (Z * option string) :=
  match args with
  | [] => inr (lines, filepath)
  | a :: rest =>
      match rest with
      | count :: rest' =>
          if String.eqb a "-n" then
            match PyInt.parse 10 count with
            | Ok n => _count_args verb rest' cwd n filepath
            | Raise _ =>
                inl (Result "" (verb ++ ": invalid number of lines" ++ nl) (Some cwd) 1)
            end
          else _count_args verb rest cwd lines (Some a)
      | [] => _count_args verb rest cwd lines (Some a)
      end
  end.

(** [l[start:]] with Python's treatment of negative and large bounds *)
Definition slice_from {A} (l : list A) (start : Z) : list A :=
  let n := Z.of_nat (length l) in
  let s := if start <? 0 then Z.max (start + n) 0 else Z.min start n in
  skipn (Z.to_nat s) l.

Definition _head_tail (verb : string) (select : Z -> list string -> list string)
    (args : list string) (cwd : string) : io result :=
  match _count_args verb args cwd 10 None with
  | inl early => ret early
  | inr (lines, filepath) =>
      match filepath with
      | None => done_ "" (verb ++ ": missing file operand" ++ nl) cwd 2
      | Some filepath =>
          if String.eqb filepath "" then
            done_ "" (verb ++ ": missing file operand" ++ nl) cwd 2
          else
          let p := _path_resolve filepath cwd in
          do ex <- exists_ p;
          if negb ex then
            done_ "" (verb ++ ": " ++ filepath ++ ": No such file or directory" ++ nl) cwd 1
          else
          do d <- isdir p;
          if d then
            done_ "" (verb ++ ": " ++ filepath ++ ": Is a directory" ++ nl) cwd 1
          else
          do content <- read_text p;
          done_ (join "" (select lines (lines_keepends content))) "" cwd 0
      end
  end.

(** [[f.readline() for _ in range(lines)]] *)
Definition _head (args : list string) (cwd : string) : io result :=
  _head_tail "head" (fun lines all_lines => firstn (Z.to_nat lines) all_lines) args cwd.

(** [f.readlines()[-lines:]] *)
Definition _tail (args : list string) (cwd : string) : io result :=
  _head_tail "tail" (fun lines all_lines => slice_from all_lines (- lines)) args cwd.

(** [len(content.split())]: the number of maximal runs of non-space *)
Fixpoint count_words (s : string) (in_word : bool) : nat :=
  match s with
  | EmptyString => 0
  | String c s' =>
      if isspace c then count_words s' false
      else ((if in_word then 0 else 1) + count_words s' true)%nat
  end.

Fixpoint _wc_loop (args : list string) (cwd : string) (results : list string)
  : io result :=
  match args with
  | [] => done_ (join nl results ++ nl) "" cwd 0
  | filepath :: rest =>
      let p := _path_resolve filepath cwd in
      do ex <- exists_ p;
      if negb ex then
        done_ "" ("wc: " ++ filepath ++ ": No such file or directory" ++ nl) cwd 1
      else
      do d <- isdir p;
      if d then done_ "" ("wc: " ++ filepath ++ ": Is a directory" ++ nl) cwd 1
      else
      do content <- read_text p;
      let lines := Z.of_nat (FS.count_char "010" content) in
      let words := Z.of_nat (count_words content false) in
      let chars := Z.of_nat (String.length content) in
      _wc_loop rest cwd
        (results ++ [fmt_d 7 lines ++ " " ++ fmt_d 7 words ++ " "
                     ++ fmt_d 7 chars ++ " " ++ filepath]%string)
  end.

Definition _wc (args : list string) (cwd : string) : io result :=
  match args with
  | [] => done_ "" ("wc: missing file operand" ++ nl) cwd 2
  | _ => _wc_loop args cwd []
  end.

(** The matching loop of [_grep] over [enumerate(f, 1)] *)
Fixpoint _grep_matches (pattern : string) (line_num : nat) (lines : list string)
  : list string :=
  match lines with
  | [] => []
  | line :: rest =>
      if contains pattern line
      then (str_of_nat line_num ++ ":" ++ rstrip line)%string
             :: _grep_matches pattern (S line_num) rest
      else _grep_matches pattern (S line_num) rest
  end.

Definition _grep (args : list string) (cwd : string) : io result :=
  match args with
  | pattern :: filepath :: _ =>
      let p := _path_resolve filepath cwd in
      do ex <- exists_ p;
      if negb ex then
        done_ "" ("grep: " ++ filepath ++ ": No such file or directory" ++ nl) cwd 1
      else
      do d <- isdir p;
      if d then done_ "" ("grep: " ++ filepath ++ ": Is a directory" ++ nl) cwd 1
      else
      do content <- read_text p;
      let matches := _grep_matches pattern 1 (lines_keepends content) in
      match matches with
      | [] => done_ "" "" cwd 1
      | _ => done_ (join nl matches ++ nl) "" cwd 0
      end
  | _ => done_ "" ("grep: missing pattern or file" ++ nl) cwd 2
  end.

(** The argument loop of [_find]: start path and name pattern *)
Fixpoint _find_args (args : list string) (cwd : string) (start_path : string)
    (name_pattern : option string) : string * option string :=
  match args with
  | [] => (start_path, name_pattern)
  | a :: rest =>
      match rest with
      | pat :: rest' =>
          if String.eqb a "-name" then _find_args rest' cwd start_path (Some pat)
          else if negb (startswith "-" a)
          then _find_args rest cwd (_path_resolve a cwd) name_pattern
          else _find_args rest cwd start_path name_pattern
      | [] =>
          if negb (startswith "-" a)
          then _find_args rest cwd (_path_resolve a cwd) name_pattern
          else _find_args rest cwd start_path name_pattern
      end
  end.

Definition _find (args : list string) (cwd : string) : io result :=
  let '(start_path, name_pattern) := _find_args args cwd cwd None in
  do ex <- exists_ start_path;
  if negb ex then
    done_ "" ("find: '" ++ start_path ++ "': No such file or directory" ++ nl) cwd 1
  else
  do walk <- ask (fun w => os_walk h w start_path);
  let results :=
    flat_map (fun '(root, dirs, files) =>
      map (PosixPath.join2 root)
          (List.filter (fun name => match name_pattern with
                                    | None => true
                                    | Some pat => contains pat name
                                    end) (files ++ dirs)%list)) walk in
  done_ (join nl results ++ (if (length results =? 0)%nat then "" else nl)) "" cwd 0.

(** [build_tree] of [_tree].  The recursion descends one level of the
    store per call; [depth] bounds it and is the number of entries of the
    store where [_tree] calls it.  The branch marks are the UTF-8 text of
    the box-drawing characters of the source. *)
Fixpoint build_tree (depth : nat) (path prefix : string) : io (list string) :=
  match depth with
  | O => ret []
  | S depth' =>
      do listed <- catch (do l <- ask_ex (fun w => FS.listdir w path); ret (Some l))
                         is_PermissionError (fun _ => ret None);
      match listed with
      | None => ret [prefix ++ "[Permission Denied]"]%string
      | Some l =>
          (fix entries_loop (entries : list string) : io (list string) :=
             match entries with
             | [] => ret []
             | entry :: rest =>
                 let full_path := PosixPath.join2 path entry in
                 let is_last := (length rest =? 0)%nat in
                 let current_prefix := if is_last then "└── " else "├── " in
                 do d <- isdir full_path;
                 do lk <- ask (fun w => islink h w full_path);
                 do sub <- (if d && negb lk
                            then build_tree depth' full_path
                                   (prefix ++ (if is_last then "    " else "│   "))
                            else ret []);
                 do more <- entries_loop rest;
                 ret ((prefix ++ current_prefix ++ entry)%string :: sub ++ more)%list
             end) (sorted l)
      end
  end.

Definition _tree (args : list string) (cwd : string) : io result :=
  let start_path := match args with
                    | [] => cwd
                    | a :: _ => _path_resolve a cwd
                    end in
  do ex <- exists_ start_path;
  if negb ex then
    do a0 <- lift (getitem args 0);
    done_ "" ("tree: " ++ a0 ++ ": No such file or directory" ++ nl) cwd 1
  else
  do n <- ask (fun w => size (files w));
  do lines <- build_tree (S n) start_path "";
  done_ (join nl (start_path :: lines) ++ nl) "" cwd 0.

(** The summing loop of [_du]: a size that cannot be read is skipped. *)
Definition _du_total (w : world) (walk : list (string * list string * list string)) : Z :=
  fold_left (fun total '(root, dirs, files) =>
    fold_left (fun total f =>
      match getsize h w (PosixPath.join2 root f) with
      | Ok sz => total + sz
      | Raise _ => total
      end) files total) walk 0.

Definition _du (args : list string) (cwd : string) : io result :=
  let target := match args with
                | [] => cwd
                | a :: _ => _path_resolve a cwd
                end in
  do ex <- exists_ target;
  if negb ex then
    do a0 <- lift (getitem args 0);
    done_ "" ("du: " ++ a0 ++ ": No such file or directory" ++ nl) cwd 1
  else
  do f <- isfile target;
  if f then
    do sz <- ask_ex (fun w => getsize h w target);
    done_ (str_of_Z sz ++ tab ++ target ++ nl) "" cwd 0
  else
    do total <- ask (fun w => _du_total w (os_walk h w target));
    done_ (str_of_Z total ++ tab ++ target ++ nl) "" cwd 0.

Definition _df (args : list string) (cwd : string) : io result :=
  do disk <- lift (disk_usage h);
  let '(total, used, free, percent) := disk in
  let output := ("Filesystem     Size      Used     Avail    Use%" ++ nl)%string in
  let output := (output ++ "root      " ++ fmt_d 10 total ++ " " ++ fmt_d 10 used
                 ++ " " ++ fmt_d 10 free ++ "  " ++ percent ++ "%" ++ nl)%string in
  done_ output "" cwd 0.

Definition _stat (args : list string) (cwd : string) : io result :=
  match args with
  | [] => done_ "" ("stat: missing file operand" ++ nl) cwd 2
  | filepath :: _ =>
      let p := _path_resolve filepath cwd in
      do ex <- exists_ p;
      if negb ex then
        done_ "" ("stat: " ++ filepath ++ ": No such file or directory" ++ nl) cwd 1
      else
      do stat_info <- ask_ex (fun w => os_stat h w p);
      let fmt := "%Y-%m-%d %H:%M:%S"%string in
      let output := ("  File: " ++ filepath ++ nl)%string in
      let output := (output ++ "  Size: " ++ str_of_Z (st_size stat_info) ++ nl)%string in
      let output := (output ++ "  Mode: " ++ PyInt.oct (st_mode stat_info) ++ nl)%string in
      let output := (output ++ "Access: " ++ strftime h (st_atime stat_info) fmt ++ nl)%string in
      let output := (output ++ "Modify: " ++ strftime h (st_mtime stat_info) fmt ++ nl)%string in
      let output := (output ++ "Change: " ++ strftime h (st_ctime stat_info) fmt ++ nl)%string in
      done_ output "" cwd 0
  end.

Definition _chmod (args : list string) (cwd : string) : io result :=
  match args with
  | mode_str :: filepath :: _ =>
      match PyInt.parse 8 mode_str with
      | Raise _ => done_ "" ("chmod: invalid mode: '" ++ mode_str ++ "'" ++ nl) cwd 1
      | Ok mode =>
          let p := _path_resolve filepath cwd in
          do ex <- exists_ p;
          if negb ex then
            done_ "" ("chmod: " ++ filepath ++ ": No such file or directory" ++ nl) cwd 1
          else
            catch (do _ <- ask_ex (fun w => os_chmod h w p mode); done_ "" "" cwd 0)
              any_exception
              (fun e => done_ "" ("chmod: error: " ++ exn_str e ++ nl) cwd 1)
      end
  | _ => done_ "" ("chmod: missing operands" ++ nl) cwd 2
  end.

Definition _date (args : list string) (cwd : string) : io result :=
  done_ (now_strftime h ("%a %b %d %H:%M:%S %Y" ++ nl)) "" cwd 0.

Definition _uptime : io result :=
  do uptime <- lift (uptime_delta h);
  let '(days, seconds) := uptime in
  let hours := seconds / 3600 in
  let remainder := seconds mod 3600 in
  let minutes := remainder / 60 in
  ret (Result ("up " ++ str_of_Z days ++ " days, " ++ str_of_Z hours ++ ":"
               ++ fmt_02d minutes ++ nl) "" None 0).

Definition _whoami (cwd : string) : io result :=
  do u <- lift (getuser h); done_ (u ++ nl) "" cwd 0.

Definition _hostname (cwd : string) : io result :=
  do n <- lift (gethostname h); done_ (n ++ nl) "" cwd 0.

(** The loop shared in shape by [_md5sum] and [_sha256sum] *)
Fixpoint _sum_loop (verb : string) (digest : world -> string -> except string)
    (args : list string) (cwd : string) (results : list string) : io result :=
  match args with
  | [] => done_ (join nl results ++ nl) "" cwd 0
  | filepath :: rest =>
      let p := _path_resolve filepath cwd in
      do ex <- exists_ p;
      if negb ex then
        done_ "" (verb ++ ": " ++ filepath ++ ": No such file or directory" ++ nl) cwd 1
      else
      do d <- isdir p;
      if d then done_ "" (verb ++ ": " ++ filepath ++ ": Is a directory" ++ nl) cwd 1
      else
      do hex <- ask_ex (fun w => digest w p);
      _sum_loop verb digest rest cwd (results ++ [hex ++ "  " ++ filepath]%string)
  end.

Definition _md5sum (args : list string) (cwd : string) : io result :=
  match args with
  | [] => done_ "" ("md5sum: missing file operand" ++ nl) cwd 2
  | _ => _sum_loop "md5sum" (md5_file h) args cwd []
  end.

Definition _sha256sum (args : list string) (cwd : string) : io result :=
  match args with
  | [] => done_ "" ("sha256sum: missing file operand" ++ nl) cwd 2
  | _ => _sum_loop "sha256sum" (sha256_file h) args cwd []
  end.

Definition _clear (cwd : string) : io result :=
  done_ (repeat_str nl 50) "" cwd 0.

Definition supported_commands : list string :=
  ["pwd"; "ls"; "cd"; "mkdir"; "rm"; "rmdir"; "cat"; "touch";
   "mv"; "cp"; "echo"; "cpu"; "mem"; "ps"; "head"; "tail";
   "wc"; "grep"; "find"; "tree"; "du"; "df"; "stat"; "chmod";
   "date"; "uptime"; "whoami"; "hostname"; "md5sum"; "sha256sum";
   "clear"; "which"; "help"]%string.

Definition _which (args : list string) (cwd : string) : io result :=
  match args with
  | [] => done_ "" ("which: missing command" ++ nl) cwd 2
  | cmd :: _ =>
      if mem cmd supported_commands
      then done_ ("/usr/bin/" ++ cmd ++ nl) "" cwd 0
      else done_ "" ("which: no " ++ cmd ++ " in built-in commands" ++ nl) cwd 1
  end.

(** [_help_text]: the lines of the usage text, each ended by a newline *)
Definition _help_lines : list string :=
  [
     "Supported commands:";
     "File Operations:";
     "  pwd                          - Print working directory";
     "  ls [-l] [-a] [path]          - List directory contents";
     "  cd <path>                    - Change directory";
     "  mkdir <name>                 - Create directory";
     "  rmdir <name>                 - Remove empty directory";
     "  rm [-r] <path>               - Remove file or directory";
     "  cat <file>                   - Display file contents";
     "  touch <file>                 - Create empty file or update timestamp";
     "  mv <src> <dest>              - Move/rename files";
     "  cp [-r] <src> <dest>         - Copy files or directories";
     "  head [-n num] <file>         - Display first lines of file (default 10)";
     "  tail [-n num] <file>         - Display last lines of file (default 10)";
     "  wc <file>                    - Count lines, words, characters";
     "  grep <pattern> <file>        - Search for pattern in file";
     "  find [path] [-name pattern]  - Find files matching pattern";
     "";
     "File Information:";
     "  stat <file>                  - Display file status and metadata";
     "  chmod <mode> <file>          - Change file permissions (octal)";
     "  du [path]                    - Display disk usage";
     "  df                           - Display filesystem disk space";
     "  tree [path]                  - Display directory tree structure";
     "  md5sum <file>                - Calculate MD5 checksum";
     "  sha256sum <file>             - Calculate SHA256 checksum";
     "";
     "Text Output:";
     "  echo [text]                  - Print text to stdout";
     "  echo [text] > file           - Write text to file (overwrite)";
     "  echo [text] >> file          - Append text to file";
     "  cat <file>                   - Display file contents";
     "  cat > file                   - Write input to file (empty line to end)";
     "  cat >> file                  - Append input to file (empty line to end)";
     "  cat >> file << EOF           - Heredoc: write until EOF is entered";
     "";
     "System Information:";
     "  cpu                          - Display CPU usage";
     "  mem                          - Display memory usage";
     "  ps                           - List running processes";
     "  date                         - Display current date and time";
     "  uptime                       - Display system uptime";
     "  whoami                       - Display current user";
     "  hostname                     - Display system hostname";
     "";
     "Utilities:";
     "  clear                        - Clear screen";
     "  which <cmd>                  - Show command location";
     "  help                         - Display this help message"
  ]%string.

Definition _help_text : string :=
  String.concat "" (map (fun l => (l ++ nl)%string) _help_lines).

(** ** The interpreter state and [run] *)

(** The heredoc session: [{'mode', 'filepath', 'delimiter', 'lines'}] *)
Record heredoc_state := HeredocState {
  hd_mode : string;
  hd_filepath : string;
  hd_delimiter : string;
  hd_lines : list string
}.

(** The raw-input session: [{'mode', 'filepath', 'lines'}] *)
Record input_state := InputState {
  in_mode : string;
  in_filepath : string;
  in_lines : list string
}.

(** The two attributes of a [CommandExecutor] *)
Record executor := Executor {
  heredoc_mode : option heredoc_state;
  input_mode : option input_state
}.

(** [CommandExecutor.__init__] *)
Definition init : executor := Executor None None.

(** What [run] does with the result of [_cat]: a marker in the output slot
    opens a session. *)
Definition _cat_special (self : executor) (result0 : result) (cwd : string)
  : except (result * executor) :=
  if startswith "HEREDOC_MODE:" (stdout result0) then
    let parts := split_max ":" (stdout result0) 3 in
    except_bind (getitem parts 1) (fun mode =>
    except_bind (getitem parts 2) (fun filepath =>
    except_bind (getitem parts 3) (fun delimiter =>
    Ok (Result "> " "" (Some cwd) 0,
        Executor (Some (HeredocState mode filepath delimiter [])) (input_mode self)))))
  else if startswith "INPUT_MODE:" (stdout result0) then
    let parts := split_max ":" (stdout result0) 2 in
    except_bind (getitem parts 1) (fun mode =>
    except_bind (getitem parts 2) (fun filepath =>
    Ok (Result "> " "" (Some cwd) 0,
        Executor (heredoc_mode self) (Some (InputState mode filepath [])))))
  else Ok (result0, self).

(** A handler that leaves the interpreter state alone *)
Definition keep (self : executor) (m : io result) : io (result * executor) :=
  do r <- m; ret (r, self).

(** The body of the [try] of [run]: the chain of tests on the verb *)
Definition dispatch (self : executor) (cmd : string) (args : list string)
    (cwd : string) : io (result * executor) :=
  if String.eqb cmd "pwd" then keep self (done_ (cwd ++ nl) "" cwd 0)
  else if String.eqb cmd "ls" then keep self (_ls args cwd)
  else if String.eqb cmd "cd" then keep self (_cd args cwd)
  else if String.eqb cmd "mkdir" then keep self (_mkdir args cwd)
  else if String.eqb cmd "rm" then keep self (_rm args cwd)
  else if String.eqb cmd "rmdir" then keep self (_rmdir args cwd)
  else if String.eqb cmd "cat" then
    do result0 <- _cat args cwd; lift (_cat_special self result0 cwd)
  else if String.eqb cmd "touch" then keep self (_touch args cwd)
  else if String.eqb cmd "mv" then keep self (_mv args cwd)
  else if String.eqb cmd "cp" then keep self (_cp args cwd)
  else if String.eqb cmd "echo" then keep self (_echo args cwd)
  else if String.eqb cmd "cpu" then keep self _cpu
  else if String.eqb cmd "mem" then keep self _mem
  else if String.eqb cmd "ps" then keep self (_ps args)
  else if String.eqb cmd "head" then keep self (_head args cwd)
  else if String.eqb cmd "tail" then keep self (_tail args cwd)
  else if String.eqb cmd "wc" then keep self (_wc args cwd)
  else if String.eqb cmd "grep" then keep self (_grep args cwd)
  else if String.eqb cmd "find" then keep self (_find args cwd)
  else if String.eqb cmd "tree" then keep self (_tree args cwd)
  else if String.eqb cmd "du" then keep self (_du args cwd)
  else if String.eqb cmd "df" then keep self (_df args cwd)
  else if String.eqb cmd "stat" then keep self (_stat args cwd)
  else if String.eqb cmd "chmod" then keep self (_chmod args cwd)
  else if String.eqb cmd "date" then keep self (_date args cwd)
  else if String.eqb cmd "uptime" then keep self _uptime
  else if String.eqb cmd "whoami" then keep self (_whoami cwd)
  else if String.eqb cmd "hostname" then keep self (_hostname cwd)
  else if String.eqb cmd "md5sum" then keep self (_md5sum args cwd)
  else if String.eqb cmd "sha256sum" then keep self (_sha256sum args cwd)
  else if String.eqb cmd "clear" then keep self (_clear cwd)
  else if String.eqb cmd "which" then keep self (_which args cwd)
  else if mem cmd ["help"; "--help"; "-h"]%string
  then keep self (done_ _help_text "" cwd 0)
  else keep self (done_ "" ("Command not found: " ++ cmd ++ nl) cwd 127).

End Handlers.

(** The flush of a session: the buffered lines joined by newlines, one more
    newline appended, written to the target in the session's mode. *)
Definition flush (filepath mode : string) (lines : list string) : io unit :=
  open_write filepath mode (PyStr.join Fmt.nl lines ++ Fmt.nl).

(** [CommandExecutor.run], the tokenizer and the dispatcher left open.  The
    outcome is the tuple returned, or the exception that escapes [run]; with
    it come the interpreter state and the world afterwards. *)
Definition run_with
    (tokenize : string -> except (list string))
    (dispatcher : executor -> string -> list string -> string -> io (result * executor))
    (self : executor) (raw_cmd : string) (cwd : option string) (w : world)
  : except result * executor * world :=
  let '(made, w) := match cwd with
                    | None => FS.makedirs w "/tmp" true
                    | Some _ => (Ok tt, w)
                    end in
  match made with
  | Raise e => (Raise e, self, w)
  | Ok _ =>
  let cwd := match cwd with None => "/tmp" | Some c => c end in
  let raw_cmd := PyStr.strip raw_cmd in
  match heredoc_mode self with
  | Some hd =>
      if String.eqb raw_cmd (hd_delimiter hd) then
        match flush (hd_filepath hd) (hd_mode hd) (hd_lines hd) w with
        | (Ok _, w') =>
            (Ok (Result "" "" (Some cwd) 0), Executor None (input_mode self), w')
        | (Raise e, w') =>
            (Ok (Result "" ("cat: write error: " ++ exn_str e ++ Fmt.nl) (Some cwd) 1),
             Executor None (input_mode self), w')
        end
      else
        (Ok (Result "> " "" (Some cwd) 0),
         Executor (Some (HeredocState (hd_mode hd) (hd_filepath hd) (hd_delimiter hd)
                                      (hd_lines hd ++ [raw_cmd])))
                  (input_mode self), w)
  | None =>
  match input_mode self with
  | Some ins =>
      if String.eqb raw_cmd "" then
        match flush (in_filepath ins) (in_mode ins) (in_lines ins) w with
        | (Ok _, w') =>
            (Ok (Result "" "" (Some cwd) 0), Executor (heredoc_mode self) None, w')
        | (Raise e, w') =>
            (Ok (Result "" ("cat: write error: " ++ exn_str e ++ Fmt.nl) (Some cwd) 1),
             Executor (heredoc_mode self) None, w')
        end
      else
        (Ok (Result "> " "" (Some cwd) 0),
         Executor (heredoc_mode self)
                  (Some (InputState (in_mode ins) (in_filepath ins)
                                    (in_lines ins ++ [raw_cmd]))), w)
  | None =>
      if String.eqb raw_cmd "" then (Ok (Result "" "" (Some cwd) 0), self, w)
      else
        match tokenize raw_cmd with
        | Raise e =>
            if is_ValueError e
            then (Ok (Result "" ("parse error: " ++ exn_str e) (Some cwd) 2), self, w)
            else (Raise e, self, w)
        | Ok parts =>
            match parts with
            | [] => (Raise (Exn IndexError "list index out of range"), self, w)
            | cmd :: args =>
                match dispatcher self cmd args cwd w with
                | (Ok (r, self'), w') => (Ok r, self', w')
                | (Raise e, w') =>
                    (Ok (Result "" ("Error: " ++ exn_str e ++ Fmt.nl) (Some cwd) 1),
                     self, w')
                end
            end
        end
  end
  end
  end.

(** [CommandExecutor.run] *)
Definition run (h : host) : executor -> string -> option string -> world
                          -> except result * executor * world :=
  run_with Shlex.split (dispatch h).

(** ** Predicates used in the statements *)

(** A string without a slash *)
Fixpoint no_slash (s : string) : Prop :=
  match s with
  | EmptyString => True
  | String c s' => c <> "/"%char /\ no_slash s'
  end.

(** A component that [normpath] keeps in an absolute path *)
Definition clean (c : string) : Prop :=
  c <> "" /\ c <> "." /\ c <> ".." /\ no_slash c.

(** The shape of a normalised absolute path: one or two slashes, then clean
    components joined by slashes. *)
Definition abs_shape (init : nat) (comps : list string) : string :=
  PosixPath.slashes init ++ PyStr.join "/" comps.

(** The session a line is routed to, if any: target, mode, buffered lines
    and terminator (the empty line for raw input).  [run] tests the heredoc
    slot first. *)
Definition active_session (self : executor)
  : option (string * string * list string * string) :=
  match heredoc_mode self with
  | Some hd => Some (hd_filepath hd, hd_mode hd, hd_lines hd, hd_delimiter hd)
  | None =>
      match input_mode self with
      | Some ins => Some (in_filepath ins, in_mode ins, in_lines ins, "")
      | None => None
      end
  end.

(** The state left when the session a line was routed to is dropped. *)
Definition clear_active (self : executor) : executor :=
  match heredoc_mode self with
  | Some _ => Executor None (input_mode self)
  | None => Executor None None
  end.

(** At most one of the two session slots is filled. *)
Definition at_most_one_session (self : executor) : Prop :=
  heredoc_mode self = None \/ input_mode self = None.


(** The text of a regular file, [None] for a directory or a missing entry *)
Definition file_content (w : world) (path : string) : option string :=
  match FS.lookup w path with
  | Some (File c) => Some c
  | _ => None
  end.

(** The content a file has before a write: empty when it does not exist *)
Definition prior_content (w : world) (path : string) : string :=
  match file_content w path with
  | Some c => c
  | None => ""
  end.

(** A path that can be opened for writing: a regular file, or a free name
    in an existing directory. *)
Definition writable (w : world) (path : string) : bool :=
  negb (String.eqb path "") &&
  match FS.lookup_key w (FS.key w path) with
  | Some (File _) => true
  | Some Dir => false
  | None =>
      match FS.lookup_key w (FS.parent (FS.key w path)) with
      | Some Dir => true
      | _ => false
      end
  end.

(** [p] occurs in [s] as a literal substring. *)
Definition occurs_in (p s : string) : Prop :=
  exists before after, s = before ++ p ++ after.

(** The lines of a text with their numbers, from 1 *)
Definition numbered (lines : list string) : list (nat * string) :=
  combine (seq 1 (length lines)) lines.

(** What [grep] is to print for a text, in the words of its description:
    for each line in which the pattern occurs, the line number, a colon and
    the line without its trailing whitespace, line terminator included. *)
Definition grep_hits (pattern text : string) : list (nat * string) :=
  List.filter (fun nl => PyStr.contains pattern nl.2) (numbered (Fmt.lines_keepends text)).

Definition grep_stdout (pattern text : string) : string :=
  String.concat ""
    (map (fun nl => PyStr.str_of_nat nl.1 ++ ":" ++ PyStr.rstrip nl.2 ++ Fmt.nl)
         (grep_hits pattern text)).

Definition grep_exit (pattern text : string) : Z :=
  match grep_hits pattern text with
  | [] => 1
  | _ => 0
  end.

(** What holds of every value a computation returns *)
Definition post {A} (m : io A) (Q : A -> Prop) : Prop :=
  forall w a w', m w = (Ok a, w') -> Q a.

(** The working-directory slot of a result is the directory passed in, or
    the "unchanged" value. *)
Definition slot_kept (cwd : string) (r : result) : Prop :=
  new_cwd r = Some cwd \/ new_cwd r = None.

(** The directory [_cd] moves to *)
Definition cd_target (h : host) (args : list string) (cwd : string) : string :=
  match args with
  | [] => expanduser_home h
  | a :: _ => _path_resolve a cwd
  end.

(** A string without a colon *)
Definition no_colon (s : string) : bool := (FS.count_char ":" s =? 0)%nat.

(** Feed lines to an interpreter one after the other, from one working
    directory; the outcomes in order, then the final state and world. *)
Fixpoint run_lines (h : host) (self : executor) (cwd : string) (w : world)
    (lines : list string) : list (except result) * executor * world :=
  match lines with
  | [] => ([], self, w)
  | l :: rest =>
      let '(r, self', w') := run h self l (Some cwd) w in
      let '(rs, self'', w'') := run_lines h self' cwd w' rest in
      (r :: rs, self'', w'')
  end.

(** ** A small machine for the examples *)
Module Demo.

Definition unsupported (what : string) : exn :=
  Exn OSError (what ++ " is not available").

(** A host with fixed readings and without the tree operations of [shutil]. *)
Definition demo_host : host := {|
  expanduser_home := "/home/user";
  cpu_percent := Ok "12.5";
  virtual_memory := Ok (8000, 2000, "25.0")%Z;
  process_iter := Ok [ProcInfo (Some 1%Z) (Some "init") (Some "  0.0") (Some "  0.1")];
  disk_usage := Ok (1000, 400, 600, " 40")%Z;
  uptime_delta := Ok (1, 3725)%Z;
  now_strftime := fun _ => "Tue Nov 03 10:00:00 2026";
  strftime := fun _ _ => "2026-11-03 10:00";
  getuser := Ok "user";
  gethostname := Ok "box";
  getsize := fun w p => match FS.lookup w p with
                        | Some (File c) => Ok (Z.of_nat (String.length c))
                        | Some Dir => Ok 4096%Z
                        | None => Raise (FS.missing w p)
                        end;
  getmtime := fun _ _ => Ok 0%Z;
  os_stat := fun _ _ => Raise (unsupported "stat");
  os_chmod := fun _ _ _ => Ok tt;
  os_utime := fun _ _ => Ok tt;
  islink := fun _ _ => false;
  os_walk := fun _ _ => [];
  shutil_move := fun w _ _ => (Raise (unsupported "move"), w);
  shutil_copytree := fun w _ _ => (Raise (unsupported "copytree"), w);
  shutil_copy2 := fun w _ _ => (Raise (unsupported "copy2"), w);
  md5_file := fun _ _ => Raise (unsupported "md5");
  sha256_file := fun _ _ => Raise (unsupported "sha256")
|}.

(** A store with [/tmp], a few files in it, a project directory and a
    directory [/tmp/a:b] whose name has a colon. *)
Definition demo_world : world :=
  World (list_to_map
           [(["tmp"], Dir);
            (["tmp"; "log.txt"], File ("old" ++ Fmt.nl));
            (["tmp"; "a:b"], Dir);
            (["tmp"; "words.txt"],
             File ("foo" ++ Fmt.nl ++ "bar" ++ Fmt.nl ++ "foobar" ++ Fmt.nl));
            (["tmp"; "proj"], Dir);
            (["tmp"; "proj"; "main.py"], File ("print(1)" ++ Fmt.nl));
            (["tmp"; "proj"; "sub"], Dir);
            (["tmp"; "proj"; "sub"; "x"], File "")])
        [].

End Demo.

(** ** The two front ends *)

(** How [main] of [cli.py] ends: the input runs out, an exception reaches
    the handler that prints [Fatal error:], or one is raised before the
    [try], where nothing handles it. *)
Inductive cli_end :=
  | EndOfInput
  | FatalError (e : exn)
  | Uncaught (e : exn).

(** The loop of [main] in [cli.py], the lines the user types given in
    advance: what is printed (the prompts included), the working directory
    the loop holds at the end, how it ended, and the interpreter state and
    the world then. *)
Fixpoint cli_loop (h : host) (execr : executor) (cwd : string) (w : world)
    (inputs : list string) (printed : string)
  : string * string * cli_end * executor * world :=
  match inputs with
  | [] => (printed ++ cwd ++ " $ " ++ Fmt.nl, cwd, EndOfInput, execr, w)
  | inp :: rest =>
      let printed := printed ++ cwd ++ " $ " in
      match run h execr inp (Some cwd) w with
      | (Raise e, execr', w') =>
          (printed ++ "Fatal error: " ++ exn_str e ++ Fmt.nl, cwd, FatalError e, execr', w')
      | (Ok r, execr', w') =>
          let cwd' := match new_cwd r with
                      | Some c => if String.eqb c "" then cwd else c
                      | None => cwd
                      end in
          cli_loop h execr' cwd' w' rest (printed ++ stdout r ++ stderr r)
      end
  end.

(** [main] of [cli.py] *)
Definition cli_main (h : host) (w : world) (inputs : list string)
  : string * string * cli_end * executor * world :=
  match FS.makedirs w "/tmp" true with
  | (Raise e, w') => ("", "/tmp", Uncaught e, init, w')
  | (Ok _, w') =>
      cli_loop h init "/tmp" w' inputs
        ("Python Terminal - type 'help' for commands. Ctrl-C to quit." ++ Fmt.nl)
  end.

(** A line whose first token is [cd] *)
Definition is_cd_line (inp : string) : bool :=
  match Shlex.split (PyStr.strip inp) with
  | Ok (cmd :: _) => String.eqb cmd "cd"
  | _ => false
  end.

(** A field of the JSON body of a request: absent, [null], or a string *)
Inductive json_field :=
  | Absent
  | Null
  | Str (s : string).

(** The JSON answer of [/api/exec] *)
Record response := Response {
  resp_stdout : string;
  resp_stderr : string;
  resp_cwd : option string;
  resp_code : Z
}.

(** [os.getcwd()] *)
Definition os_getcwd (w : world) : string :=
  "/" ++ PyStr.join "/" (getcwd w).

(** What a client of [/api/exec] gets: the JSON answer, or the error page of
    the framework when an exception leaves [api_exec]. *)
Inductive api_outcome :=
  | Answered (r : response)
  | InternalError.

(** [api_exec] of [webapp.py], on the one interpreter the module holds.  An
    absent [cmd] is the empty line, an absent [cwd] the working directory of
    the process; a [null] is passed on as [None]: for [cwd] that is the
    default of [run], for [cmd] it has no [strip] and the call fails, after
    the default directory was made. *)
Definition api_exec (h : host) (self : executor) (cmd cwd : json_field)
    (w : world) : api_outcome * executor * world :=
  let cwd_v := match cwd with
               | Absent => Some (os_getcwd w)
               | Null => None
               | Str s => Some s
               end in
  match cmd with
  | Null =>
      match cwd_v with
      | None => (InternalError, self, snd (FS.makedirs w "/tmp" true))
      | Some _ => (InternalError, self, w)
      end
  | _ =>
      let cmd_v := match cmd with Str s => s | _ => "" end in
      match run h self cmd_v cwd_v w with
      | (Raise _, self', w') => (InternalError, self', w')
      | (Ok r, self', w') =>
          let new := match new_cwd r with
                     | None => cwd_v
                     | Some c => Some c
                     end in
          (Answered (Response (stdout r) (stderr r) new (exit_code r)), self', w')
      end
  end.

(** ** Predicates of the further properties *)

(** A token is under way: the lexer of [shlex] is past the blanks before
    it, in a word, in quotes, or after a backslash. *)
Definition pending (st es : ascii) (tok : string) (q : bool) : Prop :=
  ((st = " "%char \/ st = "a"%char) /\ (tok <> "" \/ q = true))
  \/ Shlex.quotes st = true
  \/ (st = "\"%char /\ (es = "a"%char \/ Shlex.quotes es = true)).

(** The two shapes of what a handler returns: success with nothing on
    stderr, or a failure, exit code 1 or 2, with nothing on stdout. *)
Definition handler_shape (r : result) : Prop :=
  (exit_code r = 0%Z /\ stderr r = "")
  \/ ((exit_code r = 1%Z \/ exit_code r = 2%Z) /\ stdout r = "").

(** The shapes of what [run] returns: those, and the unknown verb. *)
Definition result_shape (r : result) : Prop :=
  handler_shape r \/ (exit_code r = 127%Z /\ stdout r = "").

(** The verbs [run] knows: those [which] lists, and the two spellings of
    [help] it does not. *)
Definition known_verb (cmd : string) : bool :=
  PyStr.mem cmd supported_commands || PyStr.mem cmd ["--help"; "-h"].

(** Arguments without any of the three redirection tokens of [_cat] *)
Definition redirect_free (args : list string) : bool :=
  negb (PyStr.mem "<<" args) && negb (PyStr.mem ">>" args) && negb (PyStr.mem ">" args).

(** The texts of the regular files that arguments name, as read in text
    mode *)
Definition texts_of (w : world) (cwd : string) (args texts : list string) : Prop :=
  Forall2 (fun a t => exists c, file_content w (_path_resolve a cwd) = Some c
                                /\ t = FS.universal_newlines c) args texts.

(** The store of the examples with one more file, [/tmp/trap.txt], whose
    text is a marker of [_cat]. *)
Definition trap_world : world :=
  FS.set_file Demo.demo_world ["tmp"; "trap.txt"] "INPUT_MODE:w:/tmp/words.txt".

(** A directory entry with something below it *)
Definition has_entry_below (w : world) (k : list string) : Prop :=
  exists k' n, files w !! k' = Some n /\ k `prefix_of` k' /\ k' <> k.

(** The verbs that refuse an empty argument list *)
Definition needs_operand : list string :=
  ["mkdir"; "rm"; "rmdir"; "cat"; "touch"; "mv"; "cp"; "head"; "tail"; "wc";
   "grep"; "stat"; "chmod"; "md5sum"; "sha256sum"; "which"].
(** * Properties *)

#[local] Arguments Ascii.eqb : simpl never.

(** Unfold the steps of a computation on the world. *)
Ltac io_unfold :=
  unfold keep, done_, bind, ret, lift, ask, ask_ex, catch, raise in *.

(** ** Sanity examples of the path resolver *)

Example _path_resolve_rel : _path_resolve "a/../b/./c" "/tmp" = "/tmp/b/c".
Proof. reflexivity. Qed.
Example _path_resolve_abs : _path_resolve "//x///y/.." "/tmp" = "//x".
Proof. reflexivity. Qed.
Example _path_resolve_up : _path_resolve "../../.." "/tmp/a" = "/".
Proof. reflexivity. Qed.
Example _path_resolve_relcwd : _path_resolve "../../x" "a" = "../x".
Proof. reflexivity. Qed.

(** ** Splitting and joining on the slash *)
Section SplitJoin.
Import PyStr PosixPath.

Lemma split_nonempty sep s : split sep s <> [].
Proof.
  destruct s as [|c s]; simpl; [discriminate|].
  destruct (Ascii.eqb c sep); [discriminate|].
  destruct (split sep s); discriminate.
Qed.

Lemma split_no_slash s : Forall no_slash (split "/" s).
Proof.
  induction s as [|c s IH]; simpl.
  - repeat constructor.
  - destruct (Ascii.eqb_spec c "/") as [->|Hc].
    + constructor; [exact I | exact IH].
    + destruct (split "/" s) as [|w ws].
      * repeat constructor. exact Hc.
      * inversion IH; subst. constructor; [split; assumption | assumption].
Qed.

Lemma split_single a : no_slash a -> split "/" a = [a].
Proof.
  induction a as [|c a IH]; simpl; [reflexivity|].
  intros [Hc Ha]. destruct (Ascii.eqb_spec c "/") as [->|_]; [contradiction|].
  rewrite (IH Ha). reflexivity.
Qed.

Lemma split_app_slash a s :
  no_slash a -> split "/" (a ++ "/" ++ s) = a :: split "/" s.
Proof.
  induction a as [|c a IH]; simpl; [reflexivity|].
  intros [Hc Ha]. destruct (Ascii.eqb_spec c "/") as [->|_]; [contradiction|].
  rewrite (IH Ha). reflexivity.
Qed.

Lemma split_join comps :
  Forall no_slash comps -> comps <> [] ->
  split "/" (join "/" comps) = comps.
Proof.
  induction 1 as [|c rest Hc Hrest IH]; [congruence|]. intros _.
  destruct rest as [|d rest'].
  - simpl. apply split_single, Hc.
  - change (join "/" (c :: d :: rest')) with (c ++ "/" ++ join "/" (d :: rest')).
    rewrite split_app_slash by exact Hc. rewrite IH; [reflexivity | discriminate].
Qed.

Lemma clean_no_slash comps : Forall clean comps -> Forall no_slash comps.
Proof. intros H. eapply Forall_impl; [exact H|]. intros c (_ & _ & _ & Hc). exact Hc. Qed.

(** ** The component loop of [normpath] *)

Lemma last_is_dotdot_clean new : Forall clean new -> last_is_dotdot new = false.
Proof.
  intros H. unfold last_is_dotdot. destruct (last new) as [c|] eqn:E; [|reflexivity].
  apply last_Some in E as [l' ->]. apply Forall_app in H as [_ H].
  inversion H as [|? ? (_ & _ & Hdd & _) _]; subst.
  apply String.eqb_neq. exact Hdd.
Qed.

Lemma removelast_clean new : Forall clean new -> Forall clean (removelast new).
Proof.
  intros H. destruct (decide (new = [])) as [->|Hne]; [exact H|].
  destruct (exists_last Hne) as (l' & a & ->).
  rewrite removelast_last. apply Forall_app in H as [H _]. exact H.
Qed.

Lemma normpath_loop_clean init comps new :
  init <> 0 -> Forall no_slash comps -> Forall clean new ->
  Forall clean (normpath_loop init comps new).
Proof.
  intros Hinit Hcomps. revert new.
  induction Hcomps as [|c rest Hc Hrest IH]; intros new Hnew; simpl; [exact Hnew|].
  destruct (String.eqb_spec c "") as [->|He]; simpl; [apply IH, Hnew|].
  destruct (String.eqb_spec c ".") as [->|Hd]; simpl; [apply IH, Hnew|].
  rewrite (last_is_dotdot_clean new Hnew), orb_false_r.
  destruct (Nat.eqb_spec init 0) as [?|_]; [contradiction|]. simpl. rewrite orb_false_r.
  destruct (String.eqb_spec c "..") as [->|Hdd]; simpl.
  - destruct (length new =? 0)%nat; simpl; [apply IH, Hnew|].
    apply IH, removelast_clean, Hnew.
  - apply IH. apply Forall_app. split; [exact Hnew|].
    repeat constructor; assumption.
Qed.

Lemma normpath_loop_keeps init comps new :
  Forall clean comps -> Forall clean new ->
  normpath_loop init comps new = (new ++ comps)%list.
Proof.
  intros Hcomps. revert new.
  induction Hcomps as [|c rest Hc Hrest IH]; intros new Hnew; simpl.
  - symmetry. apply app_nil_r.
  - destruct Hc as (He & Hd & Hdd & Hs).
    destruct (String.eqb_spec c "") as [?|_]; [contradiction|].
    destruct (String.eqb_spec c ".") as [?|_]; [contradiction|].
    destruct (String.eqb_spec c "..") as [?|_]; [contradiction|]. simpl.
    rewrite IH.
    + rewrite <- app_assoc. reflexivity.
    + apply Forall_app. split; [exact Hnew|]. repeat constructor; assumption.
Qed.

Lemma normpath_loop_skip_empty init comps new :
  normpath_loop init ("" :: comps) new = normpath_loop init comps new.
Proof. reflexivity. Qed.

(** ** [normpath] on absolute paths *)

Lemma join_clean_head comps :
  Forall clean comps -> startswith "/" (join "/" comps) = false.
Proof.
  intros H. destruct H as [|c rest (He & _ & _ & Hs) _]; [reflexivity|].
  destruct c as [|a c]; [congruence|]. destruct Hs as [Ha _].
  assert (E : exists t, join "/" (String a c :: rest) = String a t).
  { destruct rest; simpl; eauto. }
  destruct E as [t ->]. simpl.
  destruct (Ascii.eqb_spec "/" a) as [<-|_]; [contradiction | reflexivity].
Qed.

Lemma loop_of_joined init comps :
  Forall clean comps ->
  normpath_loop init (split "/" (join "/" comps)) [] = comps.
Proof.
  intros H. destruct comps as [|c rest]; [reflexivity|].
  rewrite split_join; [| apply clean_no_slash, H | discriminate].
  apply (normpath_loop_keeps init _ [] H). constructor.
Qed.

Lemma normpath_abs_shape path :
  isabs path = true ->
  exists init comps, (init = 1 \/ init = 2) /\ Forall clean comps /\
                     normpath path = abs_shape init comps.
Proof.
  intros Habs. unfold normpath.
  destruct path as [|a path]; [discriminate|].
  change (String.eqb (String a path) "") with false. cbv iota.
  set (p := String a path) in *.
  exists (initial_slashes p), (normpath_loop (initial_slashes p) (split "/" p) []).
  assert (Hinit : initial_slashes p = 1 \/ initial_slashes p = 2).
  { unfold initial_slashes. unfold isabs in Habs. rewrite Habs.
    destruct (_ && _); auto. }
  split; [exact Hinit|]. split.
  - apply normpath_loop_clean; [lia | apply split_no_slash | constructor].
  - unfold abs_shape. destruct Hinit as [-> | ->]; reflexivity.
Qed.

Lemma initial_slashes_one j :
  startswith "/" j = false -> initial_slashes (String "/" j) = 1.
Proof.
  intros H. unfold initial_slashes.
  destruct j as [|b j]; cbn [startswith] in *; rewrite ?Ascii.eqb_refl;
    [reflexivity|].
  rewrite H. reflexivity.
Qed.

Lemma initial_slashes_two j :
  startswith "/" j = false -> initial_slashes (String "/" (String "/" j)) = 2.
Proof.
  intros H. unfold initial_slashes.
  destruct j as [|b j]; cbn [startswith] in *; rewrite ?Ascii.eqb_refl;
    [reflexivity|].
  rewrite H. reflexivity.
Qed.

Lemma split_slash s : split "/" (String "/" s) = "" :: split "/" s.
Proof. cbn [split]. rewrite Ascii.eqb_refl. reflexivity. Qed.

Lemma normpath_of_shape init comps :
  init = 1 \/ init = 2 -> Forall clean comps ->
  normpath (abs_shape init comps) = abs_shape init comps.
Proof.
  intros Hinit Hclean. pose proof (join_clean_head comps Hclean) as Hhead.
  unfold abs_shape. destruct Hinit as [-> | ->].
  - change (slashes 1 ++ join "/" comps) with (String "/" (join "/" comps)).
    unfold normpath. change (String.eqb (String "/" _) "") with false. cbv iota.
    rewrite (initial_slashes_one _ Hhead), split_slash, normpath_loop_skip_empty.
    rewrite loop_of_joined by exact Hclean. reflexivity.
  - change (slashes 2 ++ join "/" comps)
      with (String "/" (String "/" (join "/" comps))).
    unfold normpath. change (String.eqb (String "/" _) "") with false. cbv iota.
    rewrite (initial_slashes_two _ Hhead), !split_slash, !normpath_loop_skip_empty.
    rewrite loop_of_joined by exact Hclean. reflexivity.
Qed.

(** [normpath] is idempotent on absolute paths. *)
Lemma normpath_idem_abs path :
  isabs path = true -> normpath (normpath path) = normpath path.
Proof.
  intros H. destruct (normpath_abs_shape path H) as (init & comps & Hi & Hc & ->).
  apply normpath_of_shape; assumption.
Qed.

End SplitJoin.

(** ** [_path_resolve] *)
Section PathResolve.
Import PyStr PosixPath.

Lemma normpath_loop_plain init comps new :
  Forall no_slash comps ->
  Forall (fun c => c <> "" /\ no_slash c) new ->
  Forall (fun c => c <> "" /\ no_slash c) (normpath_loop init comps new).
Proof.
  intros Hcomps. revert new.
  induction Hcomps as [|c rest Hc Hrest IH]; intros new Hnew; simpl; [exact Hnew|].
  destruct (String.eqb_spec c "") as [->|He]; simpl; [apply IH, Hnew|].
  destruct (String.eqb c "."); simpl; [apply IH, Hnew|].
  destruct (_ || _ || _).
  - apply IH, Forall_app. split; [exact Hnew|]. repeat constructor; assumption.
  - destruct (negb _); apply IH; [|exact Hnew].
    destruct (decide (new = [])) as [->|Hne]; [exact Hnew|].
    destruct (exists_last Hne) as (l' & a & ->).
    rewrite removelast_last. apply Forall_app in Hnew as [Hl _]. exact Hl.
Qed.

Lemma join_plain_head comps :
  Forall (fun c => c <> "" /\ no_slash c) comps ->
  startswith "/" (join "/" comps) = false.
Proof.
  intros H. destruct H as [|c rest (He & Hs) _]; [reflexivity|].
  destruct c as [|a c]; [congruence|]. destruct Hs as [Ha _].
  assert (E : exists t, join "/" (String a c :: rest) = String a t).
  { destruct rest; simpl; eauto. }
  destruct E as [t ->]. cbn [startswith].
  destruct (Ascii.eqb_spec "/" a) as [<-|_]; [contradiction | reflexivity].
Qed.

(** [normpath] keeps a relative path relative... *)
Lemma normpath_rel path : isabs path = false -> isabs (normpath path) = false.
Proof.
  intros H. unfold normpath. destruct (String.eqb path ""); [reflexivity|].
  unfold initial_slashes. unfold isabs in H. rewrite H. cbn [slashes String.append].
  destruct (String.eqb _ ""); [reflexivity|].
  apply join_plain_head, normpath_loop_plain; [apply split_no_slash | constructor].
Qed.

(** ... and an absolute path absolute. *)
Lemma normpath_abs path : isabs path = true -> isabs (normpath path) = true.
Proof.
  intros H. destruct (normpath_abs_shape path H) as (init & comps & Hi & _ & ->).
  unfold abs_shape. destruct Hi as [-> | ->]; reflexivity.
Qed.

Lemma isabs_join2 cwd path : isabs cwd = true -> isabs (join2 cwd path) = true.
Proof.
  unfold isabs, join2. intros H.
  destruct (startswith "/" path) eqn:E; [exact E|].
  destruct cwd as [|a cwd]; [discriminate|]. cbn [startswith] in H.
  destruct (_ || _); cbn [String.append startswith]; exact H.
Qed.

(** With an absolute working directory every resolved path is absolute. *)
Lemma _path_resolve_isabs path cwd :
  isabs cwd = true -> isabs (_path_resolve path cwd) = true.
Proof.
  intros H. unfold _path_resolve. destruct (isabs path) eqn:E.
  - apply normpath_abs, E.
  - apply normpath_abs, isabs_join2, H.
Qed.

(** A resolved path that is absolute is a fixed point of resolution. *)
Lemma _path_resolve_fixed path cwd cwd' :
  isabs (_path_resolve path cwd) = true ->
  _path_resolve (_path_resolve path cwd) cwd' = _path_resolve path cwd.
Proof.
  intros H. unfold _path_resolve at 1. rewrite H.
  unfold _path_resolve in *. destruct (isabs path) eqn:E.
  - apply normpath_idem_abs, E.
  - apply normpath_idem_abs.
    destruct (isabs (join2 cwd path)) eqn:E'; [reflexivity|].
    rewrite (normpath_rel _ E') in H. discriminate.
Qed.




(** The same, stated on the working directory: an absolute working
    directory is enough, whatever the path. *)
Corollary _path_resolve_fixed_abs_cwd path cwd cwd' :
  isabs cwd = true ->
  _path_resolve (_path_resolve path cwd) cwd' = _path_resolve path cwd.
Proof. intros H. apply _path_resolve_fixed, _path_resolve_isabs, H. Qed.

(** Against a relative working directory a relative path resolves to a
    relative path, and a second resolution prepends the directory again. *)
Example path_resolve_relative_cwd :
  _path_resolve "bar" "foo" = "foo/bar" /\
  _path_resolve (_path_resolve "bar" "foo") "foo" = "foo/foo/bar".
Proof. split; reflexivity. Qed.

End PathResolve.

(** ** The entry point *)
Section Run.
Variable h : host.
Import PyStr.

Lemma shlex_split_empty : Shlex.split "" = Ok [].
Proof. reflexivity. Qed.


(** Without a session, a line with tokens goes to the dispatcher, whose
    exceptions become the [Error:] result. *)
Lemma run_dispatch self raw cwd w cmd args :
  heredoc_mode self = None -> input_mode self = None ->
  Shlex.split (strip raw) = Ok (cmd :: args) ->
  run h self raw (Some cwd) w =
  match dispatch h self cmd args cwd w with
  | (Ok (r, self'), w') => (Ok r, self', w')
  | (Raise e, w') =>
      (Ok (Result "" ("Error: " ++ exn_str e ++ Fmt.nl) (Some cwd) 1), self, w')
  end.
Proof.
  intros Hh Hi Htok. unfold run, run_with. rewrite Hh, Hi, Htok.
  destruct (String.eqb_spec (strip raw) "") as [E|_]; [|reflexivity].
  rewrite E in Htok. discriminate.
Qed.

(** An omitted working directory is [/tmp], created if need be. *)
Lemma run_default_cwd self raw w w1 :
  FS.makedirs w "/tmp" true = (Ok tt, w1) ->
  run h self raw None w = run h self raw (Some "/tmp") w1.
Proof. intros H. unfold run, run_with. rewrite H. reflexivity. Qed.

End Run.

(** ** The metrics verbs and the working-directory slot *)
Section Metrics.
Variable h : host.
Import PyStr.

Lemma dispatch_cpu self args cwd : dispatch h self "cpu" args cwd = keep self (_cpu h).
Proof. reflexivity. Qed.
Lemma dispatch_mem self args cwd : dispatch h self "mem" args cwd = keep self (_mem h).
Proof. reflexivity. Qed.
Lemma dispatch_ps self args cwd : dispatch h self "ps" args cwd = keep self (_ps h args).
Proof. reflexivity. Qed.
Lemma dispatch_uptime self args cwd :
  dispatch h self "uptime" args cwd = keep self (_uptime h).
Proof. reflexivity. Qed.
Lemma dispatch_df self args cwd :
  dispatch h self "df" args cwd = keep self (_df h args cwd).
Proof. reflexivity. Qed.

(** What each metrics handler returns when it returns *)
Lemma _cpu_slot w r w' : _cpu h w = (Ok r, w') -> new_cwd r = None.
Proof.
  unfold _cpu. io_unfold. destruct (cpu_percent h); intros [= <- _]; reflexivity.
Qed.

Lemma _mem_slot w r w' : _mem h w = (Ok r, w') -> new_cwd r = None.
Proof.
  unfold _mem. io_unfold. destruct (virtual_memory h) as [|[[? ?] ?]];
    intros [= <- _]; reflexivity.
Qed.

Lemma _ps_slot args w r w' : _ps h args w = (Ok r, w') -> new_cwd r = None.
Proof.
  unfold _ps. io_unfold. destruct (process_iter h) as [|infos]; [discriminate|].
  destruct (_ps_lines infos); intros [= <- _]; reflexivity.
Qed.

Lemma _uptime_slot w r w' : _uptime h w = (Ok r, w') -> new_cwd r = None.
Proof.
  unfold _uptime. io_unfold. destruct (uptime_delta h) as [|[? ?]];
    intros [= <- _]; reflexivity.
Qed.

Lemma _df_slot args cwd w r w' : _df h args cwd w = (Ok r, w') -> new_cwd r = Some cwd.
Proof.
  unfold _df. io_unfold. destruct (disk_usage h) as [|[[[? ?] ?] ?]];
    intros [= <- _]; reflexivity.
Qed.

(** A handler that leaves the state alone, seen through [run]: either its
    result, or the [Error:] result of the catch-all, exit code 1. *)
Lemma keep_outcome self (m : io result) cwd w r self' w' :
  match keep self m w with
  | (Ok (r, self'), w') => (Ok r, self', w')
  | (Raise e, w') =>
      (Ok (Result "" ("Error: " ++ exn_str e ++ Fmt.nl) (Some cwd) 1), self, w')
  end = (Ok r, self', w') ->
  m w = (Ok r, w') \/ (new_cwd r = Some cwd /\ exit_code r = 1%Z).
Proof.
  io_unfold. destruct (m w) as [[e|r0] w0]; intros [= <- _ <-]; auto.
Qed.

(** C1, amended. With no session open, a line whose verb is [cpu], [mem],
    [ps] or [uptime] and that succeeds (exit code 0: the metrics provider
    answered) has [None] in the working-directory slot, whatever working
    directory was passed in; a line whose verb is [df] has the working
    directory that was passed in. *)
Theorem metrics_verbs_cwd_slot self raw verb args cwd w r self' w' :
  heredoc_mode self = None -> input_mode self = None ->
  Shlex.split (strip raw) = Ok (verb :: args) ->
  run h self raw (Some cwd) w = (Ok r, self', w') ->
  (In verb ["cpu"; "mem"; "ps"; "uptime"] -> exit_code r = 0%Z -> new_cwd r = None)
  /\ (verb = "df" -> new_cwd r = Some cwd).
Proof.
  intros Hh Hi Htok Hrun. rewrite (run_dispatch h self raw cwd w verb args Hh Hi Htok) in Hrun.
  split.
  - intros Hin Hcode. simpl in Hin.
    destruct Hin as [<-|[<-|[<-|[<-|[]]]]].
    + rewrite dispatch_cpu in Hrun.
      apply keep_outcome in Hrun as [H|[_ H]]; [eapply _cpu_slot, H | congruence].
    + rewrite dispatch_mem in Hrun.
      apply keep_outcome in Hrun as [H|[_ H]]; [eapply _mem_slot, H | congruence].
    + rewrite dispatch_ps in Hrun.
      apply keep_outcome in Hrun as [H|[_ H]]; [eapply _ps_slot, H | congruence].
    + rewrite dispatch_uptime in Hrun.
      apply keep_outcome in Hrun as [H|[_ H]]; [eapply _uptime_slot, H | congruence].
  - intros ->. rewrite dispatch_df in Hrun.
    apply keep_outcome in Hrun as [H|[H _]]; [eapply _df_slot, H | exact H].
Qed.

(** The four verbs do return when the provider answers. *)
Lemma _cpu_returns w p :
  cpu_percent h = Ok p ->
  _cpu h w = (Ok (Result ("CPU: " ++ p ++ "%" ++ Fmt.nl) "" None 0), w).
Proof. intros E. unfold _cpu. io_unfold. rewrite E. reflexivity. Qed.

Lemma _uptime_returns w days seconds :
  uptime_delta h = Ok (days, seconds) ->
  exists out, _uptime h w = (Ok (Result out "" None 0), w).
Proof. intros E. unfold _uptime. io_unfold. rewrite E. eauto. Qed.

Lemma _mem_returns w total used percent :
  virtual_memory h = Ok (total, used, percent) ->
  exists out, _mem h w = (Ok (Result out "" None 0), w).
Proof. intros E. unfold _mem. io_unfold. rewrite E. eauto. Qed.

Lemma _ps_returns args w infos procs :
  process_iter h = Ok infos -> _ps_lines infos = Ok procs ->
  exists out, _ps h args w = (Ok (Result out "" None 0), w).
Proof. intros E E'. unfold _ps. io_unfold. rewrite E, E'. eauto. Qed.

End Metrics.

Lemma metrics_verbs_cwd_slot_witness :
  (In "uptime" ["cpu"; "mem"; "ps"; "uptime"] -> 0%Z = 0%Z ->
   @None string = None)
  /\ ("uptime" = "df" -> @None string = Some "/srv/data").
Proof.
  exact (metrics_verbs_cwd_slot Demo.demo_host init "  uptime " "uptime" []
           "/srv/data" Demo.demo_world
           (Result ("up 1 days, 1:02" ++ Fmt.nl) "" None 0) init Demo.demo_world
           eq_refl eq_refl eq_refl eq_refl).
Defined.

(** C1 as first stated fails on [df]: its slot holds the working directory
    passed in, not [None]. *)
Lemma df_cwd_slot_counterexample :
  exists out,
    run Demo.demo_host init "df" (Some "/srv/data") Demo.demo_world
    = (Ok (Result out "" (Some "/srv/data") 0), init, Demo.demo_world)
    /\ Some "/srv/data" <> @None string.
Proof. eexists. split; [vm_compute; reflexivity | discriminate]. Qed.

(** ** Capture sessions *)
Section Sessions.
Variable h : host.
Import PyStr.

(** A line that is not the terminator, once stripped, joins the buffer. *)
Lemma run_heredoc_line self hd raw cwd w :
  heredoc_mode self = Some hd ->
  strip raw <> hd_delimiter hd ->
  run h self raw (Some cwd) w =
  (Ok (Result "> " "" (Some cwd) 0),
   Executor (Some (HeredocState (hd_mode hd) (hd_filepath hd) (hd_delimiter hd)
                                (hd_lines hd ++ [strip raw])))
            (input_mode self),
   w).
Proof.
  intros Hh Hne. unfold run, run_with. rewrite Hh.
  destruct (String.eqb_spec (strip raw) (hd_delimiter hd)) as [E|_];
    [contradiction | reflexivity].
Qed.

(** C2, amended. While a heredoc session is open, a line whose text with
    leading and trailing whitespace removed differs from the terminator word
    is appended to the buffer in that trimmed form, nothing else changes, and
    the invocation returns the continuation prompt with exit code 0. *)
Theorem heredoc_accumulates_stripped self hd raw cwd w :
  heredoc_mode self = Some hd ->
  strip raw <> hd_delimiter hd ->
  run h self raw (Some cwd) w =
  (Ok (Result "> " "" (Some cwd) 0),
   Executor (Some (HeredocState (hd_mode hd) (hd_filepath hd) (hd_delimiter hd)
                                (hd_lines hd ++ [strip raw])))
            (input_mode self),
   w).
Proof. apply run_heredoc_line. Qed.

End Sessions.

Lemma heredoc_accumulates_stripped_witness :
  run Demo.demo_host
      (Executor (Some (HeredocState "a" "/tmp/log.txt" "EOF" ["x"])) None)
      "   indented line  " (Some "/tmp") Demo.demo_world
  = (Ok (Result "> " "" (Some "/tmp") 0),
     Executor (Some (HeredocState "a" "/tmp/log.txt" "EOF" ["x"; "indented line"]))
              None,
     Demo.demo_world).
Proof.
  apply (heredoc_accumulates_stripped Demo.demo_host
           (Executor (Some (HeredocState "a" "/tmp/log.txt" "EOF" ["x"])) None)
           (HeredocState "a" "/tmp/log.txt" "EOF" ["x"])
           "   indented line  " "/tmp" Demo.demo_world).
  - reflexivity.
  - vm_compute. discriminate.
Defined.

(** C2 as first stated fails: the line ["  x  "], which differs from the
    terminator, reaches the buffer as ["x"], its surrounding whitespace
    gone; and the line [" EOF "], which also differs from the terminator
    [EOF], is not appended at all but ends the session. *)
Lemma heredoc_line_not_verbatim_counterexample :
  let self := Executor (Some (HeredocState "a" "/tmp/log.txt" "EOF" [])) None in
  (exists self' w',
     run Demo.demo_host self "  x  " (Some "/tmp") Demo.demo_world
     = (Ok (Result "> " "" (Some "/tmp") 0), self', w')
     /\ (hd_lines <$> heredoc_mode self') = Some ["x"]
     /\ ["x"] <> ["  x  "])
  /\ (exists r w',
        run Demo.demo_host self " EOF " (Some "/tmp") Demo.demo_world
        = (Ok r, init, w')
        /\ " EOF " <> "EOF").
Proof.
  split.
  - eexists _, _. split; [vm_compute; reflexivity|]. split; [reflexivity | discriminate].
  - eexists _, _. split; [vm_compute; reflexivity | discriminate].
Qed.

Section SessionState.
Variable h : host.
Import PyStr.

(** A write that fails leaves the store as it was. *)
Lemma write_text_raise w p m t e w' :
  FS.write_text w p m t = (Raise e, w') -> w' = w.
Proof.
  unfold FS.write_text. destruct (String.eqb p ""); [congruence|].
  destruct (FS.lookup_key w (FS.key w p)) as [[old|]|].
  - destruct m as [[]| | |]; congruence.
  - congruence.
  - destruct m; try congruence;
      destruct (FS.lookup_key w (FS.parent (FS.key w p))) as [[?|]|]; congruence.
Qed.

Lemma open_write_raise p mode t w e w' :
  open_write p mode t w = (Raise e, w') -> w' = w.
Proof.
  unfold open_write, write_text. io_unfold.
  destruct (FS.mode_of_string mode) as [e0|m]; [congruence|].
  apply write_text_raise.
Qed.

Lemma flush_raise fp mode lines w e w' :
  flush fp mode lines w = (Raise e, w') -> w' = w.
Proof. apply open_write_raise. Qed.

Lemma clear_active_init self : at_most_one_session self -> clear_active self = init.
Proof.
  unfold at_most_one_session, clear_active, init.
  destruct (heredoc_mode self); intros [H|H]; try discriminate; rewrite ?H; reflexivity.
Qed.

(** The outcome of the terminating line of a session, by the outcome of the
    flush. *)
Lemma run_terminator self fp mode lines term raw cwd w :
  active_session self = Some (fp, mode, lines, term) ->
  strip raw = term ->
  run h self raw (Some cwd) w =
  match flush fp mode lines w with
  | (Ok _, w') => (Ok (Result "" "" (Some cwd) 0), clear_active self, w')
  | (Raise e, w') =>
      (Ok (Result "" ("cat: write error: " ++ exn_str e ++ Fmt.nl) (Some cwd) 1),
       clear_active self, w')
  end.
Proof.
  unfold active_session, clear_active, run, run_with. intros Hact Hterm.
  destruct (heredoc_mode self) as [hd|] eqn:Hh.
  - injection Hact as <- <- <- <-. rewrite Hterm, String.eqb_refl. reflexivity.
  - destruct (input_mode self) as [ins|] eqn:Hi; [|discriminate].
    injection Hact as <- <- <- <-. rewrite Hterm. reflexivity.
Qed.

(** C5. For both kinds of session: when the terminating line arrives and
    the flush to the target fails with an exception [e], the invocation
    returns the message [cat: write error: e] with exit code 1, the session
    is dropped together with its buffer (no session is open afterwards,
    since at most one ever is), and the store is as it was before the
    call. *)
Theorem flush_failure_clears_session self fp mode lines term raw cwd w e w' :
  active_session self = Some (fp, mode, lines, term) ->
  strip raw = term ->
  flush fp mode lines w = (Raise e, w') ->
  run h self raw (Some cwd) w =
    (Ok (Result "" ("cat: write error: " ++ exn_str e ++ Fmt.nl) (Some cwd) 1),
     clear_active self, w)
  /\ heredoc_mode (clear_active self) = None
  /\ (at_most_one_session self -> active_session (clear_active self) = None).
Proof.
  intros Hact Hterm Hflush.
  rewrite (run_terminator self fp mode lines term raw cwd w Hact Hterm), Hflush.
  rewrite (flush_raise _ _ _ _ _ _ Hflush). split; [reflexivity|]. split.
  - unfold clear_active. destruct (heredoc_mode self); reflexivity.
  - intros H. rewrite (clear_active_init self H). reflexivity.
Qed.

End SessionState.

Lemma flush_failure_clears_session_witness :
  run Demo.demo_host (Executor None (Some (InputState "w" "/tmp/proj" ["l1"; "l2"])))
      "   " (Some "/tmp") Demo.demo_world =
    (Ok (Result "" ("cat: write error: [Errno 21] Is a directory: '/tmp/proj'" ++ Fmt.nl)
                (Some "/tmp") 1),
     init, Demo.demo_world)
  /\ heredoc_mode init = None
  /\ (at_most_one_session (Executor None (Some (InputState "w" "/tmp/proj" ["l1"; "l2"])))
      -> active_session init = None).
Proof.
  apply (flush_failure_clears_session Demo.demo_host
           (Executor None (Some (InputState "w" "/tmp/proj" ["l1"; "l2"])))
           "/tmp/proj" "w" ["l1"; "l2"] "" "   " "/tmp" Demo.demo_world
           (FS.EISDIR "/tmp/proj") Demo.demo_world).
  - reflexivity.
  - reflexivity.
  - vm_compute. reflexivity.
Defined.

(** ** At most one session *)
Section SingleSession.
Variable h : host.
Import PyStr.

Lemma keep_state self (m : io result) w r self' w' :
  keep self m w = (Ok (r, self'), w') -> self' = self /\ m w = (Ok r, w').
Proof. io_unfold. destruct (m w) as [[e|r0] w0]; intros [= <- <- <-]; auto. Qed.

(** What [run] makes of the result of [_cat]: the state is kept, or one
    slot is filled and the other kept. *)
Lemma _cat_special_state self result0 cwd r self' :
  _cat_special self result0 cwd = Ok (r, self') ->
  (self' = self /\ r = result0)
  \/ (r = Result "> " "" (Some cwd) 0 /\
      ((exists hd, self' = Executor (Some hd) (input_mode self))
       \/ (exists ins, self' = Executor (heredoc_mode self) (Some ins)))).
Proof.
  unfold _cat_special.
  destruct (startswith "HEREDOC_MODE:" (stdout result0)).
  - destruct (getitem _ 1); [discriminate|]. destruct (getitem _ 2); [discriminate|].
    destruct (getitem _ 3); [discriminate|]. simpl. intros [= <- <-]. eauto 6.
  - destruct (startswith "INPUT_MODE:" (stdout result0)).
    + destruct (getitem _ 1); [discriminate|]. destruct (getitem _ 2); [discriminate|].
      simpl. intros [= <- <-]. eauto 6.
    + intros [= <- <-]. auto.
Qed.





End SingleSession.


(** ** Writing and reading back *)
Section Store.
Import PyStr.

Lemma writable_inv w p :
  writable w p = true -> p <> "" /\ FS.key w p <> [].
Proof.
  unfold writable. destruct (String.eqb_spec p "") as [->|Hp]; [discriminate|].
  intros H. split; [exact Hp|]. intros E. rewrite E in H. discriminate.
Qed.

Lemma write_text_overwrite w p t :
  writable w p = true ->
  FS.write_text w p FS.ModeW t = (Ok tt, FS.set_file w (FS.key w p) t).
Proof.
  unfold writable, FS.write_text. destruct (String.eqb p ""); [discriminate|].
  destruct (FS.lookup_key w (FS.key w p)) as [[old|]|]; [reflexivity|discriminate|].
  destruct (FS.lookup_key w (FS.parent (FS.key w p))) as [[?|]|];
    [discriminate|reflexivity|discriminate].
Qed.

Lemma write_text_append w p t :
  writable w p = true ->
  FS.write_text w p FS.ModeA t
  = (Ok tt, FS.set_file w (FS.key w p) (prior_content w p ++ t)).
Proof.
  unfold writable, FS.write_text, prior_content, file_content, FS.lookup.
  destruct (String.eqb p ""); [discriminate|].
  destruct (FS.lookup_key w (FS.key w p)) as [[old|]|]; [reflexivity|discriminate|].
  destruct (FS.lookup_key w (FS.parent (FS.key w p))) as [[?|]|];
    [discriminate|reflexivity|discriminate].
Qed.

(** A file just written is there, with the text written. *)
Lemma lookup_set_file w p c :
  p <> "" -> FS.key w p <> [] ->
  FS.lookup (FS.set_file w (FS.key w p) c) p = Some (File c).
Proof.
  intros Hp Hk. unfold FS.lookup. destruct (String.eqb_spec p "") as [?|_]; [contradiction|].
  change (FS.key (FS.set_file w (FS.key w p) c) p) with (FS.key w p).
  unfold FS.lookup_key. destruct (FS.key w p) as [|a k] eqn:E; [contradiction|].
  simpl. apply lookup_insert_eq.
Qed.

(** A file written in text mode and read back gives the text written, with
    universal newlines. *)
Lemma read_after_write w p c :
  p <> "" -> FS.key w p <> [] ->
  let w' := FS.set_file w (FS.key w p) c in
  FS.exists_ w' p = true /\ FS.isdir w' p = false
  /\ FS.read_text w' p = Ok (FS.universal_newlines c).
Proof.
  intros Hp Hk w'. unfold FS.exists_, FS.isdir, FS.read_text. subst w'.
  rewrite (lookup_set_file w p c Hp Hk). auto.
Qed.

Lemma normpath_nonempty path : PosixPath.normpath path <> "".
Proof.
  unfold PosixPath.normpath. destruct (String.eqb path ""); [discriminate|].
  cbv zeta.
  match goal with
  | |- (if String.eqb ?x "" then _ else _) <> _ =>
      destruct (String.eqb_spec x "") as [E|E]; [discriminate | exact E]
  end.
Qed.

Lemma _path_resolve_nonempty path cwd : _path_resolve path cwd <> "".
Proof.
  unfold _path_resolve. destruct (PosixPath.isabs path); apply normpath_nonempty.
Qed.

End Store.

(** ** [echo] into a file, then [cat] *)
Section EchoCat.
Variable h : host.
Import PyStr.

Lemma _echo_overwrite cwd w :
  _echo ["a b"; ">"; "f.txt"] cwd w =
  match FS.write_text w (_path_resolve "f.txt" cwd) FS.ModeW ("a b" ++ Fmt.nl) with
  | (Ok _, w') => (Ok (Result "" "" (Some cwd) 0), w')
  | (Raise e, w') =>
      (Ok (Result "" ("echo: redirection error: " ++ exn_str e ++ Fmt.nl) (Some cwd) 1), w')
  end.
Proof.
  cbv -[FS.write_text _path_resolve Fmt.nl String.append].
  destruct (FS.write_text _ _ _ _) as [[e|[]] w']; reflexivity.
Qed.

Lemma _cat_single cwd w :
  _cat ["f.txt"] cwd w =
  let p := _path_resolve "f.txt" cwd in
  if negb (FS.exists_ w p) then
    (Ok (Result "" ("cat: f.txt: No such file or directory" ++ Fmt.nl) (Some cwd) 1), w)
  else if FS.isdir w p then
    (Ok (Result "" ("cat: f.txt: Is a directory" ++ Fmt.nl) (Some cwd) 1), w)
  else match FS.read_text w p with
       | Ok c => (Ok (Result c "" (Some cwd) 0), w)
       | Raise e => (Raise e, w)
       end.
Proof.
  cbv -[FS.exists_ FS.isdir FS.read_text _path_resolve Fmt.nl String.append].
  destruct (FS.exists_ _ _); [|reflexivity]. simpl.
  destruct (FS.isdir _ _); simpl; [reflexivity|].
  destruct (FS.read_text _ _); reflexivity.
Qed.

(** C6. With no session open and [f.txt] writable from the working
    directory, the line [echo "a b" > f.txt] returns exit code 0 with empty
    output and leaves the text [a b] and a newline in the file; [cat f.txt]
    next returns exactly that text on stdout, exit code 0; the interpreter
    state is as before. *)
Theorem echo_cat_round_trip self cwd w :
  heredoc_mode self = None -> input_mode self = None ->
  writable w (_path_resolve "f.txt" cwd) = true ->
  run_lines h self cwd w ["echo " ++ Fmt.dq ++ "a b" ++ Fmt.dq ++ " > f.txt"; "cat f.txt"]
  = ([Ok (Result "" "" (Some cwd) 0);
      Ok (Result ("a b" ++ Fmt.nl) "" (Some cwd) 0)],
     self,
     FS.set_file w (FS.key w (_path_resolve "f.txt" cwd)) ("a b" ++ Fmt.nl)).
Proof.
  intros Hh Hi Hw. destruct (writable_inv _ _ Hw) as [Hp Hk].
  assert (T1 : Shlex.split (strip ("echo " ++ Fmt.dq ++ "a b" ++ Fmt.dq ++ " > f.txt"))
               = Ok ["echo"; "a b"; ">"; "f.txt"]) by reflexivity.
  assert (T2 : Shlex.split (strip "cat f.txt") = Ok ["cat"; "f.txt"]) by reflexivity.
  cbn [run_lines].
  rewrite (run_dispatch h self _ cwd w "echo" ["a b"; ">"; "f.txt"] Hh Hi T1).
  change (dispatch h self "echo" ["a b"; ">"; "f.txt"] cwd)
    with (keep self (_echo ["a b"; ">"; "f.txt"] cwd)).
  unfold keep at 1, bind at 1. rewrite _echo_overwrite, (write_text_overwrite _ _ _ Hw).
  cbn [ret].
  rewrite (run_dispatch h self _ cwd _ "cat" ["f.txt"] Hh Hi T2).
  change (dispatch h self "cat" ["f.txt"] cwd)
    with (bind (_cat ["f.txt"] cwd) (fun r0 => lift (_cat_special self r0 cwd))).
  unfold bind at 1. rewrite _cat_single. cbv zeta.
  destruct (read_after_write w _ ("a b" ++ Fmt.nl) Hp Hk) as (-> & -> & ->).
  reflexivity.
Qed.

End EchoCat.

Lemma echo_cat_round_trip_witness :
  run_lines Demo.demo_host init "/tmp/proj" Demo.demo_world
    ["echo " ++ Fmt.dq ++ "a b" ++ Fmt.dq ++ " > f.txt"; "cat f.txt"]
  = ([Ok (Result "" "" (Some "/tmp/proj") 0);
      Ok (Result ("a b" ++ Fmt.nl) "" (Some "/tmp/proj") 0)],
     init,
     FS.set_file Demo.demo_world
       (FS.key Demo.demo_world (_path_resolve "f.txt" "/tmp/proj")) ("a b" ++ Fmt.nl)).
Proof.
  apply (echo_cat_round_trip Demo.demo_host init "/tmp/proj" Demo.demo_world);
    vm_compute; reflexivity.
Defined.

(** ** The heredoc scenario *)
Section Heredoc.
Variable h : host.
Import PyStr.

Lemma split_max_no_colon fp rest n :
  no_colon fp = true ->
  split_max ":" (fp ++ ":" ++ rest) (S n) = fp :: split_max ":" rest n.
Proof.
  unfold no_colon. induction fp as [|c fp IH]; intros Hc.
  - change ("" ++ ":" ++ rest) with (String ":" rest).
    cbn [split_max]. rewrite Ascii.eqb_refl. reflexivity.
  - cbn [FS.count_char] in Hc.
    change (String c fp ++ ":" ++ rest) with (String c (fp ++ ":" ++ rest)).
    cbn [split_max].
    rewrite Ascii.eqb_sym. destruct (Ascii.eqb ":" c); [discriminate|].
    rewrite IH by exact Hc. reflexivity.
Qed.

(** The marker [_cat] returns for a heredoc opens the session it describes,
    provided the resolved target has no colon. *)
Lemma _cat_special_heredoc self fp cwd :
  no_colon fp = true ->
  _cat_special self (Result ("HEREDOC_MODE:a:" ++ fp ++ ":EOF") "" (Some cwd) 0) cwd
  = Ok (Result "> " "" (Some cwd) 0,
        Executor (Some (HeredocState "a" fp "EOF" [])) (input_mode self)).
Proof.
  intros Hc. unfold _cat_special. cbn [stdout].
  change (startswith "HEREDOC_MODE:" ("HEREDOC_MODE:a:" ++ fp ++ ":EOF")) with true.
  cbv iota.
  assert (E : split_max ":" ("HEREDOC_MODE:a:" ++ fp ++ ":EOF") 3
              = ["HEREDOC_MODE"; "a"; fp; "EOF"]).
  { change (split_max ":" ("HEREDOC_MODE:a:" ++ fp ++ ":EOF") 3)
      with ("HEREDOC_MODE" :: "a" :: split_max ":" (fp ++ ":" ++ "EOF") 1).
    rewrite (split_max_no_colon fp "EOF" 0 Hc). reflexivity. }
  rewrite E. reflexivity.
Qed.

Lemma _cat_heredoc_line cwd w :
  _cat [">>"; "log.txt"; "<<"; "EOF"] cwd w =
  (Ok (Result ("HEREDOC_MODE:a:" ++ _path_resolve "log.txt" cwd ++ ":EOF") ""
              (Some cwd) 0), w).
Proof. reflexivity. Qed.

(** The heredoc scenario where the resolved target has no colon and can be
    written: the three prompts, then the flush; the text [x], newline, [y],
    newline is appended to what the file held; no session is left, so that
    the next line with tokens goes to the dispatcher. *)
Lemma heredoc_scenario self cwd w :
  heredoc_mode self = None -> input_mode self = None ->
  no_colon (_path_resolve "log.txt" cwd) = true ->
  writable w (_path_resolve "log.txt" cwd) = true ->
  let fp := _path_resolve "log.txt" cwd in
  let w' := FS.set_file w (FS.key w fp)
              (prior_content w fp ++ ("x" ++ Fmt.nl ++ "y" ++ Fmt.nl)) in
  run_lines h self cwd w ["cat >> log.txt << EOF"; "x"; "y"; "EOF"]
  = ([Ok (Result "> " "" (Some cwd) 0); Ok (Result "> " "" (Some cwd) 0);
      Ok (Result "> " "" (Some cwd) 0); Ok (Result "" "" (Some cwd) 0)],
     init, w')
  /\ forall raw cmd args,
       Shlex.split (strip raw) = Ok (cmd :: args) ->
       run h init raw (Some cwd) w' =
       match dispatch h init cmd args cwd w' with
       | (Ok (r, self'), w'') => (Ok r, self', w'')
       | (Raise e, w'') =>
           (Ok (Result "" ("Error: " ++ exn_str e ++ Fmt.nl) (Some cwd) 1), init, w'')
       end.
Proof.
  intros Hh Hi Hc Hw fp w'. split.
  - assert (T : Shlex.split (strip "cat >> log.txt << EOF")
                = Ok ["cat"; ">>"; "log.txt"; "<<"; "EOF"]) by reflexivity.
    cbn [run_lines].
    rewrite (run_dispatch h self _ cwd w _ _ Hh Hi T).
    change (dispatch h self "cat" [">>"; "log.txt"; "<<"; "EOF"] cwd)
      with (bind (_cat [">>"; "log.txt"; "<<"; "EOF"] cwd)
                 (fun r0 => lift (_cat_special self r0 cwd))).
    unfold bind at 1. rewrite _cat_heredoc_line. unfold lift.
    rewrite (_cat_special_heredoc self _ cwd Hc), Hi.
    fold fp.
    rewrite (run_heredoc_line h (Executor (Some (HeredocState "a" fp "EOF" [])) None)
               (HeredocState "a" fp "EOF" []) "x" cwd w eq_refl)
      by (vm_compute; discriminate).
    cbv beta iota. cbn [hd_mode hd_filepath hd_delimiter hd_lines input_mode app].
    rewrite (run_heredoc_line h
               (Executor (Some (HeredocState "a" fp "EOF" [strip "x"])) None)
               (HeredocState "a" fp "EOF" [strip "x"]) "y" cwd w eq_refl)
      by (vm_compute; discriminate).
    cbv beta iota. cbn [hd_mode hd_filepath hd_delimiter hd_lines input_mode app].
    rewrite (run_terminator h
               (Executor (Some (HeredocState "a" fp "EOF" [strip "x"; strip "y"])) None)
               fp "a" [strip "x"; strip "y"] "EOF" "EOF" cwd w eq_refl eq_refl).
    unfold flush, open_write, bind, lift.
    change (FS.mode_of_string "a") with (Ok FS.ModeA). cbv iota.
    unfold write_text. rewrite (write_text_append w fp _ Hw). reflexivity.
  - intros raw cmd args Htok. apply run_dispatch; [reflexivity|reflexivity|exact Htok].
Qed.

End Heredoc.

(** C3, at a working directory whose name has a colon.  In [/tmp/a:b] the
    marker that [_cat] hands to [run] is cut at the colon of the path: the
    session opens on the target [/tmp/a] with the terminator
    [b/log.txt:EOF].  The line [EOF] is then buffered like the others, no
    file is written, and the next command, [pwd], is captured as well. *)
Theorem heredoc_scenario_colon_in_path :
  run_lines Demo.demo_host init "/tmp/a:b" Demo.demo_world
    ["cat >> log.txt << EOF"; "x"; "y"; "EOF"; "pwd"]
  = ([Ok (Result "> " "" (Some "/tmp/a:b") 0); Ok (Result "> " "" (Some "/tmp/a:b") 0);
      Ok (Result "> " "" (Some "/tmp/a:b") 0); Ok (Result "> " "" (Some "/tmp/a:b") 0);
      Ok (Result "> " "" (Some "/tmp/a:b") 0)],
     Executor (Some (HeredocState "a" "/tmp/a" "b/log.txt:EOF" ["x"; "y"; "EOF"; "pwd"]))
              None,
     Demo.demo_world).
Proof. vm_compute. reflexivity. Qed.

(** The same lines from [/tmp], where the scenario goes as told. *)
Example heredoc_scenario_tmp :
  exists w',
    run_lines Demo.demo_host init "/tmp" Demo.demo_world
      ["cat >> log.txt << EOF"; "x"; "y"; "EOF"; "pwd"]
    = ([Ok (Result "> " "" (Some "/tmp") 0); Ok (Result "> " "" (Some "/tmp") 0);
        Ok (Result "> " "" (Some "/tmp") 0); Ok (Result "" "" (Some "/tmp") 0);
        Ok (Result ("/tmp" ++ Fmt.nl) "" (Some "/tmp") 0)],
       init, w')
    /\ file_content w' "/tmp/log.txt"
       = Some ("old" ++ Fmt.nl ++ "x" ++ Fmt.nl ++ "y" ++ Fmt.nl).
Proof. eexists. split; vm_compute; reflexivity. Qed.

(** ** [grep] *)
Section Grep.
Import PyStr Fmt.

Lemma startswith_spec p s : startswith p s = true <-> exists after, s = p ++ after.
Proof.
  revert s. induction p as [|a p IH]; intros s; simpl.
  - split; [intros _; exists s; reflexivity | reflexivity].
  - destruct s as [|b s].
    + split; [discriminate | intros [after E]; discriminate].
    + rewrite andb_true_iff, IH. split.
      * intros [Hab [after ->]]. apply Ascii.eqb_eq in Hab as ->. exists after. reflexivity.
      * intros [after E]. injection E as -> ->. split; [apply Ascii.eqb_refl | eauto].
Qed.

(** The test [pattern in line] is the literal occurrence of the pattern. *)
Lemma contains_spec p s : contains p s = true <-> occurs_in p s.
Proof.
  unfold occurs_in. induction s as [|c s IH].
  - simpl. rewrite orb_false_r, startswith_spec. split.
    + intros [after E]. exists "", after. exact E.
    + intros (before & after & E). destruct before as [|b before]; [eauto|discriminate].
  - cbn [contains]. rewrite orb_true_iff, startswith_spec, IH. split.
    + intros [[after E]|(before & after & E)].
      * exists "", after. exact E.
      * exists (String c before), after. rewrite E. reflexivity.
    + intros (before & after & E). destruct before as [|b before].
      * left. exists after. exact E.
      * right. injection E as -> ->. eauto.
Qed.

Lemma _grep_matches_filter pattern k lines :
  _grep_matches pattern k lines
  = map (fun nl => str_of_nat nl.1 ++ ":" ++ rstrip nl.2)
        (List.filter (fun nl => contains pattern nl.2)
                     (combine (seq k (length lines)) lines)).
Proof.
  revert k. induction lines as [|l lines IH]; intros k; [reflexivity|].
  cbn [_grep_matches length seq combine List.filter]. cbn [snd].
  destruct (contains pattern l); cbn [map fst snd]; rewrite IH; reflexivity.
Qed.


Lemma append_assoc (s t u : string) : (s ++ t) ++ u = s ++ t ++ u.
Proof.
  induction s as [|c s IH]; [reflexivity|].
  change ((String c s ++ t) ++ u) with (String c ((s ++ t) ++ u)).
  rewrite IH. reflexivity.
Qed.

Lemma join_nl_concat (l : list string) :
  l <> [] -> join nl l ++ nl = String.concat "" (map (fun x => x ++ nl) l).
Proof.
  induction l as [|x l IH]; [congruence|]. intros _.
  destruct l as [|y l]; [reflexivity|].
  change (join nl (x :: y :: l)) with (x ++ nl ++ join nl (y :: l)).
  change (String.concat "" (map (fun x => x ++ nl) (x :: y :: l)))
    with ((x ++ nl) ++ String.concat "" (map (fun x => x ++ nl) (y :: l))).
  rewrite <- IH by discriminate. rewrite !append_assoc. reflexivity.
Qed.

Lemma in_numbered_from k (lines : list string) n line :
  In (n, line) (combine (seq k (length lines)) lines)
  <-> k <= n /\ nth_error lines (n - k) = Some line.
Proof.
  revert k. induction lines as [|l lines IH]; intros k.
  - simpl. split; [tauto|]. intros [_ H]. destruct (n - k); discriminate.
  - cbn [length seq combine In]. rewrite IH. split.
    + intros [[= <- <-]|[Hk Hn]].
      * split; [lia|]. rewrite Nat.sub_diag. reflexivity.
      * split; [lia|]. replace (n - k) with (S (n - S k)) by lia. exact Hn.
    + intros [Hk Hn]. destruct (Nat.eq_dec n k) as [->|Hne].
      * left. rewrite Nat.sub_diag in Hn. simpl in Hn. congruence.
      * right. split; [lia|]. replace (n - k) with (S (n - S k)) in Hn by lia. exact Hn.
Qed.

(** The hits are the numbered lines in which the pattern occurs. *)
Lemma grep_hits_spec pattern text n line :
  In (n, line) (grep_hits pattern text)
  <-> 1 <= n /\ nth_error (lines_keepends text) (n - 1) = Some line
      /\ occurs_in pattern line.
Proof.
  unfold grep_hits, numbered. rewrite List.filter_In, in_numbered_from. cbn [snd].
  rewrite contains_spec. tauto.
Qed.

Lemma grep_exit_spec pattern text :
  (grep_exit pattern text = 0%Z
   <-> exists line, In line (lines_keepends text) /\ occurs_in pattern line)
  /\ (grep_exit pattern text = 1%Z
      <-> ~ exists line, In line (lines_keepends text) /\ occurs_in pattern line)
  /\ (grep_exit pattern text = 1%Z -> grep_stdout pattern text = "").
Proof.
  assert (Hex : (exists line, In line (lines_keepends text) /\ occurs_in pattern line)
                <-> grep_hits pattern text <> []).
  { split.
    - intros (line & Hin & Hocc). apply In_nth_error in Hin as [i Hi].
      assert (H : In (S i, line) (grep_hits pattern text)).
      { apply grep_hits_spec. simpl. rewrite Nat.sub_0_r. split; [lia|]. auto. }
      intros E. rewrite E in H. destruct H.
    - destruct (grep_hits pattern text) as [|[n line] hits] eqn:E; [congruence|].
      intros _. assert (H : In (n, line) (grep_hits pattern text)) by (rewrite E; left; reflexivity).
      apply grep_hits_spec in H as (_ & Hn & Hocc).
      exists line. split; [eapply nth_error_In, Hn | exact Hocc]. }
  unfold grep_exit, grep_stdout in *.
  destruct (grep_hits pattern text) as [|hit hits]; rewrite Hex.
  - split; [|split]; [split; [discriminate|congruence] | split; [intros _ H; congruence | reflexivity] | reflexivity].
  - split; [|split]; [split; [discriminate|reflexivity] | split; [discriminate|] | discriminate].
    intros H. exfalso. apply H. discriminate.
Qed.

(** [_grep] on a regular file *)
Lemma _grep_file pattern filepath rest cwd w content :
  file_content w (_path_resolve filepath cwd) = Some content ->
  let text := FS.universal_newlines content in
  _grep (pattern :: filepath :: rest) cwd w
  = (Ok (Result (grep_stdout pattern text) "" (Some cwd) (grep_exit pattern text)), w).
Proof.
  intros Hc text. unfold file_content in Hc.
  destruct (FS.lookup w (_path_resolve filepath cwd)) as [[c|]|] eqn:E; try discriminate.
  injection Hc as ->.
  unfold _grep, bind, exists_, isdir, read_text, ask, ask_ex, done_, ret.
  unfold FS.exists_, FS.isdir, FS.read_text.
  repeat (rewrite E; cbv beta iota). cbn [negb]. cbv beta iota.
  repeat (rewrite E; cbv beta iota).
  fold text. rewrite _grep_matches_filter.
  unfold grep_stdout, grep_exit, grep_hits, numbered.
  destruct (List.filter _ _) as [|hit hits]; [reflexivity|].
  assert (Hout :
    join nl (map (fun nl0 : nat * string => str_of_nat nl0.1 ++ ":" ++ rstrip nl0.2)
                 (hit :: hits)) ++ nl
    = String.concat ""
        (map (fun nl0 : nat * string => str_of_nat nl0.1 ++ ":" ++ rstrip nl0.2 ++ nl)
             (hit :: hits))).
  { rewrite join_nl_concat by discriminate. rewrite List.map_map.
    f_equal. apply List.map_ext. intros [n l]. cbn [fst snd].
    rewrite !append_assoc. reflexivity. }
  rewrite <- Hout. reflexivity.
Qed.

(** C7. [grep PATTERN FILE] on an existing regular file: stdout is, for the
    lines of the file in which the pattern occurs as a literal substring, in
    order, the line number, a colon, the line without its trailing
    whitespace, and a newline; the exit code is 0 when some line has the
    pattern, and 1 with empty stdout when none has.  A line is tested with
    its terminator, as the file yields it. *)
Theorem grep_literal_search pattern filepath rest cwd w content :
  file_content w (_path_resolve filepath cwd) = Some content ->
  let text := FS.universal_newlines content in
  _grep (pattern :: filepath :: rest) cwd w
  = (Ok (Result (grep_stdout pattern text) "" (Some cwd) (grep_exit pattern text)), w)
  /\ (forall n line,
        In (n, line) (grep_hits pattern text)
        <-> 1 <= n /\ nth_error (lines_keepends text) (n - 1) = Some line
            /\ occurs_in pattern line)
  /\ (grep_exit pattern text = 0%Z
      <-> exists line, In line (lines_keepends text) /\ occurs_in pattern line)
  /\ (grep_exit pattern text = 1%Z
      <-> ~ exists line, In line (lines_keepends text) /\ occurs_in pattern line)
  /\ (grep_exit pattern text = 1%Z -> grep_stdout pattern text = "").
Proof.
  intros Hc text. split; [apply _grep_file, Hc|].
  split; [intros n line; apply grep_hits_spec|]. apply grep_exit_spec.
Qed.

End Grep.

Lemma grep_literal_search_witness :
  let text := "foo" ++ Fmt.nl ++ "bar" ++ Fmt.nl ++ "foobar" ++ Fmt.nl in
  _grep ["foo"; "words.txt"] "/tmp" Demo.demo_world
  = (Ok (Result ("1:foo" ++ Fmt.nl ++ "3:foobar" ++ Fmt.nl) "" (Some "/tmp") 0),
     Demo.demo_world)
  /\ (forall n line,
        In (n, line) (grep_hits "foo" text)
        <-> 1 <= n /\ nth_error (Fmt.lines_keepends text) (n - 1) = Some line
            /\ occurs_in "foo" line)
  /\ (grep_exit "foo" text = 0%Z
      <-> exists line, In line (Fmt.lines_keepends text) /\ occurs_in "foo" line)
  /\ (grep_exit "foo" text = 1%Z
      <-> ~ exists line, In line (Fmt.lines_keepends text) /\ occurs_in "foo" line)
  /\ (grep_exit "foo" text = 1%Z -> grep_stdout "foo" text = "").
Proof.
  apply (grep_literal_search "foo" "words.txt" [] "/tmp" Demo.demo_world
           ("foo" ++ Fmt.nl ++ "bar" ++ Fmt.nl ++ "foobar" ++ Fmt.nl)).
  vm_compute. reflexivity.
Defined.

(** C7 as first stated, each matching line printed as number, colon and the
    content of the line, fails on trailing whitespace and on a pattern that
    occurs in the line terminator only.  On a file that holds [foo], two
    spaces and a newline, the search for [foo] prints [1:foo], the spaces
    gone; and the pattern made of a newline, which no line content has,
    matches every line of the file of the description. *)
Lemma grep_line_content_counterexample :
  file_content (FS.set_file Demo.demo_world ["tmp"; "pad.txt"] ("foo  " ++ Fmt.nl))
               (_path_resolve "pad.txt" "/tmp")
  = Some ("foo  " ++ Fmt.nl)
  /\ run Demo.demo_host init "grep foo pad.txt" (Some "/tmp")
        (FS.set_file Demo.demo_world ["tmp"; "pad.txt"] ("foo  " ++ Fmt.nl))
     = (Ok (Result ("1:foo" ++ Fmt.nl) "" (Some "/tmp") 0), init,
        FS.set_file Demo.demo_world ["tmp"; "pad.txt"] ("foo  " ++ Fmt.nl))
  /\ "1:foo" ++ Fmt.nl <> "1:" ++ "foo  " ++ Fmt.nl
  /\ _grep [Fmt.nl; "words.txt"] "/tmp" Demo.demo_world
     = (Ok (Result ("1:foo" ++ Fmt.nl ++ "2:bar" ++ Fmt.nl ++ "3:foobar" ++ Fmt.nl)
                   "" (Some "/tmp") 0), Demo.demo_world)
  /\ PyStr.contains Fmt.nl "bar" = false.
Proof.
  split; [vm_compute; reflexivity|]. split; [vm_compute; reflexivity|].
  split; [vm_compute; discriminate|]. split; vm_compute; reflexivity.
Qed.

(** The two searches of the description, through [run]. *)
Example grep_foo :
  run Demo.demo_host init "grep foo words.txt" (Some "/tmp") Demo.demo_world
  = (Ok (Result ("1:foo" ++ Fmt.nl ++ "3:foobar" ++ Fmt.nl) "" (Some "/tmp") 0),
     init, Demo.demo_world).
Proof. vm_compute. reflexivity. Qed.

Example grep_zzz :
  run Demo.demo_host init "grep zzz words.txt" (Some "/tmp") Demo.demo_world
  = (Ok (Result "" "" (Some "/tmp") 1), init, Demo.demo_world).
Proof. vm_compute. reflexivity. Qed.

(** The pattern is not a regular expression: [fo*] has no occurrence. *)
Example grep_not_regex :
  run Demo.demo_host init "grep fo* words.txt" (Some "/tmp") Demo.demo_world
  = (Ok (Result "" "" (Some "/tmp") 1), init, Demo.demo_world).
Proof. vm_compute. reflexivity. Qed.

(** ** [rm] on a directory *)
Section Rm.
Import PyStr Fmt.

Lemma isdir_exists w p : FS.isdir w p = true -> FS.exists_ w p = true.
Proof.
  unfold FS.isdir, FS.exists_. destruct (FS.lookup w p) as [[?|]|]; congruence.
Qed.

Lemma isdir_lookup w p : FS.isdir w p = true -> FS.lookup w p = Some Dir.
Proof. unfold FS.isdir. destruct (FS.lookup w p) as [[?|]|]; congruence. Qed.

(** One path that is a directory: refused without the flag, handed to
    [shutil.rmtree] with it. *)
Lemma _rm_loop_dir recursive p cwd w :
  FS.isdir w (_path_resolve p cwd) = true ->
  _rm_loop recursive [p] cwd w =
  if recursive then
    match FS.rmtree w (_path_resolve p cwd) with
    | (Ok _, w') => (Ok (Result "" "" (Some cwd) 0), w')
    | (Raise e, w') => (Raise e, w')
    end
  else
    (Ok (Result "" ("rm: cannot remove '" ++ p ++ "': Is a directory" ++ nl) (Some cwd) 1), w).
Proof.
  intros Hd. pose proof (isdir_exists _ _ Hd) as He.
  cbn [_rm_loop]. unfold bind, exists_, isdir, ask, done_, ret.
  rewrite He. cbn [negb]. cbv beta iota. rewrite Hd. cbn [andb].
  destruct recursive; cbn [negb]; cbv beta iota; [|reflexivity].
  rewrite Hd. destruct (FS.rmtree w _) as [[e|[]] w']; reflexivity.
Qed.

(** [shutil.rmtree] on a directory other than the root *)
Lemma rmtree_dir w p :
  FS.isdir w p = true -> FS.key w p <> [] ->
  FS.rmtree w p
  = (Ok tt, World (filter (fun kv => ~ (FS.key w p `prefix_of` kv.1)) (files w))
                  (getcwd w)).
Proof.
  intros Hd Hk. unfold FS.rmtree. rewrite (isdir_lookup _ _ Hd).
  destruct (FS.key w p); [contradiction | reflexivity].
Qed.

Lemma lookup_key_after_rmtree w (k k' : list string) :
  k <> [] ->
  let w' := World (filter (fun kv => ~ (k `prefix_of` kv.1)) (files w)) (getcwd w) in
  (k `prefix_of` k' -> FS.lookup_key w' k' = None)
  /\ (~ k `prefix_of` k' -> FS.lookup_key w' k' = FS.lookup_key w k').
Proof.
  intros Hk w'. unfold FS.lookup_key. subst w'. cbn [files]. split.
  - intros Hpre. destruct k' as [|a k'].
    + apply prefix_nil_inv in Hpre. contradiction.
    + apply map_lookup_filter_None_2. right. intros x _ Hn. apply Hn. exact Hpre.
  - intros Hn. destruct k' as [|a k']; [reflexivity|].
    destruct (files w !! (a :: k')) as [x|] eqn:E.
    + apply map_lookup_filter_Some_2; [exact E | exact Hn].
    + apply map_lookup_filter_None_2. left. exact E.
Qed.

(** [_rm] with one path, a directory, among its arguments *)
Lemma _rm_dir args p cwd w :
  List.filter (fun a => negb (_rm_is_flag a)) args = [p] ->
  FS.isdir w (_path_resolve p cwd) = true ->
  _rm args cwd w = _rm_loop (existsb _rm_is_flag args) [p] cwd w.
Proof.
  intros Hf Hd. unfold _rm. destruct args as [|a args]; [discriminate|].
  cbv zeta. rewrite Hf. reflexivity.
Qed.

(** C8. [rm] given one path, a directory other than the root of the store,
    empty or not: without any of the flags [-r], [-rf], [-fr] among its
    arguments it returns exit code 1 and leaves the store as it was; with
    one of them it returns exit code 0, and afterwards neither the directory
    nor anything below it is in the store, every other entry being as
    before. *)
Theorem rm_directory_needs_recursive_flag args p cwd w :
  List.filter (fun a => negb (_rm_is_flag a)) args = [p] ->
  FS.isdir w (_path_resolve p cwd) = true ->
  FS.key w (_path_resolve p cwd) <> [] ->
  (existsb _rm_is_flag args = false ->
   _rm args cwd w
   = (Ok (Result "" ("rm: cannot remove '" ++ p ++ "': Is a directory" ++ nl)
                 (Some cwd) 1), w))
  /\ (existsb _rm_is_flag args = true ->
      exists w',
        _rm args cwd w = (Ok (Result "" "" (Some cwd) 0), w')
        /\ getcwd w' = getcwd w
        /\ forall k',
             (FS.key w (_path_resolve p cwd) `prefix_of` k'
              -> FS.lookup_key w' k' = None)
             /\ (~ FS.key w (_path_resolve p cwd) `prefix_of` k'
                 -> FS.lookup_key w' k' = FS.lookup_key w k')).
Proof.
  intros Hf Hd Hk. rewrite (_rm_dir args p cwd w Hf Hd), (_rm_loop_dir _ p cwd w Hd).
  split; intros ->; [reflexivity|].
  rewrite (rmtree_dir w _ Hd Hk). eexists. split; [reflexivity|]. split; [reflexivity|].
  intros k'. apply lookup_key_after_rmtree, Hk.
Qed.

End Rm.

Lemma rm_directory_needs_recursive_flag_witness :
  (existsb _rm_is_flag ["-rf"; "proj"] = false ->
   _rm ["-rf"; "proj"] "/tmp" Demo.demo_world
   = (Ok (Result "" ("rm: cannot remove '" ++ "proj" ++ "': Is a directory" ++ Fmt.nl)
                 (Some "/tmp") 1), Demo.demo_world))
  /\ (existsb _rm_is_flag ["-rf"; "proj"] = true ->
      exists w',
        _rm ["-rf"; "proj"] "/tmp" Demo.demo_world = (Ok (Result "" "" (Some "/tmp") 0), w')
        /\ getcwd w' = getcwd Demo.demo_world
        /\ forall k',
             (FS.key Demo.demo_world (_path_resolve "proj" "/tmp") `prefix_of` k'
              -> FS.lookup_key w' k' = None)
             /\ (~ FS.key Demo.demo_world (_path_resolve "proj" "/tmp") `prefix_of` k'
                 -> FS.lookup_key w' k' = FS.lookup_key Demo.demo_world k')).
Proof.
  apply (rm_directory_needs_recursive_flag ["-rf"; "proj"] "proj" "/tmp" Demo.demo_world).
  - reflexivity.
  - vm_compute. reflexivity.
  - vm_compute. discriminate.
Defined.

(** The two calls on the non-empty directory [/tmp/proj], through [run]. *)
Example rm_without_flag :
  run Demo.demo_host init "rm proj" (Some "/tmp") Demo.demo_world
  = (Ok (Result "" ("rm: cannot remove 'proj': Is a directory" ++ Fmt.nl) (Some "/tmp") 1),
     init, Demo.demo_world).
Proof. vm_compute. reflexivity. Qed.

Example rm_with_flag :
  exists w',
    run Demo.demo_host init "rm -r proj" (Some "/tmp") Demo.demo_world
    = (Ok (Result "" "" (Some "/tmp") 0), init, w')
    /\ FS.exists_ w' "/tmp/proj" = false
    /\ FS.exists_ w' "/tmp/proj/main.py" = false
    /\ FS.exists_ w' "/tmp/proj/sub/x" = false
    /\ file_content w' "/tmp/words.txt" = file_content Demo.demo_world "/tmp/words.txt".
Proof. eexists. repeat split; vm_compute; reflexivity. Qed.

(** ** The working-directory slot of every verb *)
Section Frame.
Variable h : host.
Import PyStr Fmt.

Lemma post_ret {A} (a : A) (Q : A -> Prop) : Q a -> post (ret a) Q.
Proof. intros Ha w a' w' [= <- _]. exact Ha. Qed.

Lemma post_raise {A} (e : exn) (Q : A -> Prop) : post (raise e) Q.
Proof. intros w a w' [=]. Qed.

Lemma post_bind {A B} (m : io A) (k : A -> io B) (P : A -> Prop) (Q : B -> Prop) :
  post m P -> (forall a, P a -> post (k a) Q) -> post (bind m k) Q.
Proof.
  intros Hm Hk w b w'. unfold bind. destruct (m w) as [[e|a] w1] eqn:E; [discriminate|].
  apply (Hk a (Hm _ _ _ E)).
Qed.

Lemma post_bind_any {A B} (m : io A) (k : A -> io B) (Q : B -> Prop) :
  (forall a, post (k a) Q) -> post (bind m k) Q.
Proof.
  intros Hk. apply (post_bind m k (fun _ => True)); [intros ? ? ? _; exact I | auto].
Qed.

Lemma post_catch {A} (m : io A) caught (hd : exn -> io A) (Q : A -> Prop) :
  post m Q -> (forall e, post (hd e) Q) -> post (catch m caught hd) Q.
Proof.
  intros Hm Hh w a w'. unfold catch. destruct (m w) as [[e|a0] w1] eqn:E.
  - destruct (caught e); [apply Hh | discriminate].
  - intros [= <- _]. apply (Hm _ _ _ E).
Qed.

Lemma slot_done out err cwd code : post (done_ out err cwd code) (slot_kept cwd).
Proof. apply post_ret. left. reflexivity. Qed.

Ltac slot_step :=
  match goal with
  | |- post (done_ _ _ _ _) _ => apply slot_done
  | |- post (ret _) _ => apply post_ret; first [left; reflexivity | right; reflexivity]
  | |- post (bind _ _) _ => apply post_bind_any; intros
  | |- post (catch _ _ _) _ => apply post_catch; [|intros]
  | |- post (if ?b then _ else _) _ => destruct b
  | |- post (match ?x with _ => _ end) _ => destruct x
  | H : forall _, post _ _ |- post _ _ => solve [apply H]
  | H : post _ _ |- post _ _ => exact H
  end.
Ltac slot_auto := repeat slot_step.

Lemma slot_ls args cwd : post (_ls h args cwd) (slot_kept cwd).
Proof. unfold _ls. destruct (_ls_flags cwd args) as [[target lf] sa]. slot_auto. Qed.

Lemma slot_mkdir args cwd : post (_mkdir args cwd) (slot_kept cwd).
Proof.
  assert (L : forall l, post (_mkdir_loop l cwd) (slot_kept cwd)).
  { induction l as [|a l IH]; cbn [_mkdir_loop]; slot_auto. }
  unfold _mkdir. destruct args; [slot_auto | apply L].
Qed.

Lemma slot_rm args cwd : post (_rm args cwd) (slot_kept cwd).
Proof.
  assert (L : forall b l, post (_rm_loop b l cwd) (slot_kept cwd)).
  { intros b. induction l as [|a l IH]; cbn [_rm_loop]; slot_auto. }
  unfold _rm. destruct args; [slot_auto|]. cbv zeta.
  destruct (List.filter _ _); [slot_auto | apply L].
Qed.

Lemma slot_rmdir args cwd : post (_rmdir args cwd) (slot_kept cwd).
Proof.
  assert (L : forall l, post (_rmdir_loop l cwd) (slot_kept cwd)).
  { induction l as [|a l IH]; cbn [_rmdir_loop]; slot_auto. }
  unfold _rmdir. destruct args; [slot_auto | apply L].
Qed.

Lemma slot_echo args cwd : post (_echo args cwd) (slot_kept cwd).
Proof. unfold _echo, _echo_redirect. slot_auto. Qed.

(** The early returns of the reading loop of [_cat] keep the directory. *)
Lemma _cat_read_early files_to_read cwd parts :
  post (_cat_read files_to_read cwd parts)
       (fun r => match r with inl early => slot_kept cwd early | inr _ => True end).
Proof.
  revert parts. induction files_to_read as [|a l IH]; intros parts; cbn [_cat_read].
  - apply post_ret. exact I.
  - apply post_bind_any; intros ex. destruct (negb ex); [apply post_ret; left; reflexivity|].
    apply post_bind_any; intros d. destruct d; [apply post_ret; left; reflexivity|].
    apply post_bind_any; intros c. apply IH.
Qed.

Lemma slot_cat args cwd : post (_cat args cwd) (slot_kept cwd).
Proof.
  assert (R : forall op mode label,
             post (_cat_redirect op mode label args cwd) (slot_kept cwd)).
  { intros op mode label. unfold _cat_redirect. apply post_catch; [|intros; slot_auto].
    apply post_bind_any; intros idx. destruct (idx =? 0)%Z; [slot_auto|].
    apply post_bind_any; intros target.
    eapply post_bind; [apply _cat_read_early|]. intros [early|parts] Hr; slot_auto.
    apply post_ret. exact Hr. }
  unfold _cat. destruct (mem "<<" args).
  { unfold _cat_heredoc. apply post_catch; [|intros; slot_auto].
    apply post_bind_any; intros hidx. apply post_bind_any; intros [ridx mode]. slot_auto. }
  destruct (mem ">>" args); [apply R|]. destruct (mem ">" args); [apply R|].
  destruct args; [slot_auto|].
  eapply post_bind; [apply _cat_read_early|]. intros [early|parts] Hr; slot_auto.
  apply post_ret. exact Hr.
Qed.

Lemma slot_touch args cwd : post (_touch h args cwd) (slot_kept cwd).
Proof.
  assert (L : forall l, post (_touch_loop h l cwd) (slot_kept cwd)).
  { induction l as [|a l IH]; cbn [_touch_loop]; slot_auto. }
  unfold _touch. destruct args; [slot_auto | apply L].
Qed.

Lemma slot_mv args cwd : post (_mv h args cwd) (slot_kept cwd).
Proof.
  assert (L : forall l dest, post (_mv_loop h l dest cwd) (slot_kept cwd)).
  { induction l as [|a l IH]; intros dest; cbn [_mv_loop]; slot_auto. }
  unfold _mv. slot_auto. apply L.
Qed.

Lemma slot_cp args cwd : post (_cp h args cwd) (slot_kept cwd).
Proof.
  assert (L : forall b l dest, post (_cp_loop h b l dest cwd) (slot_kept cwd)).
  { intros b. induction l as [|a l IH]; intros dest; cbn [_cp_loop]; slot_auto. }
  unfold _cp. slot_auto. apply L.
Qed.

Lemma slot_cpu cwd : post (_cpu h) (slot_kept cwd).
Proof. unfold _cpu. slot_auto. Qed.

Lemma slot_mem cwd : post (_mem h) (slot_kept cwd).
Proof. unfold _mem. apply post_bind_any; intros [[total used] percent]. slot_auto. Qed.

Lemma slot_ps args cwd : post (_ps h args) (slot_kept cwd).
Proof. unfold _ps. slot_auto. Qed.

Lemma slot_uptime cwd : post (_uptime h) (slot_kept cwd).
Proof. unfold _uptime. apply post_bind_any; intros [days seconds]. slot_auto. Qed.

Lemma _count_args_early verb args cwd lines filepath early :
  _count_args verb args cwd lines filepath = inl early -> slot_kept cwd early.
Proof.
  assert (L : forall n args, length args <= n -> forall lines filepath,
                _count_args verb args cwd lines filepath = inl early ->
                slot_kept cwd early).
  { induction n as [|n IH]; intros l Hlen lines0 filepath0.
    - destruct l; [discriminate | simpl in Hlen; lia].
    - destruct l as [|a [|count rest]]; [discriminate | discriminate |].
      change (_count_args verb (a :: count :: rest) cwd lines0 filepath0)
        with (if String.eqb a "-n"
              then match PyInt.parse 10 count with
                   | Ok m => _count_args verb rest cwd m filepath0
                   | Raise _ =>
                       inl (Result "" (verb ++ ": invalid number of lines" ++ nl)
                                   (Some cwd) 1)
                   end
              else _count_args verb (count :: rest) cwd lines0 (Some a)).
      simpl in Hlen. destruct (String.eqb a "-n").
      + destruct (PyInt.parse 10 count).
        * intros [= <-]. left. reflexivity.
        * apply IH. lia.
      + apply IH. simpl. lia. }
  apply (L (length args) args). lia.
Qed.

Lemma slot_head_tail verb select args cwd :
  post (_head_tail verb select args cwd) (slot_kept cwd).
Proof.
  unfold _head_tail. destruct (_count_args verb args cwd 10 None) as [early|[n fp]] eqn:E.
  - apply post_ret. eapply _count_args_early, E.
  - slot_auto.
Qed.

Lemma slot_wc args cwd : post (_wc args cwd) (slot_kept cwd).
Proof.
  assert (L : forall l results, post (_wc_loop l cwd results) (slot_kept cwd)).
  { induction l as [|a l IH]; intros results; cbn [_wc_loop]; slot_auto. }
  unfold _wc. destruct args; [slot_auto | apply L].
Qed.

Lemma slot_grep args cwd : post (_grep args cwd) (slot_kept cwd).
Proof. unfold _grep. destruct args as [|pattern [|filepath rest]]; slot_auto. Qed.

Lemma slot_find args cwd : post (_find h args cwd) (slot_kept cwd).
Proof. unfold _find. destruct (_find_args args cwd cwd None). slot_auto. Qed.

Lemma slot_tree args cwd : post (_tree h args cwd) (slot_kept cwd).
Proof. unfold _tree. slot_auto. Qed.

Lemma slot_du args cwd : post (_du h args cwd) (slot_kept cwd).
Proof. unfold _du. slot_auto. Qed.

Lemma slot_df args cwd : post (_df h args cwd) (slot_kept cwd).
Proof. unfold _df. apply post_bind_any; intros [[[total used] free] percent]. slot_auto. Qed.

Lemma slot_stat args cwd : post (_stat h args cwd) (slot_kept cwd).
Proof. unfold _stat. destruct args; slot_auto. Qed.

Lemma slot_chmod args cwd : post (_chmod h args cwd) (slot_kept cwd).
Proof. unfold _chmod. destruct args as [|mode_str [|filepath rest]]; slot_auto. Qed.

Lemma slot_sum verb digest args cwd results :
  post (_sum_loop verb digest args cwd results) (slot_kept cwd).
Proof.
  revert results. induction args as [|a l IH]; intros results; cbn [_sum_loop]; slot_auto.
Qed.

Lemma slot_which args cwd : post (_which args cwd) (slot_kept cwd).
Proof. unfold _which. destruct args; slot_auto. Qed.

Lemma slot_head args cwd : post (_head args cwd) (slot_kept cwd).
Proof. apply slot_head_tail. Qed.

Lemma slot_tail args cwd : post (_tail args cwd) (slot_kept cwd).
Proof. apply slot_head_tail. Qed.

Lemma slot_md5sum args cwd : post (_md5sum h args cwd) (slot_kept cwd).
Proof. unfold _md5sum. destruct args; [slot_auto | apply slot_sum]. Qed.

Lemma slot_sha256sum args cwd : post (_sha256sum h args cwd) (slot_kept cwd).
Proof. unfold _sha256sum. destruct args; [slot_auto | apply slot_sum]. Qed.

Lemma slot_date args cwd : post (_date h args cwd) (slot_kept cwd).
Proof. unfold _date. slot_auto. Qed.

Lemma slot_whoami cwd : post (_whoami h cwd) (slot_kept cwd).
Proof. unfold _whoami. slot_auto. Qed.

Lemma slot_hostname cwd : post (_hostname h cwd) (slot_kept cwd).
Proof. unfold _hostname. slot_auto. Qed.

Lemma slot_clear cwd : post (_clear cwd) (slot_kept cwd).
Proof. unfold _clear. slot_auto. Qed.

(** [_cd] returns the directory passed in with its two errors, and the
    target when it exists and is a directory. *)
Lemma _cd_slot args cwd w r w' :
  _cd h args cwd w = (Ok r, w') ->
  slot_kept cwd r
  \/ (exit_code r = 0%Z /\ new_cwd r = Some (cd_target h args cwd)
      /\ FS.exists_ w (cd_target h args cwd) = true
      /\ FS.isdir w (cd_target h args cwd) = true).
Proof.
  unfold _cd. fold (cd_target h args cwd).
  unfold bind, exists_, isdir, ask, lift, done_, ret.
  destruct (FS.exists_ w (cd_target h args cwd)) eqn:Ee; cbn [negb]; cbv beta iota.
  - destruct (FS.isdir w (cd_target h args cwd)) eqn:Ed; cbn [negb]; cbv beta iota.
    + intros [= <- _]. right. auto.
    + destruct (getitem args 0); intros [= <- _]. left. left. reflexivity.
  - destruct (getitem args 0); intros [= <- _]. left. left. reflexivity.
Qed.

Lemma post_apply {A} (m : io A) (Q : A -> Prop) w a w' :
  post m Q -> m w = (Ok a, w') -> Q a.
Proof. intros Hm. apply Hm. Qed.

(** The lemma of the handler at hand *)
Ltac slot_handler :=
  first [ apply slot_done | apply slot_ls | apply slot_mkdir | apply slot_rm
        | apply slot_rmdir | apply slot_echo | apply slot_touch | apply slot_mv
        | apply slot_cp | apply slot_cpu | apply slot_mem | apply slot_ps
        | apply slot_uptime | apply slot_head | apply slot_tail | apply slot_wc
        | apply slot_grep | apply slot_find | apply slot_tree | apply slot_du
        | apply slot_df | apply slot_stat | apply slot_chmod | apply slot_date
        | apply slot_whoami | apply slot_hostname | apply slot_md5sum
        | apply slot_sha256sum | apply slot_clear | apply slot_which ].

(** Every verb but [cd] keeps the working-directory slot; [cd] changes it
    only to an existing directory. *)
Lemma dispatch_slot self cmd args cwd w r self' w' :
  dispatch h self cmd args cwd w = (Ok (r, self'), w') ->
  slot_kept cwd r
  \/ (cmd = "cd" /\ exit_code r = 0%Z /\ new_cwd r = Some (cd_target h args cwd)
      /\ FS.exists_ w (cd_target h args cwd) = true
      /\ FS.isdir w (cd_target h args cwd) = true).
Proof.
  unfold dispatch. intros H.
  repeat match type of H with
         | (if String.eqb cmd "cd" then _ else _) _ = _ =>
             destruct (String.eqb_spec cmd "cd") as [->|_];
             [ apply keep_state in H as [_ H]; apply _cd_slot in H as [H|H];
               [left; exact H | right; split; [reflexivity | exact H]] | ]
         | (if String.eqb cmd "cat" then _ else _) _ = _ =>
             destruct (String.eqb cmd "cat");
             [ left; revert H; unfold bind, lift;
               destruct (_cat args cwd w) as [[e|result0] w0] eqn:Ec; [discriminate|];
               destruct (_cat_special self result0 cwd) as [e|[r1 s1]] eqn:E;
               [discriminate|]; intros [= <- <- <-];
               apply _cat_special_state in E as [[_ ->]|[-> _]];
               [ eapply post_apply; [apply slot_cat | exact Ec]
               | left; reflexivity ] | ]
         | (if String.eqb cmd ?s then _ else _) _ = _ =>
             destruct (String.eqb cmd s);
             [ left; apply keep_state in H as [_ H];
               eapply post_apply; [|exact H]; slot_handler | ]
         | (if mem cmd ?l then _ else _) _ = _ =>
             destruct (mem cmd l);
             left; apply keep_state in H as [_ H];
             (eapply post_apply; [|exact H]); slot_handler
         end.
Qed.

(** C10. With no session open, the working-directory slot of the result of
    [run] is the working directory passed in or [None], unless the verb is
    [cd], the call succeeds, and the slot names the target of [cd], which
    exists and is a directory. *)
Theorem cwd_slot_frame self raw cwd w r self' w' :
  heredoc_mode self = None -> input_mode self = None ->
  run h self raw (Some cwd) w = (Ok r, self', w') ->
  new_cwd r = Some cwd \/ new_cwd r = None
  \/ (exists args,
        Shlex.split (strip raw) = Ok ("cd" :: args)
        /\ exit_code r = 0%Z
        /\ new_cwd r = Some (cd_target h args cwd)
        /\ FS.exists_ w (cd_target h args cwd) = true
        /\ FS.isdir w (cd_target h args cwd) = true).
Proof.
  intros Hh Hi. unfold run, run_with. rewrite Hh, Hi.
  destruct (String.eqb (strip raw) ""); [intros [= <- _ _]; left; reflexivity|].
  destruct (Shlex.split (strip raw)) as [e|[|cmd args]] eqn:Htok.
  - destruct (is_ValueError e); [intros [= <- _ _]; left; reflexivity | discriminate].
  - discriminate.
  - destruct (dispatch h self cmd args cwd w) as [[e|[r1 s1]] w1] eqn:E.
    + intros [= <- _ _]. left. reflexivity.
    + intros [= <- _ _]. apply dispatch_slot in E as [[E|E]|(-> & E)]; auto.
      right. right. exists args. auto.
Qed.

End Frame.

Lemma cwd_slot_frame_witness :
  Some "/tmp/proj" = Some "/tmp" \/ Some "/tmp/proj" = @None string
  \/ (exists args,
        Shlex.split (PyStr.strip "cd proj") = Ok ("cd" :: args)
        /\ 0%Z = 0%Z
        /\ Some "/tmp/proj" = Some (cd_target Demo.demo_host args "/tmp")
        /\ FS.exists_ Demo.demo_world (cd_target Demo.demo_host args "/tmp") = true
        /\ FS.isdir Demo.demo_world (cd_target Demo.demo_host args "/tmp") = true).
Proof.
  apply (cwd_slot_frame Demo.demo_host init "cd proj" "/tmp" Demo.demo_world
           (Result "" "" (Some "/tmp/proj") 0) init Demo.demo_world).
  - reflexivity.
  - reflexivity.
  - vm_compute. reflexivity.
Defined.

(** [cd] at work: a directory, a file, a missing name. *)
Example cd_examples :
  run_lines Demo.demo_host init "/tmp" Demo.demo_world ["cd proj"; "cd words.txt"; "cd nowhere"]
  = ([Ok (Result "" "" (Some "/tmp/proj") 0);
      Ok (Result "" ("cd: words.txt: Not a directory" ++ Fmt.nl) (Some "/tmp") 1);
      Ok (Result "" ("cd: nowhere: No such file or directory" ++ Fmt.nl) (Some "/tmp") 1)],
     init, Demo.demo_world).
Proof. vm_compute. reflexivity. Qed.

(** * Further properties of the interpreter *)

(** ** The tokenizer *)
Section Tokenizer.
Import PyStr.

Lemma quotes_inv c : Shlex.quotes c = true -> c = "'"%char \/ c = "034"%char.
Proof.
  unfold Shlex.quotes. rewrite orb_true_iff, !Ascii.eqb_eq. tauto.
Qed.

Lemma escape_inv c : Shlex.escape c = true -> c = "\"%char.
Proof. unfold Shlex.escape. apply Ascii.eqb_eq. Qed.

(** The step of the lexer inside quotes *)
Lemma tokens_in_quotes c rest st es tok q :
  Shlex.quotes st = true ->
  Shlex.tokens (String c rest) st es tok q =
  if Ascii.eqb c st then Shlex.tokens rest "a" es tok true
  else if Shlex.escape c && Shlex.escapedquotes st
       then Shlex.tokens rest c st tok true
       else Shlex.tokens rest st es (tok ++ String c "") true.
Proof. intros H. destruct (quotes_inv st H) as [-> | ->]; reflexivity. Qed.

(** The step of the lexer after a backslash *)
Lemma tokens_after_escape c rest es tok q :
  Shlex.tokens (String c rest) "\" es tok q =
  Shlex.tokens rest es es
    ((if Shlex.quotes es && negb (Ascii.eqb c "\") && negb (Ascii.eqb c es)
      then tok ++ String "\"%char "" else tok) ++ String c "") q.
Proof. reflexivity. Qed.

Lemma tokens_quotes_eof st es tok q :
  Shlex.quotes st = true ->
  Shlex.tokens "" st es tok q = Raise (Exn ValueError "No closing quotation").
Proof. intros H. destruct (quotes_inv st H) as [-> | ->]; reflexivity. Qed.

Lemma append_char_nonempty (t : string) c : t ++ String c "" <> "".
Proof. destruct t; discriminate. Qed.

Lemma emit_eof_pending tok q : tok <> "" \/ q = true -> Shlex.emit_eof tok q <> [].
Proof.
  unfold Shlex.emit_eof. intros [H| ->]; [|discriminate].
  apply String.eqb_neq in H. rewrite H, andb_false_r. discriminate.
Qed.

Lemma emits_token tok q :
  tok <> "" \/ q = true -> negb (String.eqb tok "") || q = true.
Proof.
  intros [H| ->]; [|apply orb_true_r]. apply String.eqb_neq in H. rewrite H. reflexivity.
Qed.

(** Once a token is under way the lexer yields at least one token, or
    raises. *)
Lemma tokens_pending input : forall st es tok q,
  pending st es tok q -> Shlex.tokens input st es tok q <> Ok [].
Proof.
  induction input as [|c rest IH]; intros st es tok q Hp.
  - destruct Hp as [[[-> | ->] H]|[H|[-> H]]].
    + cbn. intros [= E]. exact (emit_eof_pending _ _ H E).
    + cbn. intros [= E]. exact (emit_eof_pending _ _ H E).
    + rewrite tokens_quotes_eof by exact H. discriminate.
    + cbn. discriminate.
  - destruct Hp as [[[-> | ->] H]|[H|[-> H]]].
    + cbn [Shlex.tokens]. rewrite Ascii.eqb_refl.
      destruct (Shlex.whitespace c).
      * rewrite (emits_token _ _ H). destruct (Shlex.tokens rest _ _ _ _); discriminate.
      * destruct (Shlex.escape c) eqn:Ee.
        { apply IH. right. right. apply escape_inv in Ee as ->. auto. }
        destruct (Shlex.quotes c) eqn:Eq.
        { apply IH. right. left. exact Eq. }
        apply IH. left. split; [auto | left; discriminate].
    + change (Shlex.tokens (String c rest) "a" es tok q)
        with (if Shlex.whitespace c then
                if negb (String.eqb tok "") || q
                then except_map (cons tok) (Shlex.tokens rest " " " " "" false)
                else Shlex.tokens rest " " es tok q
              else if Shlex.quotes c then Shlex.tokens rest c es tok q
              else if Shlex.escape c then Shlex.tokens rest c "a" tok q
              else Shlex.tokens rest "a" es (tok ++ String c "") q).
      destruct (Shlex.whitespace c).
      * rewrite (emits_token _ _ H). destruct (Shlex.tokens rest _ _ _ _); discriminate.
      * destruct (Shlex.quotes c) eqn:Eq.
        { apply IH. right. left. exact Eq. }
        destruct (Shlex.escape c) eqn:Ee.
        { apply IH. right. right. apply escape_inv in Ee as ->. auto. }
        apply IH. left. split; [auto | left; apply append_char_nonempty].
    + rewrite tokens_in_quotes by exact H.
      destruct (Ascii.eqb c st).
      * apply IH. left. auto.
      * destruct (Shlex.escape c && Shlex.escapedquotes st) eqn:E.
        -- apply andb_true_iff in E as [Ee _]. apply escape_inv in Ee as ->.
           apply IH. right. right. auto.
        -- apply IH. right. left. exact H.
    + rewrite tokens_after_escape. apply IH. destruct H as [-> | H].
      * left. split; [auto | left; apply append_char_nonempty].
      * right. left. exact H.
Qed.

(** The lexer raises nothing but [ValueError]. *)
Lemma tokens_raise_ValueError input : forall st es tok q e,
  Shlex.tokens input st es tok q = Raise e -> is_ValueError e = true.
Proof.
  induction input as [|c rest IH]; intros st es tok q e.
  - cbn [Shlex.tokens].
    repeat match goal with
           | |- context [if ?b then _ else _] => destruct b
           end; intros [= <-]; reflexivity.
  - cbn [Shlex.tokens].
    repeat match goal with
           | |- (if ?b then _ else _) = _ -> _ => destruct b
           end;
    try apply IH;
    (destruct (Shlex.tokens rest _ _ _ _) eqn:E; [|discriminate];
     intros [= <-]; eapply IH, E).
Qed.

Lemma whitespace_isspace c : Shlex.whitespace c = true -> isspace c = true.
Proof.
  unfold Shlex.whitespace. rewrite !orb_true_iff, !Ascii.eqb_eq.
  intros [[[-> | ->] | ->] | ->]; reflexivity.
Qed.

Lemma lstrip_head s c t : lstrip s = String c t -> isspace c = false.
Proof.
  induction s as [|d s IH]; [discriminate|]. cbn [lstrip].
  destruct (isspace d) eqn:E; [exact IH | intros [= <- _]; exact E].
Qed.

Lemma rstrip_head s c t : rstrip s = String c t -> exists t', s = String c t'.
Proof.
  destruct s as [|d s]; [discriminate|]. cbn [rstrip].
  destruct (rstrip s); [destruct (isspace d); [discriminate|]|];
    intros [= <- _]; eauto.
Qed.

(** A stripped line starts with a character that is not a blank. *)
Lemma strip_head raw c t : strip raw = String c t -> isspace c = false.
Proof.
  unfold strip. intros H. apply rstrip_head in H as [t' H]. eapply lstrip_head, H.
Qed.

(** A stripped line that is not empty has at least one token. *)
Lemma split_strip_nonempty raw :
  strip raw <> "" -> Shlex.split (strip raw) <> Ok [].
Proof.
  intros Hne. destruct (strip raw) as [|c t] eqn:E; [congruence|].
  pose proof (strip_head raw c t E) as Hc.
  unfold Shlex.split. cbn [Shlex.tokens]. rewrite Ascii.eqb_refl.
  destruct (Shlex.whitespace c) eqn:Ew.
  { apply whitespace_isspace in Ew. congruence. }
  destruct (Shlex.escape c) eqn:Ee.
  { apply tokens_pending. right. right. apply escape_inv in Ee as ->. auto. }
  destruct (Shlex.quotes c) eqn:Eq.
  { apply tokens_pending. right. left. exact Eq. }
  apply tokens_pending. left. split; [auto | left; discriminate].
Qed.

End Tokenizer.

(** ** What [run] never does *)
Section RunTotal.
Variable h : host.
Import PyStr.

(** The tokenizer raises only the [ValueError] that [run] catches, a
    stripped non-empty line always has a first token, and whatever a handler
    raises becomes the [Error:] result. *)
Lemma run_returns self raw cwd w :
  exists r self' w', run h self raw (Some cwd) w = (Ok r, self', w').
Proof.
  unfold run, run_with.
  destruct (heredoc_mode self) as [hd|].
  { destruct (String.eqb _ _); [|eauto].
    destruct (flush _ _ _ w) as [[e|[]] w']; eauto. }
  destruct (input_mode self) as [ins|].
  { destruct (String.eqb _ _); [|eauto].
    destruct (flush _ _ _ w) as [[e|[]] w']; eauto. }
  destruct (String.eqb_spec (strip raw) "") as [E|Hne]; [eauto|].
  pose proof (split_strip_nonempty raw Hne) as Hsplit.
  destruct (Shlex.split (strip raw)) as [e|[|cmd args]] eqn:Htok.
  - rewrite (tokens_raise_ValueError _ _ _ _ _ _ Htok). eauto.
  - congruence.
  - destruct (dispatch h self cmd args cwd w) as [[e|[r s]] w']; eauto.
Qed.

(** X1. Given a working directory, [run] returns a result for every line,
    in every state and world: no exception leaves it. *)
Theorem run_never_raises self raw cwd w :
  exists r, (run h self raw (Some cwd) w).1.1 = Ok r.
Proof.
  destruct (run_returns self raw cwd w) as (r & self' & w' & E).
  exists r. rewrite E. reflexivity.
Qed.

End RunTotal.

(** ** The shape of every result *)
Section Shape.
Variable h : host.
Import PyStr Fmt.

Ltac shape_ret :=
  apply post_ret; unfold handler_shape; cbn [exit_code stderr stdout];
  first [ left; split; reflexivity
        | right; split; [auto | reflexivity] ].

Ltac shape_step :=
  match goal with
  | |- post (done_ _ _ _ _) _ => shape_ret
  | |- post (ret _) _ => shape_ret
  | |- post (bind _ _) _ => apply post_bind_any; intros
  | |- post (catch _ _ _) _ => apply post_catch; [|intros]
  | |- post (if ?b then _ else _) _ => destruct b
  | |- post (match ?x with _ => _ end) _ => destruct x
  | H : forall _, post _ _ |- post _ _ => solve [apply H]
  | H : post _ _ |- post _ _ => exact H
  end.
Ltac shape_auto := repeat shape_step.

Lemma shape_ls args cwd : post (_ls h args cwd) handler_shape.
Proof. unfold _ls. destruct (_ls_flags cwd args) as [[target lf] sa]. shape_auto. Qed.

Lemma shape_cd args cwd : post (_cd h args cwd) handler_shape.
Proof. unfold _cd. shape_auto. Qed.

Lemma shape_mkdir args cwd : post (_mkdir args cwd) handler_shape.
Proof.
  assert (L : forall l, post (_mkdir_loop l cwd) handler_shape).
  { induction l as [|a l IH]; cbn [_mkdir_loop]; shape_auto. }
  unfold _mkdir. destruct args; [shape_auto | apply L].
Qed.

Lemma shape_rm args cwd : post (_rm args cwd) handler_shape.
Proof.
  assert (L : forall b l, post (_rm_loop b l cwd) handler_shape).
  { intros b. induction l as [|a l IH]; cbn [_rm_loop]; shape_auto. }
  unfold _rm. destruct args; [shape_auto|]. cbv zeta.
  destruct (List.filter _ _); [shape_auto | apply L].
Qed.

Lemma shape_rmdir args cwd : post (_rmdir args cwd) handler_shape.
Proof.
  assert (L : forall l, post (_rmdir_loop l cwd) handler_shape).
  { induction l as [|a l IH]; cbn [_rmdir_loop]; shape_auto. }
  unfold _rmdir. destruct args; [shape_auto | apply L].
Qed.

Lemma shape_echo args cwd : post (_echo args cwd) handler_shape.
Proof. unfold _echo, _echo_redirect. shape_auto. Qed.

Lemma _cat_read_shape files_to_read cwd parts :
  post (_cat_read files_to_read cwd parts)
       (fun r => match r with inl early => handler_shape early | inr _ => True end).
Proof.
  revert parts. induction files_to_read as [|a l IH]; intros parts; cbn [_cat_read].
  - apply post_ret. exact I.
  - apply post_bind_any; intros ex. destruct (negb ex); [shape_ret|].
    apply post_bind_any; intros d. destruct d; [shape_ret|].
    apply post_bind_any; intros c. apply IH.
Qed.

Lemma shape_cat args cwd : post (_cat args cwd) handler_shape.
Proof.
  assert (R : forall op mode label,
             post (_cat_redirect op mode label args cwd) handler_shape).
  { intros op mode label. unfold _cat_redirect. apply post_catch; [|intros; shape_auto].
    apply post_bind_any; intros idx. destruct (idx =? 0)%Z; [shape_auto|].
    apply post_bind_any; intros target.
    eapply post_bind; [apply _cat_read_shape|]. intros [early|parts] Hr; shape_auto.
    apply post_ret. exact Hr. }
  unfold _cat. destruct (mem "<<" args).
  { unfold _cat_heredoc. apply post_catch; [|intros; shape_auto].
    apply post_bind_any; intros hidx. apply post_bind_any; intros [ridx mode]. shape_auto. }
  destruct (mem ">>" args); [apply R|]. destruct (mem ">" args); [apply R|].
  destruct args; [shape_auto|].
  eapply post_bind; [apply _cat_read_shape|]. intros [early|parts] Hr; shape_auto.
  apply post_ret. exact Hr.
Qed.

Lemma shape_touch args cwd : post (_touch h args cwd) handler_shape.
Proof.
  assert (L : forall l, post (_touch_loop h l cwd) handler_shape).
  { induction l as [|a l IH]; cbn [_touch_loop]; shape_auto. }
  unfold _touch. destruct args; [shape_auto | apply L].
Qed.

Lemma shape_mv args cwd : post (_mv h args cwd) handler_shape.
Proof.
  assert (L : forall l dest, post (_mv_loop h l dest cwd) handler_shape).
  { induction l as [|a l IH]; intros dest; cbn [_mv_loop]; shape_auto. }
  unfold _mv. shape_auto. apply L.
Qed.

Lemma shape_cp args cwd : post (_cp h args cwd) handler_shape.
Proof.
  assert (L : forall b l dest, post (_cp_loop h b l dest cwd) handler_shape).
  { intros b. induction l as [|a l IH]; intros dest; cbn [_cp_loop]; shape_auto. }
  unfold _cp. shape_auto. apply L.
Qed.

Lemma shape_cpu : post (_cpu h) handler_shape.
Proof. unfold _cpu. shape_auto. Qed.

Lemma shape_mem : post (_mem h) handler_shape.
Proof. unfold _mem. apply post_bind_any; intros [[total used] percent]. shape_auto. Qed.

Lemma shape_ps args : post (_ps h args) handler_shape.
Proof. unfold _ps. shape_auto. Qed.

Lemma shape_uptime : post (_uptime h) handler_shape.
Proof. unfold _uptime. apply post_bind_any; intros [days seconds]. shape_auto. Qed.

Lemma _count_args_shape verb args cwd lines filepath early :
  _count_args verb args cwd lines filepath = inl early -> handler_shape early.
Proof.
  assert (L : forall n args, length args <= n -> forall lines filepath,
                _count_args verb args cwd lines filepath = inl early ->
                handler_shape early).
  { induction n as [|n IH]; intros l Hlen lines0 filepath0.
    - destruct l; [discriminate | simpl in Hlen; lia].
    - destruct l as [|a [|count rest]]; [discriminate | discriminate |].
      change (_count_args verb (a :: count :: rest) cwd lines0 filepath0)
        with (if String.eqb a "-n"
              then match PyInt.parse 10 count with
                   | Ok m => _count_args verb rest cwd m filepath0
                   | Raise _ =>
                       inl (Result "" (verb ++ ": invalid number of lines" ++ nl)
                                   (Some cwd) 1)
                   end
              else _count_args verb (count :: rest) cwd lines0 (Some a)).
      simpl in Hlen. destruct (String.eqb a "-n").
      + destruct (PyInt.parse 10 count).
        * intros [= <-]. right. split; [auto | reflexivity].
        * apply IH. lia.
      + apply IH. simpl. lia. }
  apply (L (length args) args). lia.
Qed.

Lemma shape_head_tail verb select args cwd :
  post (_head_tail verb select args cwd) handler_shape.
Proof.
  unfold _head_tail. destruct (_count_args verb args cwd 10 None) as [early|[n fp]] eqn:E.
  - apply post_ret. eapply _count_args_shape, E.
  - shape_auto.
Qed.

Lemma shape_head args cwd : post (_head args cwd) handler_shape.
Proof. apply shape_head_tail. Qed.

Lemma shape_tail args cwd : post (_tail args cwd) handler_shape.
Proof. apply shape_head_tail. Qed.

Lemma shape_wc args cwd : post (_wc args cwd) handler_shape.
Proof.
  assert (L : forall l results, post (_wc_loop l cwd results) handler_shape).
  { induction l as [|a l IH]; intros results; cbn [_wc_loop]; shape_auto. }
  unfold _wc. destruct args; [shape_auto | apply L].
Qed.

Lemma shape_grep args cwd : post (_grep args cwd) handler_shape.
Proof. unfold _grep. destruct args as [|pattern [|filepath rest]]; shape_auto. Qed.

Lemma shape_find args cwd : post (_find h args cwd) handler_shape.
Proof. unfold _find. destruct (_find_args args cwd cwd None). shape_auto. Qed.

Lemma shape_tree args cwd : post (_tree h args cwd) handler_shape.
Proof. unfold _tree. shape_auto. Qed.

Lemma shape_du args cwd : post (_du h args cwd) handler_shape.
Proof. unfold _du. shape_auto. Qed.

Lemma shape_df args cwd : post (_df h args cwd) handler_shape.
Proof. unfold _df. apply post_bind_any; intros [[[total used] free] percent]. shape_auto. Qed.

Lemma shape_stat args cwd : post (_stat h args cwd) handler_shape.
Proof. unfold _stat. destruct args; shape_auto. Qed.

Lemma shape_chmod args cwd : post (_chmod h args cwd) handler_shape.
Proof. unfold _chmod. destruct args as [|mode_str [|filepath rest]]; shape_auto. Qed.

Lemma shape_sum verb digest args cwd results :
  post (_sum_loop verb digest args cwd results) handler_shape.
Proof.
  revert results. induction args as [|a l IH]; intros results; cbn [_sum_loop]; shape_auto.
Qed.

Lemma shape_md5sum args cwd : post (_md5sum h args cwd) handler_shape.
Proof. unfold _md5sum. destruct args; [shape_auto | apply shape_sum]. Qed.

Lemma shape_sha256sum args cwd : post (_sha256sum h args cwd) handler_shape.
Proof. unfold _sha256sum. destruct args; [shape_auto | apply shape_sum]. Qed.

Lemma shape_date args cwd : post (_date h args cwd) handler_shape.
Proof. unfold _date. shape_auto. Qed.

Lemma shape_whoami cwd : post (_whoami h cwd) handler_shape.
Proof. unfold _whoami. shape_auto. Qed.

Lemma shape_hostname cwd : post (_hostname h cwd) handler_shape.
Proof. unfold _hostname. shape_auto. Qed.

Lemma shape_clear cwd : post (_clear cwd) handler_shape.
Proof. unfold _clear. shape_auto. Qed.

Lemma shape_which args cwd : post (_which args cwd) handler_shape.
Proof. unfold _which. destruct args; shape_auto. Qed.

Lemma shape_done out cwd : post (done_ out "" cwd 0) handler_shape.
Proof. shape_ret. Qed.

Ltac shape_handler :=
  first [ apply shape_done | apply shape_ls | apply shape_cd | apply shape_mkdir
        | apply shape_rm | apply shape_rmdir | apply shape_echo | apply shape_touch
        | apply shape_mv | apply shape_cp | apply shape_cpu | apply shape_mem
        | apply shape_ps | apply shape_uptime | apply shape_head | apply shape_tail
        | apply shape_wc | apply shape_grep | apply shape_find | apply shape_tree
        | apply shape_du | apply shape_df | apply shape_stat | apply shape_chmod
        | apply shape_date | apply shape_whoami | apply shape_hostname
        | apply shape_md5sum | apply shape_sha256sum | apply shape_clear
        | apply shape_which ].

Lemma handler_shape_not_127 r : handler_shape r -> exit_code r <> 127%Z.
Proof. intros [[E _]|[[E|E] _]]; rewrite E; discriminate. Qed.

(** The dispatcher: a known verb gives a result of its handler, exit code
    0, 1 or 2; an unknown one the result with exit code 127. *)
Lemma dispatch_shape self cmd args cwd w r self' w' :
  dispatch h self cmd args cwd w = (Ok (r, self'), w') ->
  result_shape r /\ (exit_code r = 127%Z <-> known_verb cmd = false).
Proof.
  unfold dispatch. intros H.
  assert (P : forall rr, handler_shape rr -> known_verb cmd = true ->
             result_shape rr /\ (exit_code rr = 127%Z <-> known_verb cmd = false)).
  { intros rr Hs Hk. split; [left; exact Hs|]. rewrite Hk.
    split; [intros E7; exfalso; exact (handler_shape_not_127 rr Hs E7) | discriminate]. }
  repeat match type of H with
         | (if String.eqb cmd "cat" then _ else _) _ = _ =>
             destruct (String.eqb cmd "cat") eqn:?;
             [ apply P;
               [ revert H; unfold bind, lift;
                 destruct (_cat args cwd w) as [[e|result0] w0] eqn:Ec; [discriminate|];
                 destruct (_cat_special self result0 cwd) as [e|[r1 s1]] eqn:E;
                 [discriminate|]; intros [= <- <- <-];
                 apply _cat_special_state in E as [[_ ->]|[-> _]];
                 [ eapply post_apply; [apply shape_cat | exact Ec]
                 | left; split; reflexivity ]
               | match goal with
                 | E : String.eqb cmd _ = true |- _ =>
                     apply String.eqb_eq in E; rewrite E; reflexivity
                 end ] | ]
         | (if String.eqb cmd ?s then _ else _) _ = _ =>
             destruct (String.eqb cmd s) eqn:?;
             [ apply keep_state in H as [_ H]; apply P;
               [ eapply post_apply; [|exact H]; shape_handler
               | match goal with
                 | E : String.eqb cmd _ = true |- _ =>
                     apply String.eqb_eq in E; rewrite E; reflexivity
                 end ] | ]
         end.
  destruct (mem cmd ["help"; "--help"; "-h"]) eqn:Hm;
    apply keep_state in H as [_ H].
  - apply P; [eapply post_apply; [|exact H]; shape_handler|].
    unfold mem in Hm. cbn [existsb] in Hm.
    apply orb_true_iff in Hm as [E|Hm]; [apply String.eqb_eq in E as ->; reflexivity|].
    apply orb_true_iff in Hm as [E|Hm]; [apply String.eqb_eq in E as ->; reflexivity|].
    apply orb_true_iff in Hm as [E|Hm]; [apply String.eqb_eq in E as ->; reflexivity|].
    discriminate.
  - injection H as <- _. split; [right; split; reflexivity|].
    split; [intros _ | intros _; reflexivity].
    unfold mem in Hm. cbn [existsb] in Hm. rewrite !orb_false_iff in Hm.
    destruct Hm as (E1 & E2 & E3 & _).
    unfold known_verb, mem, supported_commands. cbn [existsb].
    repeat match goal with
           | E : String.eqb cmd _ = false |- _ => rewrite E; clear E
           end.
    reflexivity.
Qed.

(** X2. In every state, every result of [run] has one of three
    shapes: exit code 0 with nothing on stderr; exit code 1 or 2 with
    nothing on stdout; exit code 127 with nothing on stdout.  Output and
    error text never come together. *)
Theorem run_result_shape self raw cwd w r self' w' :
  run h self raw cwd w = (Ok r, self', w') -> result_shape r.
Proof.
  unfold run, run_with.
  destruct (match cwd with None => _ | Some _ => _ end) as [[e|[]] w1]; [discriminate|].
  destruct (heredoc_mode self) as [hd|].
  { destruct (String.eqb _ _).
    - destruct (flush _ _ _ w1) as [[e|[]] w2]; intros [= <- _ _]; left;
        [right | left]; split; cbn; auto.
    - intros [= <- _ _]. left. left. split; reflexivity. }
  destruct (input_mode self) as [ins|].
  { destruct (String.eqb _ _).
    - destruct (flush _ _ _ w1) as [[e|[]] w2]; intros [= <- _ _]; left;
        [right | left]; split; cbn; auto.
    - intros [= <- _ _]. left. left. split; reflexivity. }
  destruct (String.eqb _ ""); [intros [= <- _ _]; left; left; split; reflexivity|].
  destruct (Shlex.split _) as [e|[|cmd args]]; [|discriminate|].
  - destruct (is_ValueError e); [|discriminate].
    intros [= <- _ _]. left. right. split; cbn; auto.
  - destruct (dispatch h self cmd args _ w1) as [[e|[r1 s1]] w2] eqn:E.
    + intros [= <- _ _]. left. right. split; cbn; auto.
    + intros [= <- _ _]. apply dispatch_shape in E as [E _]. exact E.
Qed.

(** A verb that is not known goes to the last line of the dispatcher. *)
Lemma dispatch_unknown self cmd args cwd :
  known_verb cmd = false ->
  dispatch h self cmd args cwd
  = keep self (done_ "" ("Command not found: " ++ cmd ++ nl) cwd 127).
Proof.
  unfold known_verb, mem, supported_commands. cbn [existsb].
  rewrite !orb_false_iff. intros Hk.
  repeat match goal with
         | E : _ /\ _ |- _ => destruct E
         end.
  unfold dispatch, mem. cbn [existsb].
  repeat match goal with
         | E : String.eqb cmd _ = false |- _ => rewrite E; clear E
         end.
  reflexivity.
Qed.

(** X3. With no session open, a line with tokens gets exit code 127 exactly
    when its first token is none of the verbs [which] lists nor [--help] nor
    [-h]; its result is then the message [Command not found] on stderr, and
    neither the state nor the world changes. *)
Theorem exit_127_iff_unknown_verb self raw cwd w cmd args :
  heredoc_mode self = None -> input_mode self = None ->
  Shlex.split (strip raw) = Ok (cmd :: args) ->
  exists r self' w',
    run h self raw (Some cwd) w = (Ok r, self', w')
    /\ (exit_code r = 127%Z <-> known_verb cmd = false)
    /\ (known_verb cmd = false ->
        r = Result "" ("Command not found: " ++ cmd ++ nl) (Some cwd) 127
        /\ self' = self /\ w' = w).
Proof.
  intros Hh Hi Htok. rewrite (run_dispatch h self raw cwd w cmd args Hh Hi Htok).
  destruct (known_verb cmd) eqn:Hk.
  - destruct (dispatch h self cmd args cwd w) as [[e|[r s]] w1] eqn:E.
    + eexists _, _, _. split; [reflexivity|]. cbn [exit_code].
      split; [split; discriminate | discriminate].
    + exists r, s, w1. split; [reflexivity|].
      pose proof (dispatch_shape _ _ _ _ _ _ _ _ E) as [_ Hiff].
      rewrite Hk in Hiff. split; [exact Hiff | discriminate].
  - rewrite (dispatch_unknown self cmd args cwd Hk).
    eexists _, _, _. split; [reflexivity|]. cbn [exit_code]. split; [tauto | auto].
Qed.

End Shape.

Lemma exit_127_iff_unknown_verb_witness :
  exists r self' w',
    run Demo.demo_host init "  frobnicate --now " (Some "/tmp") Demo.demo_world
    = (Ok r, self', w')
    /\ (exit_code r = 127%Z <-> known_verb "frobnicate" = false)
    /\ (known_verb "frobnicate" = false ->
        r = Result "" ("Command not found: " ++ "frobnicate" ++ Fmt.nl) (Some "/tmp") 127
        /\ self' = init /\ w' = Demo.demo_world).
Proof.
  apply (exit_127_iff_unknown_verb Demo.demo_host init "  frobnicate --now " "/tmp"
           Demo.demo_world "frobnicate" ["--now"]); reflexivity.
Defined.

Lemma run_result_shape_witness :
  result_shape (Result "" ("rm: cannot remove 'proj': Is a directory" ++ Fmt.nl)
                       (Some "/tmp") 1).
Proof.
  apply (run_result_shape Demo.demo_host init "rm proj" (Some "/tmp") Demo.demo_world
           _ init Demo.demo_world).
  vm_compute. reflexivity.
Defined.

(** ** The end of a session *)
Section SessionEnd.
Variable h : host.
Import PyStr Fmt.

Lemma lstrip_all_space s : FS.all_chars isspace s = true -> lstrip s = "".
Proof.
  induction s as [|c s IH]; [reflexivity|]. cbn [FS.all_chars lstrip].
  intros H. apply andb_true_iff in H as [-> H]. exact (IH H).
Qed.

Lemma rstrip_empty s : rstrip s = "" -> FS.all_chars isspace s = true.
Proof.
  induction s as [|c s IH]; [reflexivity|]. cbn [FS.all_chars rstrip].
  destruct (rstrip s); [|discriminate].
  destruct (isspace c); [intros _; exact (IH eq_refl) | discriminate].
Qed.

Lemma lstrip_suffix s : exists pre,
  s = pre ++ lstrip s /\ FS.all_chars isspace pre = true.
Proof.
  induction s as [|c s (pre & E & Hpre)]; [exists ""; auto|].
  cbn [lstrip]. destruct (isspace c) eqn:Ec.
  - exists (String c pre). split.
    { change (String c pre ++ lstrip s) with (String c (pre ++ lstrip s)).
      rewrite <- E. reflexivity. }
    cbn [FS.all_chars]. rewrite Ec. exact Hpre.
  - exists "". auto.
Qed.

Lemma all_chars_app P s t :
  FS.all_chars P (s ++ t) = FS.all_chars P s && FS.all_chars P t.
Proof.
  induction s as [|c s IH]; [reflexivity|].
  change (String c s ++ t) with (String c (s ++ t)). cbn [FS.all_chars].
  rewrite IH, andb_assoc. reflexivity.
Qed.

(** A line strips to nothing exactly when it is made of whitespace. *)
Lemma strip_empty_iff s : strip s = "" <-> FS.all_chars isspace s = true.
Proof.
  unfold strip. split.
  - intros H. apply rstrip_empty in H.
    destruct (lstrip_suffix s) as (pre & E & Hpre).
    rewrite E, all_chars_app, Hpre, H. reflexivity.
  - intros H. rewrite (lstrip_all_space s H). reflexivity.
Qed.


(** X5. In a raw-input session a line ends the session exactly when it is
    made of whitespace only (the empty line included); any other line is
    buffered, stripped, and the session stays open. *)
Theorem raw_input_ends_on_blank self ins raw cwd w :
  heredoc_mode self = None -> input_mode self = Some ins ->
  (FS.all_chars isspace raw = true ->
   input_mode (run h self raw (Some cwd) w).1.2 = None)
  /\ (FS.all_chars isspace raw = false ->
      run h self raw (Some cwd) w
      = (Ok (Result "> " "" (Some cwd) 0),
         Executor None (Some (InputState (in_mode ins) (in_filepath ins)
                                         (in_lines ins ++ [strip raw]))),
         w)).
Proof.
  intros Hh Hi. unfold run, run_with. rewrite Hh, Hi. split; intros Hb.
  - apply strip_empty_iff in Hb. rewrite Hb.
    change (String.eqb "" "") with true. cbv iota.
    destruct (flush _ _ _ w) as [[e|[]] w']; reflexivity.
  - destruct (String.eqb_spec (strip raw) "") as [E|_]; [|reflexivity].
    apply strip_empty_iff in E. congruence.
Qed.

End SessionEnd.


Lemma raw_input_ends_on_blank_witness :
  let self := Executor None (Some (InputState "w" "/tmp/notes.txt" ["a"])) in
  (FS.all_chars PyStr.isspace "   " = true ->
   input_mode (run Demo.demo_host self "   " (Some "/tmp") Demo.demo_world).1.2 = None)
  /\ (FS.all_chars PyStr.isspace "   " = false ->
      run Demo.demo_host self "   " (Some "/tmp") Demo.demo_world
      = (Ok (Result "> " "" (Some "/tmp") 0),
         Executor None (Some (InputState "w" "/tmp/notes.txt" (["a"] ++ [PyStr.strip "   "]))),
         Demo.demo_world)).
Proof.
  apply (raw_input_ends_on_blank Demo.demo_host
           (Executor None (Some (InputState "w" "/tmp/notes.txt" ["a"])))
           (InputState "w" "/tmp/notes.txt" ["a"]) "   " "/tmp" Demo.demo_world);
    reflexivity.
Defined.

(** ** [cat] of files *)
Section Cat.
Variable h : host.
Import PyStr Fmt.

Lemma _cat_read_files args cwd w texts : forall parts,
  texts_of w cwd args texts ->
  _cat_read args cwd parts w = (Ok (inr (parts ++ texts)%list), w).
Proof.
  unfold texts_of. intros parts H. revert parts.
  induction H as [|a t args texts (c & Hc & ->) _ IH]; intros parts.
  - cbn. rewrite app_nil_r. reflexivity.
  - cbn [_cat_read]. unfold file_content in Hc.
    destruct (FS.lookup w (_path_resolve a cwd)) as [[c0|]|] eqn:E; try discriminate.
    injection Hc as ->.
    unfold bind, exists_, isdir, read_text, ask, ask_ex.
    unfold FS.exists_, FS.isdir, FS.read_text. rewrite E. cbn [negb]. cbv beta iota.
    rewrite E. cbv beta iota. rewrite E.
    rewrite IH, <- app_assoc. reflexivity.
Qed.

(** [_cat] with plain file arguments joins their texts with newlines. *)
Lemma _cat_files args cwd w texts :
  args <> [] -> redirect_free args = true -> texts_of w cwd args texts ->
  _cat args cwd w = (Ok (Result (join nl texts) "" (Some cwd) 0), w).
Proof.
  unfold redirect_free. intros Hne Hr Ht.
  apply andb_true_iff in Hr as [Hr H3]. apply andb_true_iff in Hr as [H1 H2].
  apply negb_true_iff in H1, H2, H3.
  unfold _cat. rewrite H1, H2, H3. destruct args as [|a args]; [congruence|].
  unfold bind. rewrite (_cat_read_files _ cwd w texts [] Ht). reflexivity.
Qed.

Lemma split_max_zero sep s : split_max sep s 0 = [s].
Proof. destruct s; reflexivity. Qed.

(** X6. [cat] with plain file arguments, all regular files, prints their
    texts joined by a newline (one is inserted between two files), exit code
    0, and changes nothing, provided the joined text does not begin with one
    of the two markers [HEREDOC_MODE:] and [INPUT_MODE:]. *)
Theorem cat_prints_files self args cwd w texts :
  args <> [] -> redirect_free args = true -> texts_of w cwd args texts ->
  startswith "HEREDOC_MODE:" (join nl texts) = false ->
  startswith "INPUT_MODE:" (join nl texts) = false ->
  dispatch h self "cat" args cwd w
  = (Ok (Result (join nl texts) "" (Some cwd) 0, self), w).
Proof.
  intros Hne Hr Ht Hm1 Hm2.
  change (dispatch h self "cat" args cwd)
    with (bind (_cat args cwd) (fun r0 => lift (_cat_special self r0 cwd))).
  unfold bind. rewrite (_cat_files args cwd w texts Hne Hr Ht).
  unfold lift, _cat_special. cbn [stdout]. rewrite Hm1, Hm2. reflexivity.
Qed.

(** X7. The text of a file can open a session.  When the text that [cat]
    would print is [INPUT_MODE:], a mode without colon, a colon and a path,
    no text is printed: [run] takes it for the marker of [_cat], answers
    with the prompt and opens a raw-input session in that mode on that
    path. *)
Theorem cat_marker_in_file_opens_session self args cwd w texts mode path :
  args <> [] -> redirect_free args = true -> texts_of w cwd args texts ->
  join nl texts = "INPUT_MODE:" ++ mode ++ ":" ++ path ->
  no_colon mode = true ->
  dispatch h self "cat" args cwd w
  = (Ok (Result "> " "" (Some cwd) 0,
         Executor (heredoc_mode self) (Some (InputState mode path []))), w).
Proof.
  intros Hne Hr Ht Htext Hc.
  change (dispatch h self "cat" args cwd)
    with (bind (_cat args cwd) (fun r0 => lift (_cat_special self r0 cwd))).
  unfold bind. rewrite (_cat_files args cwd w texts Hne Hr Ht), Htext.
  unfold lift, _cat_special. cbn [stdout].
  change (startswith "HEREDOC_MODE:" ("INPUT_MODE:" ++ mode ++ ":" ++ path)) with false.
  change (startswith "INPUT_MODE:" ("INPUT_MODE:" ++ mode ++ ":" ++ path)) with true.
  cbv iota.
  change (split_max ":" ("INPUT_MODE:" ++ mode ++ ":" ++ path) 2)
    with ("INPUT_MODE" :: split_max ":" (mode ++ ":" ++ path) 1).
  rewrite (split_max_no_colon mode path 0 Hc), split_max_zero. reflexivity.
Qed.

End Cat.

Lemma cat_prints_files_witness :
  dispatch Demo.demo_host init "cat" ["words.txt"; "log.txt"] "/tmp" Demo.demo_world
  = (Ok (Result (PyStr.join Fmt.nl
                   ["foo" ++ Fmt.nl ++ "bar" ++ Fmt.nl ++ "foobar" ++ Fmt.nl;
                    "old" ++ Fmt.nl])
                "" (Some "/tmp") 0, init), Demo.demo_world).
Proof.
  apply (cat_prints_files Demo.demo_host init ["words.txt"; "log.txt"] "/tmp"
           Demo.demo_world).
  - discriminate.
  - reflexivity.
  - repeat constructor; eexists; split; vm_compute; reflexivity.
  - reflexivity.
  - reflexivity.
Defined.

Lemma cat_marker_in_file_opens_session_witness :
  dispatch Demo.demo_host init "cat" ["trap.txt"] "/tmp" trap_world
  = (Ok (Result "> " "" (Some "/tmp") 0,
         Executor None (Some (InputState "w" "/tmp/words.txt" []))), trap_world).
Proof.
  apply (cat_marker_in_file_opens_session Demo.demo_host init ["trap.txt"] "/tmp"
           trap_world ["INPUT_MODE:w:/tmp/words.txt"] "w" "/tmp/words.txt").
  - discriminate.
  - reflexivity.
  - repeat constructor. eexists. split; vm_compute; reflexivity.
  - reflexivity.
  - reflexivity.
Defined.

(** The trap at work: [cat trap.txt], one line, a blank line, and the file
    [/tmp/words.txt] holds that line. *)
Example cat_trap_overwrites :
  exists rs w',
    run_lines Demo.demo_host init "/tmp" trap_world ["cat trap.txt"; "gone"; ""]
    = (rs, init, w')
    /\ file_content w' "/tmp/words.txt" = Some ("gone" ++ Fmt.nl).
Proof. eexists _, _. split; vm_compute; reflexivity. Qed.

(** ** [echo] *)
Section Echo.
Import PyStr Fmt.

Lemma index_first op words rest :
  mem op words = false ->
  PyStr.index op (words ++ op :: rest) = Some (length words).
Proof.
  unfold mem. induction words as [|x words IH]; cbn [existsb app PyStr.index length].
  - rewrite String.eqb_refl. reflexivity.
  - intros H. apply orb_false_iff in H as [Hx H].
    rewrite String.eqb_sym, Hx, (IH H). reflexivity.
Qed.

Lemma mem_middle op words rest : mem op (words ++ op :: rest) = true.
Proof.
  unfold mem. rewrite existsb_app. cbn [existsb]. rewrite String.eqb_refl.
  apply orb_true_iff. right. reflexivity.
Qed.



Lemma getitem_past (words : list string) op :
  getitem (words ++ [op]) (Z.of_nat (length words) + 1)
  = Raise (Exn IndexError "list index out of range").
Proof.
  unfold getitem. rewrite length_app. cbn [length].
  destruct (Z.ltb_spec (Z.of_nat (length words) + 1) 0) as [?|_]; [lia|].
  destruct (Z.ltb_spec (Z.of_nat (length words) + 1) 0) as [?|_]; [lia|].
  destruct (Z.leb_spec (Z.of_nat (length words + 1))
                       (Z.of_nat (length words) + 1)) as [_|?]; [|lia].
  reflexivity.
Qed.




(** X10. [echo WORDS >] with nothing after the operator: the missing target
    is the [IndexError] of the list, reported as a redirection error with
    exit code 1; nothing is written. *)
Theorem echo_missing_target words cwd w :
  mem ">" words = false ->
  _echo (words ++ [">"]) cwd w
  = (Ok (Result "" ("echo: redirection error: list index out of range" ++ nl)
                (Some cwd) 1), w).
Proof.
  intros Hm. unfold _echo. rewrite mem_middle.
  unfold _echo_redirect, catch, bind, lift, list_index, done_, ret.
  rewrite (index_first ">" words _ Hm), getitem_past. reflexivity.
Qed.

(** Without a redirection token [echo] prints its arguments. *)
Lemma echo_prints args cwd w :
  mem ">" args = false -> mem ">>" args = false ->
  _echo args cwd w = (Ok (Result (join " " args ++ nl) "" (Some cwd) 0), w).
Proof. intros H1 H2. unfold _echo. rewrite H1, H2. reflexivity. Qed.

End Echo.



Lemma echo_missing_target_witness :
  _echo (["hi"] ++ [">"]) "/tmp" Demo.demo_world
  = (Ok (Result "" ("echo: redirection error: list index out of range" ++ Fmt.nl)
                (Some "/tmp") 1), Demo.demo_world).
Proof. apply (echo_missing_target ["hi"] "/tmp" Demo.demo_world). reflexivity. Defined.

(** ** [mkdir] and [rmdir] *)
Section Directories.
Import PyStr Fmt.

(** [os.makedirs] adds entries and changes none. *)
Lemma make_ancestors_subseteq todo : forall fs done_ fs',
  FS.make_ancestors fs done_ todo = Some fs' -> fs ⊆ fs'.
Proof.
  induction todo as [|c rest IH]; intros fs d fs'; cbn [FS.make_ancestors].
  - intros [= <-]. reflexivity.
  - destruct (fs !! (d ++ [c])%list) as [[?|]|] eqn:E.
    + discriminate.
    + apply IH.
    + intros H. apply IH in H. etransitivity; [|exact H].
      apply insert_subseteq, E.
Qed.

(** After it every directory on the way is there ... *)
Lemma make_ancestors_dirs todo : forall fs done_ fs' pre c rest,
  FS.make_ancestors fs done_ todo = Some fs' ->
  todo = (pre ++ c :: rest)%list ->
  fs' !! (done_ ++ pre ++ [c])%list = Some Dir.
Proof.
  induction todo as [|c0 todo IH]; intros fs d fs' pre c rest Hm Ht.
  - destruct pre; discriminate.
  - cbn [FS.make_ancestors] in Hm. destruct pre as [|p pre]; cbn [app] in Ht.
    + injection Ht as <- <-. cbn [app].
      destruct (fs !! (d ++ [c0])%list) as [[?|]|] eqn:E; [discriminate| |].
      * apply make_ancestors_subseteq in Hm.
        eapply lookup_weaken; [exact E | exact Hm].
      * apply make_ancestors_subseteq in Hm.
        eapply lookup_weaken; [apply lookup_insert_eq | exact Hm].
    + injection Ht as <- ->.
      replace (d ++ (c0 :: pre) ++ [c])%list with ((d ++ [c0]) ++ pre ++ [c])%list
        by (rewrite <- app_assoc; reflexivity).
      destruct (fs !! (d ++ [c0])%list) as [[?|]|]; [discriminate| |];
        eapply IH; eauto.
Qed.

(** ... and a second pass over them changes nothing. *)
Lemma make_ancestors_stable todo : forall fs done_,
  (forall pre c rest, todo = (pre ++ c :: rest)%list ->
                      fs !! (done_ ++ pre ++ [c])%list = Some Dir) ->
  FS.make_ancestors fs done_ todo = Some fs.
Proof.
  induction todo as [|c0 todo IH]; intros fs d H; cbn [FS.make_ancestors]; [reflexivity|].
  pose proof (H [] c0 todo eq_refl) as H0. cbn [app] in H0. rewrite H0.
  apply IH. intros pre c rest ->.
  rewrite <- app_assoc. apply (H (c0 :: pre) c rest). reflexivity.
Qed.

Lemma proper_prefix_ne (k pre : list string) c rest :
  FS.parent k = (pre ++ c :: rest)%list -> (pre ++ [c])%list <> k.
Proof.
  intros H E. assert (L : length (FS.parent k) < length k).
  { unfold FS.parent. destruct k as [|x k] using rev_ind.
    - destruct pre; discriminate.
    - rewrite removelast_last, length_app. simpl. lia. }
  rewrite H, <- E, !length_app in L. simpl in L. lia.
Qed.

(** What a successful [os.makedirs(p, exist_ok=False)] has done *)
Lemma makedirs_ok_inv w p w1 :
  FS.makedirs w p false = (Ok tt, w1) ->
  exists fs,
    FS.make_ancestors (files w) [] (FS.parent (FS.key w p)) = Some fs
    /\ FS.key w p <> [] /\ p <> ""
    /\ w1 = World (<[FS.key w p := Dir]> fs) (getcwd w).
Proof.
  unfold FS.makedirs. destruct (String.eqb_spec p "") as [->|Hp]; [discriminate|].
  destruct (FS.make_ancestors _ _ _) as [fs|]; [|discriminate].
  destruct (FS.lookup_key _ _) as [[?|]|] eqn:E; try discriminate.
  intros [= <-]. exists fs. repeat split; auto.
  intros Hk. rewrite Hk in E. discriminate.
Qed.

(** After a successful [mkdir X] the directory is there, and a second
    [mkdir X] is refused. *)
Lemma _mkdir_ok a cwd w w1 :
  _mkdir [a] cwd w = (Ok (Result "" "" (Some cwd) 0), w1) ->
  _mkdir [a] cwd w1
  = (Ok (Result "" ("mkdir: cannot create directory '" ++ a ++ "': File exists" ++ nl)
                (Some cwd) 1), w1)
  /\ FS.isdir w1 (_path_resolve a cwd) = true.
Proof.
  set (p := _path_resolve a cwd).
  assert (H1 : _mkdir [a] cwd w = (Ok (Result "" "" (Some cwd) 0), w1) ->
               FS.makedirs w p false = (Ok tt, w1)).
  { cbn [_mkdir _mkdir_loop]. fold p. unfold bind, catch, ret, done_.
    destruct (FS.makedirs w p false) as [[e|[]] w'].
    - destruct (is_FileExistsError e); discriminate.
    - intros [= <-]. reflexivity. }
  intros H. apply H1, makedirs_ok_inv in H as (fs & Hanc & Hk & Hp & ->).
  set (k := FS.key w p) in *.
  set (w1 := World (<[k := Dir]> fs) (getcwd w)).
  assert (Hkey : FS.key w1 p = k) by reflexivity.
  assert (Hlook : FS.lookup_key w1 k = Some Dir).
  { unfold FS.lookup_key. destruct k; [congruence|]. apply lookup_insert_eq. }
  assert (Hmk : FS.makedirs w1 p false = (Raise (FS.EEXIST p), w1)).
  { unfold FS.makedirs. destruct (String.eqb_spec p "") as [?|_]; [contradiction|].
    rewrite Hkey. cbn [files w1].
    rewrite make_ancestors_stable.
    - cbn [getcwd w1]. fold w1. rewrite Hlook. reflexivity.
    - intros pre c rest Hpar. cbn [app].
      rewrite lookup_insert_ne by (apply not_eq_sym, (proper_prefix_ne k pre c rest Hpar)).
      apply (make_ancestors_dirs _ _ [] fs pre c rest Hanc Hpar). }
  split.
  - cbn [_mkdir _mkdir_loop]. fold p. unfold bind, catch, ret, done_. rewrite Hmk.
    reflexivity.
  - unfold FS.isdir, FS.lookup. destruct (String.eqb_spec p "") as [?|_]; [contradiction|].
    rewrite Hkey, Hlook. reflexivity.
Qed.

(** X11. [mkdir X] twice: when the first call succeeds, the second returns
    exit code 1 with the message [File exists], changes nothing, and the
    directory is there. *)
Theorem mkdir_twice a cwd w w1 :
  _mkdir [a] cwd w = (Ok (Result "" "" (Some cwd) 0), w1) ->
  _mkdir [a] cwd w1
  = (Ok (Result "" ("mkdir: cannot create directory '" ++ a ++ "': File exists" ++ nl)
                (Some cwd) 1), w1)
  /\ FS.isdir w1 (_path_resolve a cwd) = true.
Proof. apply _mkdir_ok. Qed.

(** X25. [mkdir X] then [cd X]: after a successful [mkdir], [cd] with the
    same argument from the same directory succeeds and moves to the
    resolved path, on any host. *)
Theorem cd_after_mkdir h a cwd w w1 :
  _mkdir [a] cwd w = (Ok (Result "" "" (Some cwd) 0), w1) ->
  _cd h [a] cwd w1 = (Ok (Result "" "" (Some (_path_resolve a cwd)) 0), w1).
Proof.
  intros H. apply _mkdir_ok in H as [_ Hd].
  unfold _cd, bind, exists_, isdir, ask, lift, done_, ret.
  rewrite (isdir_exists _ _ Hd). cbn [negb]. cbv beta iota. rewrite Hd. reflexivity.
Qed.

Lemma has_children_spec w k : FS.has_children w k = true <-> has_entry_below w k.
Proof.
  unfold FS.has_children, has_entry_below. rewrite bool_decide_eq_true.
  unfold map_Exists. split; intros (k' & n & H); exists k', n; tauto.
Qed.

(** [_rmdir] with one argument that names a directory *)
Lemma _rmdir_dir a cwd w :
  FS.isdir w (_path_resolve a cwd) = true ->
  _rmdir [a] cwd w =
  match FS.rmdir w (_path_resolve a cwd) with
  | (Ok _, w') => (Ok (Result "" "" (Some cwd) 0), w')
  | (Raise e, w') =>
      if is_OSError e
      then (Ok (Result "" ("rmdir: failed to remove '" ++ a ++ "': Directory not empty" ++ nl)
                       (Some cwd) 1), w')
      else (Raise e, w')
  end.
Proof.
  intros Hd. pose proof (isdir_exists _ _ Hd) as He.
  cbn [_rmdir _rmdir_loop]. unfold bind, exists_, isdir, ask, catch, done_, ret.
  rewrite He. cbn [negb]. cbv beta iota. rewrite Hd. cbn [negb]. cbv beta iota.
  destruct (FS.rmdir w _) as [[e|[]] w']; [|reflexivity].
  destruct (is_OSError e); reflexivity.
Qed.

(** X12. [rmdir] removes empty directories only.  On a directory with an
    entry below it, it returns exit code 1 with [Directory not empty] and
    changes nothing; on an empty directory other than the root it returns
    exit code 0, the directory is gone and every other entry is as
    before. *)
Theorem rmdir_only_empty a cwd w :
  FS.isdir w (_path_resolve a cwd) = true ->
  (has_entry_below w (FS.key w (_path_resolve a cwd)) ->
   _rmdir [a] cwd w
   = (Ok (Result "" ("rmdir: failed to remove '" ++ a ++ "': Directory not empty" ++ nl)
                 (Some cwd) 1), w))
  /\ (~ has_entry_below w (FS.key w (_path_resolve a cwd)) ->
      FS.key w (_path_resolve a cwd) <> [] ->
      exists w',
        _rmdir [a] cwd w = (Ok (Result "" "" (Some cwd) 0), w')
        /\ FS.exists_ w' (_path_resolve a cwd) = false
        /\ forall k', k' <> FS.key w (_path_resolve a cwd) ->
                      files w' !! k' = files w !! k').
Proof.
  intros Hd. rewrite (_rmdir_dir a cwd w Hd).
  set (p := _path_resolve a cwd) in *. unfold FS.rmdir.
  rewrite (isdir_lookup _ _ Hd). split.
  - intros Hb. apply has_children_spec in Hb. rewrite Hb. reflexivity.
  - intros Hb Hk. destruct (FS.has_children w (FS.key w p)) eqn:E.
    { apply has_children_spec in E. contradiction. }
    destruct (FS.key w p) as [|c k] eqn:Ek; [congruence|].
    eexists. split; [reflexivity|]. split.
    + unfold FS.exists_, FS.lookup.
      destruct (String.eqb p ""); [reflexivity|].
      change (FS.key (World (delete (c :: k) (files w)) (getcwd w)) p) with (FS.key w p).
      rewrite Ek. cbn. rewrite lookup_delete_eq. reflexivity.
    + intros k' Hne. cbn [files]. apply lookup_delete_ne. congruence.
Qed.

(** X13. [rm] works through its paths in order and stops at the first one
    it cannot remove: with a regular file and then a missing name, the file
    is removed, the call returns exit code 1 for the missing name, and the
    rest of the store is as before. *)
Theorem rm_stops_at_first_failure f m cwd w content :
  _rm_is_flag f = false -> _rm_is_flag m = false ->
  file_content w (_path_resolve f cwd) = Some content ->
  FS.exists_ w (_path_resolve m cwd) = false ->
  _rm [f; m] cwd w
  = (Ok (Result "" ("rm: cannot remove '" ++ m ++ "': No such file or directory" ++ nl)
                (Some cwd) 1),
     World (delete (FS.key w (_path_resolve f cwd)) (files w)) (getcwd w))
  /\ FS.exists_ (World (delete (FS.key w (_path_resolve f cwd)) (files w)) (getcwd w))
                (_path_resolve f cwd) = false.
Proof.
  intros Hf Hm Hc He.
  set (pf := _path_resolve f cwd) in *. set (pm := _path_resolve m cwd) in *.
  set (w' := World (delete (FS.key w pf) (files w)) (getcwd w)).
  unfold file_content in Hc.
  destruct (FS.lookup w pf) as [[c|]|] eqn:El; try discriminate.
  assert (Hkf : FS.key w pf <> []).
  { intros E. unfold FS.lookup in El. destruct (String.eqb pf ""); [discriminate|].
    rewrite E in El. discriminate. }
  assert (Hgone : FS.exists_ w' pf = false).
  { unfold FS.exists_, FS.lookup. destruct (String.eqb pf ""); [reflexivity|].
    change (FS.key w' pf) with (FS.key w pf). unfold FS.lookup_key.
    destruct (FS.key w pf) as [|x k]; [congruence|]. cbn [files w'].
    rewrite lookup_delete_eq. reflexivity. }
  assert (Hmiss : FS.exists_ w' pm = false).
  { revert He. unfold FS.exists_, FS.lookup. destruct (String.eqb pm ""); [reflexivity|].
    change (FS.key w' pm) with (FS.key w pm). unfold FS.lookup_key.
    destruct (FS.key w pm) as [|x k]; [discriminate|]. cbn [files w'].
    destruct (files w !! (x :: k)) eqn:E; [discriminate|]. intros _.
    assert (delete (FS.key w pf) (files w) !! (x :: k) = None) as ->
      by (apply lookup_delete_None; auto).
    reflexivity. }
  split; [|exact Hgone].
  unfold _rm. cbn [existsb List.filter]. rewrite Hf, Hm. cbn [negb orb].
  cbn [_rm_loop]. fold pf pm. unfold bind, exists_, isdir, ask, done_, ret.
  unfold FS.exists_ at 1. rewrite El. cbn [negb]. cbv beta iota.
  unfold FS.isdir at 1. rewrite El. cbn [andb]. cbv beta iota.
  unfold FS.isdir at 1. rewrite El. cbv beta iota.
  unfold FS.remove. rewrite El. fold w'. rewrite Hmiss. reflexivity.
Qed.

End Directories.

Lemma mkdir_twice_witness :
  let w1 := snd (_mkdir ["fresh/sub"] "/tmp" Demo.demo_world) in
  _mkdir ["fresh/sub"] "/tmp" w1
  = (Ok (Result "" ("mkdir: cannot create directory '" ++ "fresh/sub" ++ "': File exists"
                    ++ Fmt.nl) (Some "/tmp") 1), w1)
  /\ FS.isdir w1 (_path_resolve "fresh/sub" "/tmp") = true.
Proof.
  apply (mkdir_twice "fresh/sub" "/tmp" Demo.demo_world).
  vm_compute. reflexivity.
Defined.

Lemma cd_after_mkdir_witness :
  let w1 := snd (_mkdir ["fresh/sub"] "/tmp" Demo.demo_world) in
  _cd Demo.demo_host ["fresh/sub"] "/tmp" w1
  = (Ok (Result "" "" (Some (_path_resolve "fresh/sub" "/tmp")) 0), w1).
Proof.
  apply (cd_after_mkdir Demo.demo_host "fresh/sub" "/tmp" Demo.demo_world).
  vm_compute. reflexivity.
Defined.

Lemma rmdir_only_empty_witness :
  (has_entry_below Demo.demo_world (FS.key Demo.demo_world (_path_resolve "a:b" "/tmp")) ->
   _rmdir ["a:b"] "/tmp" Demo.demo_world
   = (Ok (Result "" ("rmdir: failed to remove '" ++ "a:b" ++ "': Directory not empty"
                     ++ Fmt.nl) (Some "/tmp") 1), Demo.demo_world))
  /\ (~ has_entry_below Demo.demo_world (FS.key Demo.demo_world (_path_resolve "a:b" "/tmp")) ->
      FS.key Demo.demo_world (_path_resolve "a:b" "/tmp") <> [] ->
      exists w',
        _rmdir ["a:b"] "/tmp" Demo.demo_world = (Ok (Result "" "" (Some "/tmp") 0), w')
        /\ FS.exists_ w' (_path_resolve "a:b" "/tmp") = false
        /\ forall k', k' <> FS.key Demo.demo_world (_path_resolve "a:b" "/tmp") ->
                      files w' !! k' = files Demo.demo_world !! k').
Proof.
  apply (rmdir_only_empty "a:b" "/tmp" Demo.demo_world). vm_compute. reflexivity.
Defined.

Lemma rm_stops_at_first_failure_witness :
  _rm ["log.txt"; "nothing"] "/tmp" Demo.demo_world
  = (Ok (Result "" ("rm: cannot remove '" ++ "nothing" ++ "': No such file or directory"
                    ++ Fmt.nl) (Some "/tmp") 1),
     World (delete (FS.key Demo.demo_world (_path_resolve "log.txt" "/tmp"))
                   (files Demo.demo_world)) (getcwd Demo.demo_world))
  /\ FS.exists_ (World (delete (FS.key Demo.demo_world (_path_resolve "log.txt" "/tmp"))
                               (files Demo.demo_world)) (getcwd Demo.demo_world))
                (_path_resolve "log.txt" "/tmp") = false.
Proof.
  apply (rm_stops_at_first_failure "log.txt" "nothing" "/tmp" Demo.demo_world
           ("old" ++ Fmt.nl)); vm_compute; reflexivity.
Defined.

(** The two cases of [rmdir] on the store of the examples. *)
Example rmdir_examples :
  exists w',
    run_lines Demo.demo_host init "/tmp" Demo.demo_world ["rmdir proj"; "rmdir a:b"]
    = ([Ok (Result "" ("rmdir: failed to remove 'proj': Directory not empty" ++ Fmt.nl)
                   (Some "/tmp") 1);
        Ok (Result "" "" (Some "/tmp") 0)], init, w')
    /\ FS.exists_ w' "/tmp/a:b" = false /\ FS.isdir w' "/tmp/proj" = true.
Proof. eexists. repeat split; vm_compute; reflexivity. Qed.

(** ** [head] and [tail] *)
Section HeadTail.
Import PyStr Fmt.







End HeadTail.



(** ** The two front ends *)
Section FrontEnds.
Variable h : host.
Import PyStr Fmt.

(** In any state, the working-directory slot of a result is the directory
    passed in or [None], unless the line is a [cd]. *)
Lemma run_slot_kept self raw cwd w r self' w' :
  is_cd_line raw = false ->
  run h self raw (Some cwd) w = (Ok r, self', w') -> slot_kept cwd r.
Proof.
  unfold is_cd_line, run, run_with, slot_kept. intros Hcd.
  destruct (heredoc_mode self) as [hd|].
  { destruct (String.eqb _ _).
    - destruct (flush _ _ _ w) as [[e|[]] w1]; intros [= <- _ _]; left; reflexivity.
    - intros [= <- _ _]. left. reflexivity. }
  destruct (input_mode self) as [ins|].
  { destruct (String.eqb _ _).
    - destruct (flush _ _ _ w) as [[e|[]] w1]; intros [= <- _ _]; left; reflexivity.
    - intros [= <- _ _]. left. reflexivity. }
  destruct (String.eqb (strip raw) ""); [intros [= <- _ _]; left; reflexivity|].
  destruct (Shlex.split (strip raw)) as [e|[|cmd args]] eqn:Htok.
  - destruct (is_ValueError e); [intros [= <- _ _]; left; reflexivity | discriminate].
  - discriminate.
  - destruct (dispatch h self cmd args cwd w) as [[e|[r1 s1]] w1] eqn:E.
    + intros [= <- _ _]. left. reflexivity.
    + intros [= <- _ _]. apply dispatch_slot in E as [E|(-> & _)]; [exact E|].
      discriminate.
Qed.

(** X16. The loop of [cli.py] ends only when the input does: whatever is
    typed, in whatever state and world, no exception of [run] reaches the
    handler that prints [Fatal error:]. *)
Theorem cli_loop_never_fatal inputs : forall execr cwd w printed,
  (cli_loop h execr cwd w inputs printed).1.1.2 = EndOfInput.
Proof.
  induction inputs as [|inp rest IH]; intros execr cwd w printed; [reflexivity|].
  cbn [cli_loop].
  destruct (run_returns h execr inp cwd w) as (r & self' & w' & E).
  rewrite E. apply IH.
Qed.

(** X17. Only [cd] moves the prompt of [cli.py]: when no line typed has
    [cd] as its first token, the loop ends in the directory it started in,
    sessions and failing commands included. *)
Theorem cli_cwd_moves_only_by_cd inputs : forall execr cwd w printed,
  forallb (fun inp => negb (is_cd_line inp)) inputs = true ->
  (cli_loop h execr cwd w inputs printed).1.1.1.2 = cwd.
Proof.
  induction inputs as [|inp rest IH]; intros execr cwd w printed Hno; [reflexivity|].
  cbn [forallb] in Hno. apply andb_true_iff in Hno as [Hinp Hrest].
  apply negb_true_iff in Hinp. cbn [cli_loop].
  destruct (run_returns h execr inp cwd w) as (r & self' & w' & E).
  rewrite E. rewrite IH by exact Hrest.
  destruct (run_slot_kept _ _ _ _ _ _ _ Hinp E) as [-> | ->]; [|reflexivity].
  destruct (String.eqb_spec cwd ""); congruence.
Qed.

(** X18. [/api/exec] answers every request whose [cmd] and [cwd] are
    strings or absent, and the [cwd] of the answer is then a string, never
    [null]: that of the result, or the one of the request when the result
    has none. *)
Theorem api_exec_answers self cmd cwd w :
  cmd <> Null -> cwd <> Null ->
  exists r c, (api_exec h self cmd cwd w).1.1 = Answered r /\ resp_cwd r = Some c.
Proof.
  intros Hcmd Hcwd. unfold api_exec.
  assert (Hc : exists c0, match cwd with
                          | Absent => Some (os_getcwd w)
                          | Null => None
                          | Str s => Some s
                          end = Some c0).
  { destruct cwd; [eauto | contradiction | eauto]. }
  destruct Hc as [c0 ->].
  destruct cmd as [| |s]; [|contradiction|].
  - destruct (run_returns h self "" c0 w) as (r & self' & w' & E). rewrite E.
    cbn [fst]. destruct (new_cwd r) as [c|]; eauto.
  - destruct (run_returns h self s c0 w) as (r & self' & w' & E). rewrite E.
    cbn [fst]. destruct (new_cwd r) as [c|]; eauto.
Qed.

End FrontEnds.

Lemma cli_cwd_moves_only_by_cd_witness :
  (cli_loop Demo.demo_host init "/tmp" Demo.demo_world
     ["ls"; "cat > log.txt"; "hello"; ""; "nosuch"] "").1.1.1.2 = "/tmp".
Proof.
  apply (cli_cwd_moves_only_by_cd Demo.demo_host
           ["ls"; "cat > log.txt"; "hello"; ""; "nosuch"]).
  vm_compute. reflexivity.
Defined.

Lemma api_exec_answers_witness :
  exists r c,
    (api_exec Demo.demo_host init (Str "cpu") Absent Demo.demo_world).1.1 = Answered r
    /\ resp_cwd r = Some c.
Proof.
  apply (api_exec_answers Demo.demo_host init (Str "cpu") Absent Demo.demo_world);
    discriminate.
Defined.

(** ** Moving between directories *)
Section Navigation.
Import PyStr PosixPath.

Lemma rev_app_snoc s c : forall acc,
  String.rev_app (s ++ String c "") acc = String c (String.rev_app s acc).
Proof.
  induction s as [|a s IH]; intros acc; [reflexivity|].
  change (String a s ++ String c "") with (String a (s ++ String c "")).
  cbn [String.rev_app]. apply IH.
Qed.

Lemma endswith_snoc s c : endswith "/" (s ++ String c "") = Ascii.eqb "/" c.
Proof.
  unfold endswith, String.rev. rewrite rev_app_snoc.
  change (String.rev_app "/" "") with "/". cbn [startswith].
  apply andb_true_r.
Qed.

Lemma no_slash_snoc t :
  t <> "" -> no_slash t -> exists s c, t = s ++ String c "" /\ c <> "/"%char.
Proof.
  induction t as [|a t IH]; [congruence|]. intros _ [Ha Ht].
  destruct t as [|b t].
  - exists "", a. auto.
  - destruct IH as (s & c & E & Hc); [discriminate | exact Ht |].
    exists (String a s), c. rewrite E. auto.
Qed.

Lemma join_snoc (pre : list string) t :
  pre <> [] -> join "/" (pre ++ [t]) = join "/" pre ++ "/" ++ t.
Proof.
  induction pre as [|x pre IH]; [congruence|]. intros _.
  destruct pre as [|y pre]; [reflexivity|].
  change (join "/" ((x :: y :: pre) ++ [t]))
    with (x ++ "/" ++ join "/" ((y :: pre) ++ [t])).
  rewrite IH by discriminate.
  change (join "/" (x :: y :: pre)) with (x ++ "/" ++ join "/" (y :: pre)).
  rewrite !append_assoc. reflexivity.
Qed.

(** A normalised directory other than the root does not end in a slash. *)
Lemma endswith_abs_shape comps :
  Forall clean comps -> comps <> [] -> endswith "/" (abs_shape 1 comps) = false.
Proof.
  intros Hc Hne. destruct (exists_last Hne) as (pre & t & ->).
  apply Forall_app in Hc as [_ Ht]. inversion Ht as [|? ? (He & _ & _ & Hs) _]; subst.
  destruct (no_slash_snoc t He Hs) as (s & c & -> & Hcs).
  unfold abs_shape.
  assert (E : exists u, slashes 1 ++ join "/" (pre ++ [s ++ String c ""])
                        = u ++ String c "").
  { destruct pre as [|x pre].
    - exists (slashes 1 ++ s). cbn [app join]. rewrite append_assoc. reflexivity.
    - rewrite join_snoc by discriminate.
      exists (slashes 1 ++ join "/" (x :: pre) ++ "/" ++ s).
      rewrite !append_assoc. reflexivity. }
  destruct E as [u ->]. rewrite endswith_snoc.
  destruct (Ascii.eqb_spec "/" c); congruence.
Qed.

Lemma no_slash_head b : no_slash b -> startswith "/" b = false.
Proof.
  destruct b as [|a b]; [reflexivity|]. intros [Ha _]. cbn [startswith].
  destruct (Ascii.eqb_spec "/" a); [congruence | reflexivity].
Qed.

(** Joining one more component to a normalised directory *)
Lemma join2_abs_shape comps b :
  Forall clean comps -> no_slash b ->
  join2 (abs_shape 1 comps) b = abs_shape 1 (comps ++ [b]).
Proof.
  intros Hc Hb. unfold join2. rewrite (no_slash_head b Hb).
  destruct comps as [|x comps]; [reflexivity|].
  rewrite (endswith_abs_shape (x :: comps) Hc) by discriminate.
  change (String.eqb (abs_shape 1 (x :: comps)) "") with false.
  cbn [orb]. unfold abs_shape. rewrite join_snoc by discriminate.
  rewrite !append_assoc. reflexivity.
Qed.

Lemma normpath_loop_app init l1 : forall l2 new,
  normpath_loop init (l1 ++ l2) new = normpath_loop init l2 (normpath_loop init l1 new).
Proof.
  induction l1 as [|c l1 IH]; intros l2 new; [reflexivity|].
  change ((c :: l1) ++ l2)%list with (c :: (l1 ++ l2))%list.
  cbn [normpath_loop].
  destruct (_ || _); [apply IH|].
  destruct (_ || _ || _); [apply IH|].
  destruct (negb _); apply IH.
Qed.

(** [normpath] on a normalised directory with one more component *)
Lemma normpath_shape_snoc comps b :
  Forall clean comps -> no_slash b ->
  normpath (abs_shape 1 (comps ++ [b])) = abs_shape 1 (normpath_loop 1 [b] comps).
Proof.
  intros Hc Hb. unfold abs_shape.
  change (slashes 1 ++ join "/" (comps ++ [b]))
    with (String "/" (join "/" (comps ++ [b]))).
  assert (Hhead : startswith "/" (join "/" (comps ++ [b])) = false).
  { destruct comps as [|x comps]; [apply no_slash_head, Hb|].
    inversion Hc as [|? ? (He & _ & _ & Hs) _]; subst.
    destruct x as [|a x]; [congruence|]. destruct Hs as [Ha _].
    assert (E : exists t, join "/" ((String a x :: comps) ++ [b]) = String a t).
    { destruct comps; cbn [app join]; eauto. }
    destruct E as [t ->]. cbn [startswith].
    destruct (Ascii.eqb_spec "/" a); [congruence | reflexivity]. }
  unfold normpath. change (String.eqb (String "/" _) "") with false. cbv iota.
  rewrite (initial_slashes_one _ Hhead), split_slash, normpath_loop_skip_empty.
  rewrite split_join.
  - rewrite normpath_loop_app, (normpath_loop_keeps 1 comps [] Hc) by constructor.
    reflexivity.
  - apply Forall_app. split; [apply clean_no_slash, Hc | constructor; [exact Hb | constructor]].
  - destruct comps; discriminate.
Qed.

Lemma _path_resolve_step comps b :
  Forall clean comps -> no_slash b ->
  _path_resolve b (abs_shape 1 comps) = abs_shape 1 (normpath_loop 1 [b] comps).
Proof.
  intros Hc Hb. unfold _path_resolve, isabs. rewrite (no_slash_head b Hb).
  rewrite join2_abs_shape, normpath_shape_snoc by assumption. reflexivity.
Qed.

(** X19. From a normalised absolute directory, resolving a plain name and
    then [..] leads back to the directory, and resolving [.] stays in it:
    [cd name] followed by [cd ..] returns to where it started. *)
Theorem path_resolve_down_up comps name :
  Forall clean comps -> clean name ->
  _path_resolve ".." (_path_resolve name (abs_shape 1 comps)) = abs_shape 1 comps
  /\ _path_resolve "." (abs_shape 1 comps) = abs_shape 1 comps.
Proof.
  intros Hc Hn. pose proof Hn as (He & Hd & Hdd & Hs). split.
  - rewrite (_path_resolve_step comps name Hc Hs).
    assert (E : normpath_loop 1 [name] comps = (comps ++ [name])%list).
    { apply normpath_loop_keeps; [constructor; [exact Hn | constructor] | exact Hc]. }
    rewrite E.
    assert (Hc' : Forall clean (comps ++ [name])).
    { apply Forall_app. split; [exact Hc | constructor; [exact Hn | constructor]]. }
    rewrite (_path_resolve_step (comps ++ [name]) ".." Hc')
      by (repeat split; discriminate).
    cbn [normpath_loop]. change (String.eqb ".." "") with false.
    change (String.eqb ".." ".") with false. change (String.eqb ".." "..") with true.
    rewrite (last_is_dotdot_clean _ Hc'). rewrite length_app. cbn [length].
    replace (length comps + 1 =? 0)%nat with false
      by (symmetry; apply Nat.eqb_neq; lia).
    cbn [orb negb andb Nat.eqb]. rewrite removelast_last. reflexivity.
  - rewrite (_path_resolve_step comps "." Hc) by (repeat split; discriminate).
    reflexivity.
Qed.

End Navigation.

Lemma path_resolve_down_up_witness :
  _path_resolve ".." (_path_resolve "sub" "/tmp/proj") = "/tmp/proj"
  /\ _path_resolve "." "/tmp/proj" = "/tmp/proj".
Proof.
  apply (path_resolve_down_up ["tmp"; "proj"] "sub");
    repeat first [constructor | discriminate].
Defined.

(** ** Refusals *)
Section Refusals.
Variable h : host.
Import PyStr Fmt.

(** The two messages of the lexer *)
Lemma tokens_raise_message input : forall st es tok q e,
  Shlex.tokens input st es tok q = Raise e ->
  exn_str e = "No closing quotation" \/ exn_str e = "No escaped character".
Proof.
  induction input as [|c rest IH]; intros st es tok q e.
  - cbn [Shlex.tokens].
    repeat match goal with
           | |- context [if ?b then _ else _] => destruct b
           end; intros [= <-]; auto.
  - cbn [Shlex.tokens].
    repeat match goal with
           | |- (if ?b then _ else _) = _ -> _ => destruct b
           end;
    try apply IH;
    (destruct (Shlex.tokens rest _ _ _ _) eqn:E; [|discriminate];
     intros [= <-]; eapply IH, E).
Qed.

(** X20. A line the tokenizer rejects, an open quotation or a trailing
    backslash, is answered with exit code 2 and the message of the
    tokenizer after [parse error: ], without a newline; state and world
    stay as they are. *)
Theorem parse_error_result self raw cwd w e :
  heredoc_mode self = None -> input_mode self = None ->
  Shlex.split (strip raw) = Raise e ->
  run h self raw (Some cwd) w
  = (Ok (Result "" ("parse error: " ++ exn_str e) (Some cwd) 2), self, w)
  /\ (exn_str e = "No closing quotation" \/ exn_str e = "No escaped character").
Proof.
  intros Hh Hi Htok. split.
  - unfold run, run_with. rewrite Hh, Hi, Htok.
    destruct (String.eqb_spec (strip raw) "") as [E|_].
    { rewrite E in Htok. discriminate. }
    rewrite (tokens_raise_ValueError _ _ _ _ _ _ Htok). reflexivity.
  - exact (tokens_raise_message _ _ _ _ _ _ Htok).
Qed.

(** X21. A verb that needs an operand, given none, changes nothing: the
    result is exit code 2 with a message that starts with the verb and
    [: missing ], and state and world are as before. *)
Theorem bare_verb_missing_operand self raw cmd cwd w :
  heredoc_mode self = None -> input_mode self = None ->
  Shlex.split (strip raw) = Ok [cmd] -> In cmd needs_operand ->
  exists what,
    run h self raw (Some cwd) w
    = (Ok (Result "" (cmd ++ ": missing " ++ what ++ nl) (Some cwd) 2), self, w).
Proof.
  intros Hh Hi Htok Hin. rewrite (run_dispatch h self raw cwd w cmd [] Hh Hi Htok).
  unfold needs_operand in Hin. cbn [In] in Hin.
  repeat (destruct Hin as [<- | Hin]; [eexists; reflexivity|]).
  contradiction.
Qed.

(** X22. [cd] without an argument, when the home directory of the user is
    not a directory of the store, does not report that: building the
    message reads [args[0]], and the result is the catch-all
    [Error: list index out of range], exit code 1. *)
Theorem cd_home_missing self raw cwd w :
  heredoc_mode self = None -> input_mode self = None ->
  Shlex.split (strip raw) = Ok ["cd"] ->
  FS.isdir w (expanduser_home h) = false ->
  run h self raw (Some cwd) w
  = (Ok (Result "" ("Error: list index out of range" ++ nl) (Some cwd) 1), self, w).
Proof.
  intros Hh Hi Htok Hd. rewrite (run_dispatch h self raw cwd w "cd" [] Hh Hi Htok).
  change (dispatch h self "cd" [] cwd) with (keep self (_cd h [] cwd)).
  unfold keep, _cd, bind, exists_, isdir, ask, lift, done_, ret.
  destruct (FS.exists_ w (expanduser_home h)); cbn [negb]; cbv beta iota.
  - rewrite Hd. reflexivity.
  - reflexivity.
Qed.

(** X23. [cp] of a directory without [-r] copies nothing: the result is
    the refusal, exit code 1, and the world is unchanged, whatever the
    destination. *)
Theorem cp_directory_needs_recursive_flag a b cwd w :
  a <> "-r" -> b <> "-r" ->
  FS.isdir w (_path_resolve a cwd) = true ->
  _cp h [a; b] cwd w
  = (Ok (Result "" ("cp: -r not specified; omitting directory '"
                    ++ _path_resolve a cwd ++ "'" ++ nl) (Some cwd) 1), w).
Proof.
  intros Ha Hb Hd. unfold _cp. cbn [length Nat.ltb Nat.leb existsb List.filter].
  destruct (String.eqb_spec "-r" a) as [?|_]; [congruence|].
  destruct (String.eqb_spec "-r" b) as [?|_]; [congruence|].
  destruct (String.eqb_spec a "-r") as [?|_]; [congruence|].
  destruct (String.eqb_spec b "-r") as [?|_]; [congruence|].
  cbn [negb orb length Nat.ltb Nat.leb removelast List.last map].
  unfold bind, catch, isdir, exists_, ask, done_, ret.
  cbn [andb _cp_loop]. unfold bind, isdir, exists_, ask, done_, ret.
  rewrite (isdir_exists _ _ Hd). cbn [negb]. cbv beta iota.
  rewrite Hd. reflexivity.
Qed.

(** X24. With several sources, [mv] and [cp] refuse a destination that is
    not a directory before they touch anything: exit code 1, the world
    unchanged. *)
Theorem several_sources_need_directory s1 s2 srcs d cwd w :
  existsb (String.eqb "-r") (s1 :: s2 :: srcs ++ [d]) = false ->
  FS.isdir w (_path_resolve d cwd) = false ->
  _mv h (s1 :: s2 :: srcs ++ [d]) cwd w
  = (Ok (Result "" ("mv: target is not a directory" ++ nl) (Some cwd) 1), w)
  /\ _cp h (s1 :: s2 :: srcs ++ [d]) cwd w
     = (Ok (Result "" ("cp: target is not a directory" ++ nl) (Some cwd) 1), w).
Proof.
  intros Hr Hd.
  assert (Hlast : List.last (s1 :: s2 :: srcs ++ [d]) "" = d).
  { change (s1 :: s2 :: srcs ++ [d])%list with ((s1 :: s2 :: srcs) ++ [d])%list.
    apply last_last. }
  assert (Hrem : removelast (s1 :: s2 :: srcs ++ [d]) = s1 :: s2 :: srcs).
  { change (s1 :: s2 :: srcs ++ [d])%list with ((s1 :: s2 :: srcs) ++ [d])%list.
    apply removelast_last. }
  assert (Hlen : (length (s1 :: s2 :: srcs ++ [d]) <? 2)%nat = false).
  { apply Nat.ltb_ge. cbn [length]. lia. }
  assert (Hfil : List.filter (fun a => negb (String.eqb a "-r")) (s1 :: s2 :: srcs ++ [d])
                 = s1 :: s2 :: srcs ++ [d]).
  { revert Hr. generalize (s1 :: s2 :: srcs ++ [d])%list as l.
    induction l as [|a l IH]; [reflexivity|]. cbn [existsb List.filter].
    intros H. apply orb_false_iff in H as [H1 H2].
    rewrite String.eqb_sym, H1. cbn [negb]. rewrite IH by exact H2. reflexivity. }
  split.
  - unfold _mv. rewrite Hlen, Hlast, Hrem.
    unfold bind, isdir, ask, done_, ret. rewrite Hd. reflexivity.
  - unfold _cp. rewrite Hlen, Hfil, Hlen, Hlast, Hrem.
    unfold bind, isdir, ask, done_, ret. rewrite Hd. reflexivity.
Qed.

End Refusals.

Lemma parse_error_result_witness :
  run Demo.demo_host init "echo 'abc" (Some "/tmp") Demo.demo_world
  = (Ok (Result "" ("parse error: " ++ "No closing quotation") (Some "/tmp") 2),
     init, Demo.demo_world)
  /\ ("No closing quotation" = "No closing quotation"
      \/ "No closing quotation" = "No escaped character").
Proof.
  apply (parse_error_result Demo.demo_host init "echo 'abc" "/tmp" Demo.demo_world
           (Exn ValueError "No closing quotation")); reflexivity.
Defined.

Lemma bare_verb_missing_operand_witness :
  exists what,
    run Demo.demo_host init " grep " (Some "/tmp") Demo.demo_world
    = (Ok (Result "" ("grep" ++ ": missing " ++ what ++ Fmt.nl) (Some "/tmp") 2),
       init, Demo.demo_world).
Proof.
  apply (bare_verb_missing_operand Demo.demo_host init " grep " "grep" "/tmp"
           Demo.demo_world); [reflexivity | reflexivity | reflexivity |].
  unfold needs_operand. cbn [In]. tauto.
Defined.

Lemma cd_home_missing_witness :
  run Demo.demo_host init "cd" (Some "/tmp") Demo.demo_world
  = (Ok (Result "" ("Error: list index out of range" ++ Fmt.nl) (Some "/tmp") 1),
     init, Demo.demo_world).
Proof.
  apply (cd_home_missing Demo.demo_host init "cd" "/tmp" Demo.demo_world);
    reflexivity.
Defined.

Lemma cp_directory_needs_recursive_flag_witness :
  _cp Demo.demo_host ["proj"; "copy"] "/tmp" Demo.demo_world
  = (Ok (Result "" ("cp: -r not specified; omitting directory '"
                    ++ _path_resolve "proj" "/tmp" ++ "'" ++ Fmt.nl) (Some "/tmp") 1),
     Demo.demo_world).
Proof.
  apply (cp_directory_needs_recursive_flag Demo.demo_host "proj" "copy" "/tmp"
           Demo.demo_world); [discriminate | discriminate | vm_compute; reflexivity].
Defined.

Lemma several_sources_need_directory_witness :
  _mv Demo.demo_host ("log.txt" :: "words.txt" :: [] ++ ["all.txt"]) "/tmp" Demo.demo_world
  = (Ok (Result "" ("mv: target is not a directory" ++ Fmt.nl) (Some "/tmp") 1),
     Demo.demo_world)
  /\ _cp Demo.demo_host ("log.txt" :: "words.txt" :: [] ++ ["all.txt"]) "/tmp"
       Demo.demo_world
     = (Ok (Result "" ("cp: target is not a directory" ++ Fmt.nl) (Some "/tmp") 1),
        Demo.demo_world).
Proof.
  apply (several_sources_need_directory Demo.demo_host "log.txt" "words.txt" []
           "all.txt" "/tmp" Demo.demo_world); vm_compute; reflexivity.
Defined.
